(** * The download-proxy services: a shallow embedding and its properties

    The repository holds three near-duplicate Express services.

    - [Direct]   (src/index.js, first service; src/unnamed/part_000):
      GET /api/video/download?url=&filename=&quality= resolves a YouTube
      URL with [getVideoInfo], selects a format, and relays the bytes of
      the selected (or the caller-supplied) URL with [response.pipe(res)].
    - [Tracked]  (src/index.js, second service):
      GET /api/video/download?videoUrl=&itag=&filename= spawns yt-dlp,
      writes its stdout to the response and keeps an [activeDownloads]
      entry per download; DELETE /api/downloads/:id removes an entry.
    - [Streamed] (src/unnamed/part_001): as [Tracked] without the table.

    External collaborators (yt-dlp, the upstream HTTP server, the clock,
    the URL parser) are arguments of the handlers: a [World] record gives
    what each call returns.  Asynchronous callbacks are a step function on
    an explicit state, one step per event. *)

From Stdlib Require Import ZArith String Ascii List Lia Bool Sorted DecimalString.
From Stdlib Require DecimalPos DecimalFacts.
From stdpp Require Import gmap strings.
Import ListNotations.
Local Open Scope Z_scope.

(** ** The fragment of JavaScript the services rely on *)

Module Js.

(** Primitive values, as they come out of [JSON.parse] and [req.query].
    [Num n] is the Number whose value is the integer [n] (heights, widths,
    byte sizes, quality ranks): [n] is an integer that a double holds
    exactly, and arithmetic on it is exact as long as it stays a safe
    integer, below 2^53 in magnitude.
    Strings are sequences of units below 256, which agree with JavaScript's
    strings on the ASCII text that URLs, identifiers and labels consist of. *)
Inductive value : Type :=
| Undefined
| Null
| Bool (b : bool)
| Num (n : Z)
| Str (s : string).

(** ToBoolean *)
Definition truthy (v : value) : bool :=
  match v with
  | Undefined | Null => false
  | Bool b => b
  | Num n => negb (n =? 0)
  | Str s => negb (String.eqb s "")
  end.

(** [a === b] *)
Definition strict_eq (a b : value) : bool :=
  match a, b with
  | Undefined, Undefined => true
  | Null, Null => true
  | Bool x, Bool y => Bool.eqb x y
  | Num x, Num y => x =? y
  | Str x, Str y => String.eqb x y
  | _, _ => false
  end.

(** [a || b] *)
Definition or (a b : value) : value := if truthy a then a else b.

(** *** Number::toString

    A safe integer is printed in full. From 2^53 on, the digits are those
    of the shortest decimal that still reads back as the same double, the
    closest one if there are several; it is printed in full when it has at
    most 21 digits, and as [d.ddde+x] otherwise. *)

Definition safe (n : Z) : bool := Z.abs n <? 2 ^ 53.

(** The spacing of the doubles at [n], for [n] from 2^52 on. *)
Definition ulp (n : Z) : Z := 2 ^ (Z.log2 n - 52).

(** The decimal [c] is read as the double [n]: it lies within half a spacing
    above and half a spacing (a quarter at a power of two) below, the bounds
    included when the significand of [n] is even. *)
Definition reads_as (n c : Z) : bool :=
  let u := ulp n in
  let below := if n =? 2 ^ Z.log2 n then u else 2 * u in
  let d := 4 * (c - n) in
  if Z.even (n / u)
  then (- below <=? d) && (d <=? 2 * u)
  else (- below <? d) && (d <? 2 * u).

(** The decimal with the most trailing zeros, at least [j], that reads as
    [n]; of two such, the closer one, and the even one in a tie. *)
Fixpoint shortest (j : nat) (n : Z) : Z :=
  let p := 10 ^ Z.of_nat j in
  let down := n / p * p in
  let up := down + p in
  let found :=
    match reads_as n down && (0 <? down), reads_as n up with
    | true, true =>
        if n - down <? up - n then Some down
        else if up - n <? n - down then Some up
        else if Z.even (down / p) then Some down else Some up
    | true, false => Some down
    | false, true => Some up
    | false, false => None
    end in
  match found, j with
  | Some c, _ => c
  | None, S j' => shortest j' n
  | None, O => n
  end.

Fixpoint strip_zeros (fuel : nat) (c : Z) : Z :=
  match fuel with
  | S fuel' => if (c mod 10 =? 0) && negb (c =? 0) then strip_zeros fuel' (c / 10) else c
  | O => c
  end.

Definition decimal (n : Z) : string := NilZero.string_of_int (Z.to_int n).

(** The numeral of a positive integer that is not a safe integer. *)
Definition large (n : Z) : string :=
  let c := shortest (Z.to_nat (Z.log2 n)) n in
  let digits := String.length (decimal c) in
  if (digits <=? 21)%nat then decimal c
  else
    match decimal (strip_zeros digits c) with
    | String d EmptyString =>
        String d ("e+" ++ decimal (Z.of_nat digits - 1))
    | String d r =>
        String d ("." ++ r ++ "e+" ++ decimal (Z.of_nat digits - 1))
    | EmptyString => EmptyString
    end.

Definition number_to_string (n : Z) : string :=
  if safe n then decimal n
  else if n <? 0 then String "-" (large (- n))
  else large n.

(** ToString *)
Definition to_string (v : value) : string :=
  match v with
  | Undefined => "undefined"
  | Null => "null"
  | Bool true => "true"
  | Bool false => "false"
  | Num n => number_to_string n
  | Str s => s
  end.

(** [a + b] when one operand is a string *)
Definition concat (a b : value) : value :=
  Str (to_string a ++ to_string b).

(** A query parameter: absent, or a string. *)
Definition param_truthy (p : option string) : bool :=
  match p with
  | Some s => negb (String.eqb s "")
  | None => false
  end.

(** White space and line terminators, the class of [\s] and of the
    trimming of [parseInt]: of the units below 256 these are the tab, the
    line feed, the vertical tab, the form feed, the carriage return, the
    space and the no-break space (160). *)
Definition is_space (c : ascii) : bool :=
  let n := N_of_ascii c in
  ((n =? 32) || ((9 <=? n) && (n <=? 13)) || (n =? 160))%N.

Fixpoint skip_spaces (s : string) : string :=
  match s with
  | String c r => if is_space c then skip_spaces r else s
  | EmptyString => s
  end.

Definition digit_val (c : ascii) : option Z :=
  let n := Z.of_N (N_of_ascii c) in
  if (48 <=? n) && (n <=? 57) then Some (n - 48)
  else if (97 <=? n) && (n <=? 102) then Some (n - 87)
  else if (65 <=? n) && (n <=? 70) then Some (n - 55)
  else None.

(** The longest prefix of digits of the radix, as a number; [None] when
    that prefix is empty. *)
Fixpoint digits (radix : Z) (acc : option Z) (s : string) : option Z :=
  match s with
  | String c r =>
      match digit_val c with
      | Some d =>
          if d <? radix
          then digits radix (Some (radix * default 0 acc + d)) r
          else acc
      | None => acc
      end
  | EmptyString => acc
  end.

(** [parseInt(s)] without a radix argument; [None] is NaN. *)
Definition parseInt_string (s : string) : option Z :=
  let s := skip_spaces s in
  let '(sign, s) :=
    match s with
    | String "-"%char r => (-1, r)
    | String "+"%char r => (1, r)
    | _ => (1, s)
    end in
  let '(radix, s) :=
    match s with
    | String "0"%char (String "x"%char r) => (16, r)
    | String "0"%char (String "X"%char r) => (16, r)
    | _ => (10, s)
    end in
  Z.mul sign <$> digits radix None s.

Definition parseInt (v : value) : option Z := parseInt_string (to_string v).

(** [n || 0] on a number: NaN and 0 both give 0. *)
Definition or_zero (n : option Z) : Z := default 0 n.

(** [s.endsWith(p)] *)
Definition endsWith (p s : string) : bool :=
  let n := String.length s in
  let k := String.length p in
  (k <=? n)%nat && String.eqb (String.substring (n - k) k s) p.

(** [s.toLowerCase()] on ASCII letters *)
Definition lower (c : ascii) : ascii :=
  let n := N_of_ascii c in
  if ((65 <=? n) && (n <=? 90))%N then ascii_of_N (n + 32) else c.

Fixpoint toLowerCase (s : string) : string :=
  match s with
  | EmptyString => EmptyString
  | String c r => String (lower c) (toLowerCase r)
  end.

(** [s.split('/').pop()]: what follows the last slash. *)
Fixpoint last_segment (acc s : string) : string :=
  match s with
  | EmptyString => acc
  | String c r =>
      if Ascii.eqb c "/" then last_segment EmptyString r
      else last_segment (acc ++ String c EmptyString) r
  end.

(** [s.startsWith(p)] *)
Definition startsWith (p s : string) : bool := String.prefix p s.

(** [s.includes(needle)] *)
Fixpoint includes (needle s : string) : bool :=
  String.prefix needle s ||
  match s with
  | String _ r => includes needle r
  | EmptyString => false
  end.

(** *** Percent coding *)

Definition hex_digit (n : N) : ascii :=
  ascii_of_N (if (n <? 10)%N then 48 + n else 55 + n).

Definition unreserved (c : ascii) : bool :=
  let n := N_of_ascii c in
  (((48 <=? n) && (n <=? 57)) || ((65 <=? n) && (n <=? 90)) ||
   ((97 <=? n) && (n <=? 122)))%N ||
  existsb (Ascii.eqb c)
    ["-"; "_"; "."; "!"; "~"; "*"; "'"; "("; ")"]%char.

(** [encodeURIComponent(s)] *)
Fixpoint encodeURIComponent (s : string) : string :=
  match s with
  | EmptyString => EmptyString
  | String c r =>
      if unreserved c then String c (encodeURIComponent r)
      else
        let n := N_of_ascii c in
        String "%" (String (hex_digit (n / 16)) (String (hex_digit (n mod 16))
          (encodeURIComponent r)))
  end.

(** One unit of the input of [decodeURIComponent]: a literal character or
    the octet of a [%XX] escape. *)
Inductive token : Type :=
| Lit (c : ascii)
| Esc (b : N).

(** [None]: a [%] that is not followed by two hexadecimal digits. *)
Fixpoint tokens (s : string) : option (list token) :=
  match s with
  | EmptyString => Some []
  | String "%"%char (String h (String l r)) =>
      match digit_val h, digit_val l, tokens r with
      | Some a, Some b, Some ts => Some (Esc (Z.to_N (16 * a + b)) :: ts)
      | _, _, _ => None
      end
  | String "%"%char _ => None
  | String c r => cons (Lit c) <$> tokens r
  end.

Definition within (lo hi b : N) : bool := ((lo <=? b) && (b <=? hi))%N.

Definition chars (bs : list N) (r : string) : string :=
  fold_right (fun b acc => String (ascii_of_N b) acc) r bs.

(** Escaped octets must spell well-formed UTF-8; the decoded character is
    kept as those octets. [None]: URIError. *)
Fixpoint decode (ts : list token) : option string :=
  match ts with
  | [] => Some EmptyString
  | Lit c :: r => String c <$> decode r
  | Esc b :: r =>
      if (b <? 128)%N then String (ascii_of_N b) <$> decode r
      else
        match r with
        | Esc b1 :: r1 =>
            if within 194 223 b && within 128 191 b1
            then chars [b; b1] <$> decode r1
            else
              match r1 with
              | Esc b2 :: r2 =>
                  if ((b =? 224)%N && within 160 191 b1 ||
                      (within 225 236 b || within 238 239 b) && within 128 191 b1 ||
                      (b =? 237)%N && within 128 159 b1)
                     && within 128 191 b2
                  then chars [b; b1; b2] <$> decode r2
                  else
                    match r2 with
                    | Esc b3 :: r3 =>
                        if ((b =? 240)%N && within 144 191 b1 ||
                            within 241 243 b && within 128 191 b1 ||
                            (b =? 244)%N && within 128 143 b1)
                           && within 128 191 b2 && within 128 191 b3
                        then chars [b; b1; b2; b3] <$> decode r3
                        else None
                    | _ => None
                    end
              | _ => None
              end
        | _ => None
        end
  end.

(** [decodeURIComponent(s)]; [None] when it throws URIError. *)
Definition decodeURIComponent (s : string) : option string :=
  tokens s ≫= decode.

(** The double quote character, code 34. *)
Definition dquote : ascii := ascii_of_N 34.

(** [s.replace(/[...]/g, '')] with the class of the single and the double
    quote. *)
Fixpoint strip_quotes (s : string) : string :=
  match s with
  | EmptyString => EmptyString
  | String c r =>
      if Ascii.eqb c "'" || Ascii.eqb c dquote
      then strip_quotes r else String c (strip_quotes r)
  end.

End Js.

(** ** What yt-dlp reports ([youtubedl(url, {dumpJson: true})]) *)

Module YtDlp.

(** One entry of [result.formats]. The fields [tbr], [abr], [fps] and
    [duration] are fractional numbers that the services only copy into the
    descriptor; no operation below reads them and they are left out. *)
Record format : Type := {
  format_id : Js.value;
  quality : Js.value;
  height : Js.value;
  width : Js.value;
  ext : Js.value;
  vcodec : Js.value;
  acodec : Js.value;
  filesize : Js.value;
  url : Js.value
}.

Record info : Type := {
  id : Js.value;
  title : Js.value;
  formats : list format
}.

End YtDlp.

(** ** The HTTP response object [res] *)

Module Http.

Inductive Body : Type :=
| Json (error : string)                        (* res.json({ error }) *)
| JsonFormats (error : string) (availableFormats : list Js.value)
| JsonMessage (message : string)               (* res.json({ message }) *)
| Text (s : string).                           (* res.send(s) *)

Record Res : Type := {
  statusCode : Z;
  headers : gmap string string;
  headersSent : bool;
  ended : bool;                 (* res.end() was called, also by json and send *)
  destroyed : bool;             (* the response is closed: the socket is gone *)
  queued : Z;                   (* bytes written that the socket has not taken yet *)
  writableHighWaterMark : Z;    (* the queue from which on res.write returns false *)
  written : list Byte.byte;     (* payload accepted by res.write / pipe *)
  errored : bool;               (* 'error' was emitted on the response *)
  body : option Body
}.

(** The default of [writableHighWaterMark]: 16 KiB (64 KiB from Node 22
    on). *)
Definition highWaterMark : Z := 16384.

Definition fresh : Res :=
  {| statusCode := 200; headers := ∅; headersSent := false; ended := false;
     destroyed := false; queued := 0; writableHighWaterMark := highWaterMark;
     written := []; errored := false; body := None |}.

(** [res.writable]: set when the response is created and never cleared,
    neither by [res.end()] nor when the socket closes. *)
Definition writable (r : Res) : bool := true.

(** [res.setHeader(k, v)] / [res.header(k, v)] *)
Definition setHeader (k v : string) (r : Res) : Res :=
  {| statusCode := statusCode r; headers := <[k := v]> (headers r);
     headersSent := headersSent r; ended := ended r; destroyed := destroyed r;
     queued := queued r; writableHighWaterMark := writableHighWaterMark r;
     written := written r; errored := errored r; body := body r |}.

(** [res.status(n).json(b)] and [res.status(n).send(b)]: the head and the
    body go out and the response is finished. *)
Definition reply (n : Z) (b : Body) (r : Res) : Res :=
  {| statusCode := n; headers := headers r; headersSent := true; ended := true;
     destroyed := destroyed r; queued := queued r;
     writableHighWaterMark := writableHighWaterMark r;
     written := written r; errored := errored r; body := Some b |}.

(** [res.write(chunk)]. On an open response the first write flushes the
    head, and the chunk is queued for the socket. After [res.end()] the
    chunk is refused and ERR_STREAM_WRITE_AFTER_END is emitted as an
    ['error'] on the response; once the response is closed the chunk is
    dropped without an event. *)
Definition write (chunk : list Byte.byte) (r : Res) : Res :=
  if destroyed r then r
  else if ended r then
    {| statusCode := statusCode r; headers := headers r;
       headersSent := headersSent r; ended := ended r; destroyed := destroyed r;
       queued := queued r; writableHighWaterMark := writableHighWaterMark r;
       written := written r; errored := true; body := body r |}
  else
    {| statusCode := statusCode r; headers := headers r; headersSent := true;
       ended := ended r; destroyed := destroyed r;
       queued := queued r + Z.of_nat (length chunk);
       writableHighWaterMark := writableHighWaterMark r;
       written := written r ++ chunk; errored := errored r; body := body r |}.

(** [res.end()]; a second call does nothing. *)
Definition end_ (r : Res) : Res :=
  if ended r then r
  else
    {| statusCode := statusCode r; headers := headers r; headersSent := true;
       ended := true; destroyed := destroyed r; queued := queued r;
       writableHighWaterMark := writableHighWaterMark r;
       written := written r; errored := errored r; body := body r |}.

(** The response is closed: the client's socket went away, or the socket
    was detached from the response that has finished. *)
Definition destroy (r : Res) : Res :=
  {| statusCode := statusCode r; headers := headers r;
     headersSent := headersSent r; ended := ended r; destroyed := true;
     queued := queued r; writableHighWaterMark := writableHighWaterMark r;
     written := written r; errored := errored r; body := body r |}.

(** The socket has taken all that was queued: ['drain']. *)
Definition drain (r : Res) : Res :=
  {| statusCode := statusCode r; headers := headers r;
     headersSent := headersSent r; ended := ended r; destroyed := destroyed r;
     queued := 0; writableHighWaterMark := writableHighWaterMark r;
     written := written r; errored := errored r; body := body r |}.

(** What the handlers ask of the outside world, in the order asked. *)
Inductive Effect : Type :=
| Resolve (url : string)                (* youtubedl(url, {dumpJson}) *)
| HttpGet (secure : bool) (url : string) (* https.get / http.get *)
| Spawn (url : string) (itag : string)  (* youtubedl.raw(url, {format}) *)
| Kill.                                 (* childProcess.kill('SIGTERM') *)

(** What happens on a connection once bytes flow. *)
Inductive StreamEvent : Type :=
| Data (chunk : list Byte.byte)   (* 'data' on the upstream / on stdout *)
| End                             (* 'end' on the upstream / on stdout *)
| SocketClosed                    (* 'close' on the response: the socket is gone *)
| Drain.                          (* the client has taken what was queued *)

(** The value of the Content-Disposition header of the relays. *)
Definition attachment (safeFilename : string) : string :=
  "attachment; filename=" ++ String Js.dquote safeFilename ++
  String Js.dquote "; filename*=UTF-8''" ++ safeFilename.

End Http.

(** ** The direct relay (src/index.js first service, src/unnamed/part_000) *)

Module Direct.
Import Http.

(** The format descriptor built by [getVideoInfo] ([directUrl] repeats
    [url]; [bitrate], [fps], [approxDurationMs] and [filesizeFormatted]
    are copies of fractional numbers and are left out). *)
Record Format : Type := {
  itag : Js.value;
  quality : Js.value;
  container : Js.value;
  hasVideo : bool;
  hasAudio : bool;
  videoCodec : Js.value;
  audioCodec : Js.value;
  filesize : Js.value;
  url : Js.value
}.

Record VideoInfo : Type := {
  videoId : Js.value;
  title : Js.value;
  formats : list Format
}.

(** [format => format.url && (format.vcodec !== 'none' || format.acodec !== 'none')] *)
Definition keep (format : YtDlp.format) : bool :=
  Js.truthy (YtDlp.url format) &&
  (negb (Js.strict_eq (YtDlp.vcodec format) (Js.Str "none")) ||
   negb (Js.strict_eq (YtDlp.acodec format) (Js.Str "none"))).

(** The object literal of the [.map] callback. *)
Definition describe (format : YtDlp.format) : Format :=
  {| itag := YtDlp.format_id format;
     quality :=
       Js.or (YtDlp.quality format)
         (if Js.truthy (YtDlp.height format)
          then Js.concat (YtDlp.height format) (Js.Str "p")
          else if Js.truthy (YtDlp.width format)
          then Js.concat (Js.concat (YtDlp.width format) (Js.Str "x"))
                 (YtDlp.height format)
          else Js.Str "unknown");
     container := YtDlp.ext format;
     hasVideo := negb (Js.strict_eq (YtDlp.vcodec format) (Js.Str "none"));
     hasAudio := negb (Js.strict_eq (YtDlp.acodec format) (Js.Str "none"));
     videoCodec := YtDlp.vcodec format;
     audioCodec := YtDlp.acodec format;
     filesize := YtDlp.filesize format;
     url := YtDlp.url format |}.

(** [parseInt(f.quality) || 0] *)
Definition numericQuality (f : Format) : Z :=
  Js.or_zero (Js.parseInt (quality f)).

(** The comparator [(a, b) => bHeight - aHeight]. *)
Definition compare (a b : Format) : Z := numericQuality b - numericQuality a.

(** [Array.prototype.sort(cmp)]: a stable sort; [a] stays before [b]
    unless [cmp a b > 0]. *)
Fixpoint insert {A : Type} (cmp : A -> A -> Z) (x : A) (l : list A) : list A :=
  match l with
  | [] => [x]
  | y :: l' => if cmp x y <=? 0 then x :: y :: l' else y :: insert cmp x l'
  end.

Definition sort {A : Type} (cmp : A -> A -> Z) (l : list A) : list A :=
  fold_right (insert cmp) [] l.

(** [getVideoInfo], after yt-dlp has answered with [result]. *)
Definition getVideoInfo (result : YtDlp.info) : VideoInfo :=
  {| videoId := YtDlp.id result;
     title := YtDlp.title result;
     formats :=
       sort compare (map describe (List.filter keep (YtDlp.formats result))) |}.

(** [sanitizeFilename]: the characters of the class (angle brackets,
    colon, double quote, slash, backslash, bar, question mark, star) become
    [_], every run of white space becomes one [_], and the first 100 units
    are kept. *)
Definition forbidden (c : ascii) : bool :=
  Ascii.eqb c Js.dquote ||
  existsb (Ascii.eqb c) ["<"; ">"; ":"; "/"; "\"; "|"; "?"; "*"]%char.

Fixpoint replace_forbidden (s : string) : string :=
  match s with
  | EmptyString => EmptyString
  | String c r => String (if forbidden c then "_"%char else c) (replace_forbidden r)
  end.

Fixpoint replace_spaces (in_run : bool) (s : string) : string :=
  match s with
  | EmptyString => EmptyString
  | String c r =>
      if Js.is_space c
      then (if in_run then replace_spaces true r
            else String "_" (replace_spaces true r))
      else String c (replace_spaces false r)
  end.

Definition sanitizeFilename (filename : string) : string :=
  String.substring 0 100 (replace_spaces false (replace_forbidden filename)).

(** Lines 128-140 of the handler: the format the download uses.
    [quality] is the query parameter. *)
Definition selectFormat (quality : option string) (formats : list Format)
  : option Format :=
  let selectedFormat :=
    match quality with
    | Some q =>
        if Js.param_truthy quality
        then List.find (fun f => Js.strict_eq (itag f) (Js.Str q) ||
                                 Js.strict_eq (Direct.quality f) (Js.Str q))
                       formats
        else None
    | None => None
    end in
  match selectedFormat with
  | Some f => Some f
  | None =>
      match List.find (fun f => hasVideo f && hasAudio f) formats with
      | Some f => Some f
      | None => head formats
      end
  end.

(** What [client.get(url, ...)] leads to. *)
Inductive Upstream : Type :=
| InvalidUrl       (* client.get throws: nothing is sent *)
| ConnectError     (* 'error' on the request, before any response *)
| Response (statusCode : Z) (content_type content_length : option string)
           (events : list StreamEvent).

Record World : Type := {
  youtubedl : string -> option YtDlp.info;  (* [None]: the promise rejects *)
  get : string -> Upstream
}.

(** The outcome of one request. *)
Record Run : Type := {
  effects : list Effect;
  downloadedBytes : Z;
  res : Res
}.

(** [response.pipe(res)] lets the upstream flow while the response is open
    and its queue is below the high-water mark: it pauses the upstream when
    [res.write] returns false and resumes it at ['drain'], and it unpipes
    and pauses it when the response closes. *)
Definition flowing (res : Res) : bool :=
  negb (ended res) && negb (destroyed res) &&
  (queued res <? writableHighWaterMark res).

(** [response.on('data', ...)], [response.on('end', ...)] and
    [response.pipe(res)]: a chunk is counted and handed to the response as
    it arrives, and the response is ended with the upstream. An upstream
    that does not flow emits neither ['data'] nor ['end']: such an event is
    no step. *)
Definition on_event (ev : StreamEvent) (st : Z * Res) : Z * Res :=
  let '(downloadedBytes, res) := st in
  match ev with
  | Data chunk =>
      if flowing res
      then (downloadedBytes + Z.of_nat (length chunk), write chunk res)
      else (downloadedBytes, res)
  | End => if flowing res then (downloadedBytes, end_ res) else (downloadedBytes, res)
  | SocketClosed => (downloadedBytes, destroy res)
  | Drain => (downloadedBytes, drain res)
  end.

Definition pipe (events : list StreamEvent) (st : Z * Res) : Z * Res :=
  fold_left (fun st ev => on_event ev st) events st.

(** The callback of [client.get]. *)
Definition on_response (statusCode : Z) (content_type content_length : option string)
    (events : list StreamEvent) (res : Res) : Z * Res :=
  if 400 <=? statusCode
  then (0, reply 500 (Text "YouTube rejected the download request") res)
  else
    let res :=
      match content_type with
      | Some v => if Js.param_truthy content_type
                  then setHeader "Content-Type" v res else res
      | None => res
      end in
    let res :=
      match content_length with
      | Some v => if Js.param_truthy content_length
                  then setHeader "Content-Length" v res else res
      | None => res
      end in
    pipe events (0, res).

(** The second half of the handler, from "Default filename if still not
    set" on; [done] are the effects so far. *)
Definition relay (w : World) (done : list Effect) (url : string)
    (filename : option string) : Run :=
  let filename :=
    match filename with
    | Some f => if Js.param_truthy filename then f else "download.mp4"
    | None => "download.mp4"
    end in
  let safeFilename := Js.strip_quotes (Js.encodeURIComponent filename) in
  let res :=
    setHeader "Expires" "0"
      (setHeader "Pragma" "no-cache"
        (setHeader "Cache-Control" "no-cache, no-store, must-revalidate"
          (setHeader "Content-Type" "application/octet-stream"
            (setHeader "Content-Disposition" (attachment safeFilename) fresh)))) in
  let secure := Js.startsWith "https" url in
  match get w url with
  | InvalidUrl =>
      {| effects := done; downloadedBytes := 0;
         res := reply 500 (Json "Download error: Invalid URL") res |}
  | ConnectError =>
      {| effects := done ++ [HttpGet secure url]; downloadedBytes := 0;
         res := reply 500 (Text "Download stream error") res |}
  | Response statusCode content_type content_length events =>
      let '(n, res) := on_response statusCode content_type content_length events res in
      {| effects := done ++ [HttpGet secure url]; downloadedBytes := n; res := res |}
  end.

(** The YouTube branch: either the reply that ends the request, or the
    direct URL and the filename to go on with. *)
Definition resolveYoutube (w : World) (url : string)
    (filename quality : option string) : Res + string * option string :=
  match youtubedl w url with
  | None => inl (reply 500 (Json "Failed to get video information") fresh)
  | Some result =>
      let videoInfo := getVideoInfo result in
      match selectFormat quality (formats videoInfo) with
      | None => inl (reply 404 (Json "No downloadable format found") fresh)
      | Some selectedFormat =>
          if negb (Js.truthy (Direct.url selectedFormat))
          then inl (reply 404 (Json "No downloadable format found") fresh)
          else
            let filename' :=
              if Js.param_truthy filename then Some filename
              else
                match title videoInfo with
                | Js.Str t =>
                    Some (Some (sanitizeFilename t ++ "." ++
                      Js.to_string (Js.or (container selectedFormat) (Js.Str "mp4")))%string)
                | _ => None     (* filename.replace throws *)
                end in
            match filename', Direct.url selectedFormat with
            | Some filename, Js.Str url => inr (url, filename)
            | _, _ => inl (reply 500 (Json "Failed to get video information") fresh)
            end
      end
  end.

(** [app.get("/api/video/download", ...)] with
    [let { url, filename, quality } = req.query]. *)
Definition download (w : World) (url filename quality : option string) : Run :=
  match url with
  | Some encoded =>
      if negb (Js.param_truthy url)
      then {| effects := []; downloadedBytes := 0;
              res := reply 400 (Json "Missing URL") fresh |}
      else
        match Js.decodeURIComponent encoded with
        | None =>
            {| effects := []; downloadedBytes := 0;
               res := reply 500 (Json "Download error: URI malformed") fresh |}
        | Some url =>
            if Js.includes "youtube.com" url || Js.includes "youtu.be" url
            then
              match resolveYoutube w url filename quality with
              | inl res =>
                  {| effects := [Resolve url]; downloadedBytes := 0; res := res |}
              | inr (url', filename) => relay w [Resolve url] url' filename
              end
            else relay w [] url filename
        end
  | None =>
      {| effects := []; downloadedBytes := 0;
         res := reply 400 (Json "Missing URL") fresh |}
  end.

End Direct.

(** ** The tracked yt-dlp download (src/index.js, second service) *)

Module Tracked.
Import Http.

Inductive Status : Type := starting | downloading | cancelled.

(** A value of the [activeDownloads] map. [progress] and [speed] come out
    of floating-point divisions and are left out. *)
Record Entry : Type := {
  videoId : string;
  startedAt : Z;
  status : Status;
  title : option Js.value;
  totalSize : option Js.value;
  format : option Js.value;
  entry_downloadedBytes : option Z
}.

Record World : Type := {
  now : Z;                                           (* Date.now() *)
  searchParam_v : string -> option (option string);  (* new URL(u).searchParams.get('v'); [None]: new URL throws *)
  youtubedl : string -> option YtDlp.info            (* [None]: the promise rejects *)
}.

Inductive Phase : Type :=
| Awaiting (videoUrl itag : string) (filename : option string)
                 (* suspended at [await youtubedl(videoUrl, ...)] *)
| Streaming      (* the listeners are registered *)
| Returned.      (* the handler has replied and registered nothing *)

(** The shared table together with the variables the handler's closures
    share: [downloadId], [childProcess] (its [killed] flag),
    [progressInterval], [downloadedBytes], [res], and the pending
    [setTimeout(() => activeDownloads.delete(downloadId), 5000)]. *)
Record State : Type := {
  activeDownloads : gmap string Entry;
  phase : Phase;
  downloadId : option string;
  childProcess : option bool;
  progressInterval : bool;
  downloadedBytes : Z;
  res : Res;
  timers : nat;
  effects : list Effect
}.

(** A request that reads the same [Date.now()] gets the same key, and the
    two downloads write one entry. The arrival of such a request is
    [start] on the table as it is; what its handler and its listeners do
    to the entry later, each time to the entry that is there: *)
Inductive Shared : Type :=
| OtherDownloading (title totalSize format : Js.value)
                       (* its update of the tracker after its [await] *)
| OtherProgress (n : Z)     (* its progress interval *)
| OtherCancelled            (* its req 'close' listener *)
| OtherDeleted.             (* its [activeDownloads.delete(downloadId)] *)

Inductive Event : Type :=
| Resolved                      (* the awaited yt-dlp metadata call settles *)
| Stream (e : StreamEvent)      (* stdout 'data' / 'end'; the socket closes *)
| ProcClose (code : option Z)   (* childProcess 'close'; [None] is null *)
| ProcError                     (* childProcess 'error' *)
| ReqClose                      (* req 'close' *)
| ReqTimeout                    (* req 'timeout' *)
| Tick                          (* the progress interval fires *)
| GraceElapsed                  (* a 5000 ms timer fires *)
| CancelRequest (id : string)   (* DELETE /api/downloads/:id arrives *)
| Other (op : Shared).          (* a download with the same key writes the entry *)

Definition set_table (t : gmap string Entry) (s : State) : State :=
  {| activeDownloads := t; phase := phase s; downloadId := downloadId s;
     childProcess := childProcess s; progressInterval := progressInterval s;
     downloadedBytes := downloadedBytes s; res := res s; timers := timers s;
     effects := effects s |}.

Definition set_phase (p : Phase) (s : State) : State :=
  {| activeDownloads := activeDownloads s; phase := p; downloadId := downloadId s;
     childProcess := childProcess s; progressInterval := progressInterval s;
     downloadedBytes := downloadedBytes s; res := res s; timers := timers s;
     effects := effects s |}.

Definition set_res (r : Res) (s : State) : State :=
  {| activeDownloads := activeDownloads s; phase := phase s; downloadId := downloadId s;
     childProcess := childProcess s; progressInterval := progressInterval s;
     downloadedBytes := downloadedBytes s; res := r; timers := timers s;
     effects := effects s |}.

Definition set_timers (n : nat) (s : State) : State :=
  {| activeDownloads := activeDownloads s; phase := phase s; downloadId := downloadId s;
     childProcess := childProcess s; progressInterval := progressInterval s;
     downloadedBytes := downloadedBytes s; res := res s; timers := n;
     effects := effects s |}.

Definition add_bytes (n : Z) (s : State) : State :=
  {| activeDownloads := activeDownloads s; phase := phase s; downloadId := downloadId s;
     childProcess := childProcess s; progressInterval := progressInterval s;
     downloadedBytes := downloadedBytes s + n; res := res s; timers := timers s;
     effects := effects s |}.

(** [clearInterval(progressInterval)] *)
Definition clearInterval (s : State) : State :=
  {| activeDownloads := activeDownloads s; phase := phase s; downloadId := downloadId s;
     childProcess := childProcess s; progressInterval := false;
     downloadedBytes := downloadedBytes s; res := res s; timers := timers s;
     effects := effects s |}.

(** [if (childProcess && !childProcess.killed) childProcess.kill('SIGTERM')] *)
Definition kill (s : State) : State :=
  match childProcess s with
  | Some false =>
      {| activeDownloads := activeDownloads s; phase := phase s;
         downloadId := downloadId s; childProcess := Some true;
         progressInterval := progressInterval s;
         downloadedBytes := downloadedBytes s; res := res s; timers := timers s;
         effects := effects s ++ [Kill] |}
  | _ => s
  end.

(** [childProcess = youtubedl.raw(videoUrl, { format: itag, ... })] and the
    arming of the progress interval. *)
Definition spawn (videoUrl itag : string) (interval : bool) (s : State) : State :=
  {| activeDownloads := activeDownloads s; phase := Streaming;
     downloadId := downloadId s; childProcess := Some false;
     progressInterval := interval;
     downloadedBytes := downloadedBytes s; res := res s; timers := timers s;
     effects := effects s ++ [Spawn videoUrl itag] |}.

(** [activeDownloads.delete(downloadId)] *)
Definition forget (s : State) : State :=
  match downloadId s with
  | Some id => set_table (delete id (activeDownloads s)) s
  | None => s
  end.

(** [if (!res.headersSent) res.status(500).json({ error })] *)
Definition fail (error : string) (s : State) : State :=
  if headersSent (res s) then s else set_res (reply 500 (Json error) (res s)) s.

(** The [catch] block of the handler; the message of the caught error
    follows the prefix. *)
Definition catch (s : State) : State :=
  set_phase Returned (fail "Download failed: " (kill (forget (clearInterval s)))).

(** [filename.replace(/[^a-z0-9]/gi, '_').toLowerCase()] *)
Fixpoint sanitizeFilename (filename : string) : string :=
  match filename with
  | EmptyString => EmptyString
  | String c r =>
      let n := N_of_ascii (Js.lower c) in
      String (if (((48 <=? n) && (n <=? 57)) || ((97 <=? n) && (n <=? 122)))%N
              then Js.lower c else "_"%char)
             (sanitizeFilename r)
  end.

(** The handler up to [await youtubedl(videoUrl, ...)], entered with the
    table as the other requests left it. *)
Definition start (w : World) (table : gmap string Entry)
    (videoUrl itag filename : option string) : State :=
  let s0 :=
    {| activeDownloads := table; phase := Returned; downloadId := None;
       childProcess := None; progressInterval := false; downloadedBytes := 0;
       res := fresh; timers := 0; effects := [] |} in
  match videoUrl, itag with
  | Some u, Some i =>
      if negb (Js.param_truthy videoUrl) || negb (Js.param_truthy itag)
      then set_res (reply 400 (Json "Video URL and format itag are required") fresh) s0
      else
        let id := Js.to_string (Js.Num (now w)) in
        let s1 :=
          {| activeDownloads := table; phase := Returned; downloadId := Some id;
             childProcess := None; progressInterval := false; downloadedBytes := 0;
             res := fresh; timers := 0; effects := [] |} in
        match searchParam_v w u with
        | None => catch s1
        | Some v =>
            let entry :=
              {| videoId := if Js.param_truthy v then default EmptyString v
                            else Js.last_segment EmptyString u;
                 startedAt := now w; status := starting; title := None;
                 totalSize := None; format := None;
                 entry_downloadedBytes := None |} in
            {| activeDownloads := <[id := entry]> table; phase := Awaiting u i filename;
               downloadId := Some id; childProcess := None;
               progressInterval := false; downloadedBytes := 0; res := fresh;
               timers := 0; effects := [Resolve u] |}
        end
  | _, _ => set_res (reply 400 (Json "Video URL and format itag are required") fresh) s0
  end.

(** The handler from the [await] to its last line. *)
Definition resume (w : World) (videoUrl itag : string) (filename : option string)
    (s : State) : State :=
  match youtubedl w videoUrl, downloadId s with
  | Some videoInfo, Some id =>
      match List.find (fun f => Js.strict_eq (YtDlp.format_id f) (Js.Str itag))
                      (YtDlp.formats videoInfo) with
      | None =>
          set_phase Returned
            (set_res (reply 400 (JsonFormats "Requested format not available"
                                   (map YtDlp.format_id (YtDlp.formats videoInfo)))
                            (res s))
               (forget s))
      | Some format =>
          let name :=
            if Js.param_truthy filename then filename
            else match YtDlp.title videoInfo with
                 | Js.Str t => Some (sanitizeFilename t)
                 | _ => None      (* filename.replace throws *)
                 end in
          match name with
          | None => catch s
          | Some downloadFilename =>
              let extension := Js.to_string (Js.or (YtDlp.ext format) (Js.Str "mp4")) in
              let downloadFilename :=
                (if Js.endsWith ("." ++ extension) downloadFilename
                 then downloadFilename
                 else downloadFilename ++ "." ++ extension)%string in
              let s :=
                set_res
                  (setHeader "Content-Type" "application/octet-stream"
                    (setHeader "Content-Disposition"
                       ("attachment; filename=" ++ String Js.dquote downloadFilename
                          ++ String Js.dquote EmptyString)%string
                       (res s))) s in
              match activeDownloads s !! id with
              | None => catch s   (* activeDownloads.get(downloadId) is undefined *)
              | Some e =>
                  let e' :=
                    {| videoId := videoId e; startedAt := startedAt e;
                       status := downloading;
                       title := Some (YtDlp.title videoInfo);
                       totalSize := Some (YtDlp.filesize format);
                       format := Some (YtDlp.format_id format);
                       entry_downloadedBytes := entry_downloadedBytes e |} in
                  spawn videoUrl itag (Js.truthy (YtDlp.filesize format))
                    (set_table (<[id := e']> (activeDownloads s)) s)
              end
          end
      end
  | _, _ => catch s
  end.

(** [activeDownloads.get(downloadId).status = 'cancelled'] *)
Definition mark_cancelled (e : Entry) : Entry :=
  {| videoId := videoId e; startedAt := startedAt e; status := cancelled;
     title := title e; totalSize := totalSize e; format := format e;
     entry_downloadedBytes := entry_downloadedBytes e |}.

(** [activeDownloads.get(downloadId).downloadedBytes = downloadedBytes] *)
Definition mark_progress (n : Z) (e : Entry) : Entry :=
  {| videoId := videoId e; startedAt := startedAt e; status := status e;
     title := title e; totalSize := totalSize e; format := format e;
     entry_downloadedBytes := Some n |}.

(** The listeners registered by the handler. *)
Definition listener (ev : Event) (s : State) : State :=
  match ev with
  | Stream (Data chunk) =>
      let s := add_bytes (Z.of_nat (length chunk)) s in
      if writable (res s) then set_res (write chunk (res s)) s else s
  | Stream End =>
      let s := clearInterval s in
      forget (if writable (res s) then set_res (end_ (res s)) s else s)
  | ProcClose code =>
      let s := forget (clearInterval s) in
      match code with
      | Some 0 => s
      | _ => fail "Download failed with code" s
      end
  | ProcError => fail "Download process error: " (forget (clearInterval s))
  | ReqClose =>
      let s := kill (clearInterval s) in
      match downloadId s with
      | Some id =>
          match activeDownloads s !! id with
          | Some e =>
              set_timers (S (timers s))
                (set_table (<[id := mark_cancelled e]> (activeDownloads s)) s)
          | None => s
          end
      | None => s
      end
  | ReqTimeout => kill (clearInterval s)
  | Tick =>
      if progressInterval s then
        match downloadId s with
        | Some id =>
            match activeDownloads s !! id with
            | Some e =>
                set_table (<[id := mark_progress (downloadedBytes s) e]>
                             (activeDownloads s)) s
            | None => s
            end
        | None => s
        end
      else s
  | _ => s
  end.

(** [app.delete('/api/downloads/:id', ...)]: the table afterwards and the
    reply to the caller. *)
Definition cancelDownload (id : string) (table : gmap string Entry)
  : gmap string Entry * Res :=
  match table !! id with
  | Some _ => (delete id table, reply 200 (JsonMessage "Download cancelled") fresh)
  | None => (table, reply 404 (Json "Download not found") fresh)
  end.

(** What a write of the other download makes of the entry; [None]: the
    entry is deleted. *)
Definition shared_write (op : Shared) (e : Entry) : option Entry :=
  match op with
  | OtherDownloading title totalSize format =>
      Some {| videoId := videoId e; startedAt := startedAt e;
              status := downloading; title := Some title;
              totalSize := Some totalSize; format := Some format;
              entry_downloadedBytes := entry_downloadedBytes e |}
  | OtherProgress n => Some (mark_progress n e)
  | OtherCancelled => Some (mark_cancelled e)
  | OtherDeleted => None
  end.

(** One event of the event loop, seen from one download request. *)
Definition step (w : World) (ev : Event) (s : State) : State :=
  match ev with
  | CancelRequest id => set_table (fst (cancelDownload id (activeDownloads s))) s
  | Other op =>
      match downloadId s with
      | Some id =>
          match activeDownloads s !! id with
          | Some e =>
              match shared_write op e with
              | Some e' => set_table (<[id := e']> (activeDownloads s)) s
              | None => set_table (delete id (activeDownloads s)) s
              end
          | None => s
          end
      | None => s
      end
  | Stream SocketClosed => set_res (destroy (res s)) s
  | Stream Drain => set_res (drain (res s)) s
  | GraceElapsed =>
      match timers s with
      | S n => set_timers n (forget s)
      | O => s
      end
  | _ =>
      match phase s with
      | Awaiting videoUrl itag filename =>
          match ev with
          | Resolved => resume w videoUrl itag filename s
          | _ => s
          end
      | Streaming => listener ev s
      | Returned => s
      end
  end.

Definition run (w : World) (evs : list Event) (s : State) : State :=
  fold_left (fun s ev => step w ev s) evs s.

End Tracked.

(** ** The untracked yt-dlp download (src/unnamed/part_001) *)

Module Streamed.
Import Http.

Record World : Type := {
  validateURL : string -> bool;               (* ytdl.validateURL *)
  youtubedl : string -> option YtDlp.info     (* [None]: the promise rejects *)
}.

Inductive Phase : Type :=
| Streaming      (* the listeners are registered *)
| Returned.      (* the handler has replied and registered nothing *)

Record State : Type := {
  phase : Phase;
  childProcess : option bool;     (* the child's [killed] flag *)
  downloadedBytes : Z;
  res : Res;
  effects : list Effect
}.

Inductive Event : Type :=
| Stream (e : StreamEvent)
| ProcClose (code : option Z)
| ProcError
| ReqClose.

Definition set_res (r : Res) (s : State) : State :=
  {| phase := phase s; childProcess := childProcess s;
     downloadedBytes := downloadedBytes s; res := r; effects := effects s |}.

Definition returned (effects : list Effect) (r : Res) : State :=
  {| phase := Returned; childProcess := None; downloadedBytes := 0;
     res := r; effects := effects |}.

(** The same three steps as in [Direct.sanitizeFilename], 200 units kept. *)
Definition sanitizeFilename (filename : string) : string :=
  String.substring 0 200
    (Direct.replace_spaces false (Direct.replace_forbidden filename)).

(** The chain of [format.ext === ...] tests. *)
Definition contentType (ext : Js.value) : string :=
  if Js.strict_eq ext (Js.Str "mp4") then "video/mp4"
  else if Js.strict_eq ext (Js.Str "webm") then "video/webm"
  else if Js.strict_eq ext (Js.Str "mp3") then "audio/mpeg"
  else if Js.strict_eq ext (Js.Str "m4a") then "audio/mp4"
  else "application/octet-stream".

(** The handler up to the registration of its listeners. *)
Definition start (w : World) (videoUrl itag filename : option string) : State :=
  match videoUrl, itag with
  | Some u, Some i =>
      if negb (Js.param_truthy videoUrl) || negb (Js.param_truthy itag)
      then returned [] (reply 400 (Json "Video URL and format itag are required") fresh)
      else if negb (validateURL w u)
      then returned [] (reply 400 (Json "Invalid YouTube URL") fresh)
      else
        match youtubedl w u with
        | None => returned [Resolve u] (reply 500 (Json "Download failed: ") fresh)
        | Some videoInfo =>
            match List.find (fun f => Js.strict_eq (YtDlp.format_id f) (Js.Str i))
                            (YtDlp.formats videoInfo) with
            | None =>
                returned [Resolve u]
                  (reply 400 (JsonFormats "Requested format not available"
                                (map YtDlp.format_id (YtDlp.formats videoInfo)))
                         fresh)
            | Some format =>
                let name :=
                  if Js.param_truthy filename then filename
                  else match YtDlp.title videoInfo with
                       | Js.Str t => Some (sanitizeFilename t)
                       | _ => None      (* filename.replace throws *)
                       end in
                match name with
                | None => returned [Resolve u] (reply 500 (Json "Download failed: ") fresh)
                | Some downloadFilename =>
                    let extension :=
                      Js.to_string (Js.or (YtDlp.ext format) (Js.Str "mp4")) in
                    let downloadFilename :=
                      (if Js.endsWith ("." ++ extension) (Js.toLowerCase downloadFilename)
                       then downloadFilename
                       else downloadFilename ++ "." ++ extension)%string in
                    let safeFilename :=
                      Js.strip_quotes (Js.encodeURIComponent downloadFilename) in
                    let res :=
                      setHeader "Content-Type" (contentType (YtDlp.ext format))
                        (setHeader "Content-Disposition" (attachment safeFilename) fresh) in
                    let res :=
                      if Js.truthy (YtDlp.filesize format)
                      then setHeader "Content-Length"
                             (Js.to_string (YtDlp.filesize format)) res
                      else res in
                    {| phase := Streaming; childProcess := Some false;
                       downloadedBytes := 0; res := res;
                       effects := [Resolve u; Spawn u i] |}
                end
            end
        end
  | _, _ => returned [] (reply 400 (Json "Video URL and format itag are required") fresh)
  end.

(** The listeners registered by the handler. *)
Definition listener (ev : Event) (s : State) : State :=
  match ev with
  | Stream (Data chunk) =>
      let s :=
        {| phase := phase s; childProcess := childProcess s;
           downloadedBytes := downloadedBytes s + Z.of_nat (length chunk);
           res := res s; effects := effects s |} in
      if writable (res s) then set_res (write chunk (res s)) s else s
  | Stream End => set_res (end_ (res s)) s
  | Stream SocketClosed => s
  | Stream Drain => s
  | ProcError =>
      if headersSent (res s) then set_res (end_ (res s)) s
      else set_res (reply 500 (Json "Download process error: ") (res s)) s
  | ProcClose code =>
      match code with
      | Some 0 => s
      | _ => if headersSent (res s) then s
             else set_res (reply 500 (Json "Download failed with exit code") (res s)) s
      end
  | ReqClose =>
      match childProcess s with
      | Some false =>
          {| phase := phase s; childProcess := Some true;
             downloadedBytes := downloadedBytes s; res := res s;
             effects := effects s ++ [Kill] |}
      | _ => s
      end
  end.

Definition step (ev : Event) (s : State) : State :=
  match ev with
  | Stream SocketClosed => set_res (destroy (res s)) s
  | Stream Drain => set_res (drain (res s)) s
  | _ =>
      match phase s with
      | Streaming => listener ev s
      | Returned => s
      end
  end.

Definition run (evs : list Event) (s : State) : State :=
  fold_left (fun s ev => step ev s) evs s.

End Streamed.

(** ** The metadata endpoint (POST /api/video/info, in every service) *)

Module Info.

Record World : Type := {
  validateURL : Js.value -> bool;              (* ytdl.validateURL *)
  youtubedl : Js.value -> option YtDlp.info    (* [None]: the promise rejects *)
}.

Inductive Json : Type :=
| VideoInfo (videoInfo : Direct.VideoInfo)     (* res.json(videoInfo) *)
| Error (error : string).                      (* res.json({ error }) *)

Record Run : Type := {
  resolved : list Js.value;   (* the arguments [getVideoInfo] was called with *)
  statusCode : Z;
  json : Json
}.

(** The handler, with [const { videoUrl } = req.body]; the message of the
    error thrown by [getVideoInfo] follows its prefix. *)
Definition info (w : World) (videoUrl : Js.value) : Run :=
  if negb (Js.truthy videoUrl)
  then {| resolved := []; statusCode := 400;
          json := Error "Video URL is required" |}
  else if negb (validateURL w videoUrl)
  then {| resolved := []; statusCode := 400;
          json := Error "Invalid YouTube URL" |}
  else
    match youtubedl w videoUrl with
    | Some result =>
        {| resolved := [videoUrl]; statusCode := 200;
           json := VideoInfo (Direct.getVideoInfo result) |}
    | None =>
        {| resolved := [videoUrl]; statusCode := 500;
           json := Error "Failed to get video info: " |}
    end.

End Info.

(** ** The results page (POST /process, src/unnamed/part_000) *)

Module Process.

(** [s.padStart(targetLength, c)] with a pad string of one unit. *)
Fixpoint pad (n : nat) (c : ascii) (s : string) : string :=
  match n with
  | O => s
  | S n' => String c (pad n' c s)
  end.

Definition padStart (targetLength : nat) (c : ascii) (s : string) : string :=
  pad (targetLength - String.length s) c s.

(** The template literal of [videoInfo.durationFormatted]:
    [Math.floor(duration / 60)], a colon, and
    [(duration % 60).toString().padStart(2, '0')]. *)
Definition durationFormatted (duration : Z) : string :=
  (Js.to_string (Js.Num (duration / 60)) ++ ":" ++
   padStart 2 "0" (Js.to_string (Js.Num (Z.rem duration 60))))%string.

End Process.

(** ** The health endpoint (GET /api/health) *)

Module Health.

(** The field [activeDownloads: activeDownloads.size] of the reply. *)
Definition activeDownloads (table : gmap string Tracked.Entry) : nat :=
  size table.

End Health.

(** ** Sample manifests and worlds *)

Module Sample.

Definition fmt (format_id : string) (height : Z) (vcodec acodec url : string)
  : YtDlp.format :=
  {| YtDlp.format_id := Js.Str format_id; YtDlp.quality := Js.Undefined;
     YtDlp.height := Js.Num height; YtDlp.width := Js.Undefined;
     YtDlp.ext := Js.Str "mp4"; YtDlp.vcodec := Js.Str vcodec;
     YtDlp.acodec := Js.Str acodec; YtDlp.filesize := Js.Num 1000;
     YtDlp.url := Js.Str url |}.

(** A YouTube-like manifest, lowest resolution first. *)
Definition manifest : YtDlp.info :=
  {| YtDlp.id := Js.Str "abc123"; YtDlp.title := Js.Str "A clip";
     YtDlp.formats :=
       [fmt "18" 360 "avc1" "mp4a" "https://cdn.example/18";
        fmt "137" 1080 "avc1" "none" "https://cdn.example/137"] |}.

(** A manifest of an extractor that names its progressive formats after
    their height: an HLS and an HTTP rendition of the same 720p video. *)
Definition renditions : YtDlp.info :=
  {| YtDlp.id := Js.Str "abc123"; YtDlp.title := Js.Str "A clip";
     YtDlp.formats :=
       [fmt "hls-720p" 720 "avc1" "mp4a" "https://cdn.example/hls/720.m3u8";
        fmt "720p" 720 "avc1" "mp4a" "https://cdn.example/720.mp4"] |}.

(** Two chunks of payload. *)
Definition clip : list Http.StreamEvent :=
  [Http.Data [Byte.x01; Byte.x02]; Http.Data [Byte.x03]].

(** A chunk of 16 KiB, and five of them in a row: 81920 bytes. *)
Definition block : list Byte.byte := repeat Byte.x00 (Z.to_nat 16384).

Definition burst : list Http.StreamEvent :=
  [Http.Data block; Http.Data block; Http.Data block; Http.Data block;
   Http.Data block].

Definition watch : string := "https://www.youtube.com/watch?v=abc123".

(** The direct relay facing an upstream that serves [clip]. *)
Definition direct_world : Direct.World :=
  {| Direct.youtubedl := fun _ => Some manifest;
     Direct.get := fun _ =>
       Direct.Response 200 (Some "video/mp4") (Some "3") (clip ++ [Http.End]) |}.

(** yt-dlp finds no format at all. *)
Definition bare_world : Direct.World :=
  {| Direct.youtubedl := fun _ =>
       Some {| YtDlp.id := Js.Str "abc123"; YtDlp.title := Js.Str "A clip";
               YtDlp.formats := [] |};
     Direct.get := Direct.get direct_world |}.

(** yt-dlp fails. *)
Definition failing_world : Direct.World :=
  {| Direct.youtubedl := fun _ => None; Direct.get := Direct.get direct_world |}.

(** The upstream refuses the request. *)
Definition rejecting_world : Direct.World :=
  {| Direct.youtubedl := Direct.youtubedl direct_world;
     Direct.get := fun _ => Direct.Response 403 None None [] |}.


Definition tracked_world : Tracked.World :=
  {| Tracked.now := 1700000000000;
     Tracked.searchParam_v := fun _ => Some (Some "abc123");
     Tracked.youtubedl := fun _ => Some manifest |}.

(** A tracked download of format 18, suspended at the metadata call. *)
Definition tracked_awaiting : Tracked.State :=
  Tracked.start tracked_world ∅ (Some watch) (Some "18") None.

(** The same download once yt-dlp has been spawned. *)
Definition tracked_streaming : Tracked.State :=
  Tracked.step tracked_world Tracked.Resolved tracked_awaiting.

Definition streamed_world : Streamed.World :=
  {| Streamed.validateURL := fun _ => true;
     Streamed.youtubedl := fun _ => Some manifest |}.

Definition streamed_streaming : Streamed.State :=
  Streamed.start streamed_world (Some watch) (Some "18") None.

(** A table that holds the entry of an earlier download. *)
Definition busy_table : gmap string Tracked.Entry :=
  {[ "1600000000000" :=
       {| Tracked.videoId := "xyz789"; Tracked.startedAt := 1600000000000;
          Tracked.status := Tracked.downloading;
          Tracked.title := Some (Js.Str "Another clip");
          Tracked.totalSize := Some (Js.Num 5000);
          Tracked.format := Some (Js.Str "22");
          Tracked.entry_downloadedBytes := Some 1200 |} ]}.

End Sample.

(** ** Notions the statements below are worded with *)

Module Spec.
Import Direct.

(** The selection chain as the specification words it: the identifier
    first, then the quality label, then the first format with both tracks,
    then the first format. *)
Definition identifier_first (quality : option string) (formats : list Format)
  : option Format :=
  let fallback :=
    match List.find (fun f => hasVideo f && hasAudio f) formats with
    | Some f => Some f
    | None => head formats
    end in
  match quality with
  | Some q =>
      if Js.param_truthy quality then
        match List.find (fun f => Js.strict_eq (itag f) (Js.Str q)) formats with
        | Some f => Some f
        | None =>
            match List.find (fun f => Js.strict_eq (Direct.quality f) (Js.Str q))
                            formats with
            | Some f => Some f
            | None => fallback
            end
        end
      else fallback
  | None => fallback
  end.

(** A quality selector is supplied: the parameter is present and not empty. *)
Definition supplied (quality : option string) (q : string) : Prop :=
  quality = Some q /\ q <> EmptyString.

(** The selector names the format: by its identifier or by its label. *)
Definition names (q : string) (f : Format) : Prop :=
  itag f = Js.Str q \/ Direct.quality f = Js.Str q.

Definition both_tracks (f : Format) : Prop :=
  hasVideo f = true /\ hasAudio f = true.

(** [x] is the first element of [l] with property [P]. *)
Definition first_such {A : Type} (P : A -> Prop) (l : list A) (x : A) : Prop :=
  exists l1 l2, l = l1 ++ x :: l2 /\ P x /\ Forall (fun y => ~ P y) l1.

(** The comparator that orders by a numeric key, largest first, and the
    lists it leaves in order. *)
Definition by_key {A : Type} (key : A -> Z) (a b : A) : Z := key b - key a.

Definition descending {A : Type} (key : A -> Z) : list A -> Prop :=
  StronglySorted (fun a b => key b <= key a).

(** A source URL the relay can use. *)
Definition usable (f : Format) : Prop :=
  Js.truthy (url f) = true /\ url f <> Js.Str EmptyString.

(** The bytes of the ['data'] events of a stream, in order. *)
Fixpoint payload (events : list Http.StreamEvent) : list Byte.byte :=
  match events with
  | [] => []
  | Http.Data chunk :: r => chunk ++ payload r
  | _ :: r => payload r
  end.

(** The head of the response as [relay] prepares it. *)
Definition prepared (filename : option string) : Http.Res :=
  Http.setHeader "Expires" "0"
    (Http.setHeader "Pragma" "no-cache"
      (Http.setHeader "Cache-Control" "no-cache, no-store, must-revalidate"
        (Http.setHeader "Content-Type" "application/octet-stream"
          (Http.setHeader "Content-Disposition"
             (Http.attachment
                (Js.strip_quotes (Js.encodeURIComponent
                   match filename with
                   | Some f => if Js.param_truthy filename then f else "download.mp4"
                   | None => "download.mp4"
                   end)))
             Http.fresh)))).

(** What the child's stdout delivers among the events of a download. *)
Definition tracked_stdout (evs : list Tracked.Event) : list Http.StreamEvent :=
  omap (fun ev => match ev with Tracked.Stream e => Some e | _ => None end) evs.

Definition streamed_stdout (evs : list Streamed.Event) : list Http.StreamEvent :=
  omap (fun ev => match ev with Streamed.Stream e => Some e | _ => None end) evs.

(** The status of a download as the table shows it; [None]: no entry. *)
Definition observed (s : Tracked.State) : option Tracked.Status :=
  match Tracked.downloadId s with
  | Some id => Tracked.status <$> Tracked.activeDownloads s !! id
  | None => None
  end.

(** The download is under way: it has an entry that is not cancelled. *)
Definition live (o : option Tracked.Status) : bool :=
  match o with
  | Some Tracked.starting | Some Tracked.downloading => true
  | _ => false
  end.

(** The three terminal states of the specification. *)
Inductive Terminal : Type := complete | failed | cancelled.

(** The terminal state an event brings about when it ends a live download. *)
Definition terminal_of (ev : Tracked.Event) : Terminal :=
  match ev with
  | Tracked.Stream Http.End | Tracked.ProcClose (Some 0) => complete
  | Tracked.ReqClose | Tracked.CancelRequest _ | Tracked.GraceElapsed => cancelled
  | _ => failed
  end.

(** The terminal transitions of a run: the steps that take the download
    from live to not live, each with its terminal state. *)
Fixpoint terminal_transitions (w : Tracked.World) (evs : list Tracked.Event)
    (s : Tracked.State) : list Terminal :=
  match evs with
  | [] => []
  | ev :: evs' =>
      let s' := Tracked.step w ev s in
      (if live (observed s) && negb (live (observed s'))
       then [terminal_of ev] else [])
      ++ terminal_transitions w evs' s'
  end.

(** [r'] is [r] with other Content-Disposition and Content-Type headers. *)
Definition same_but_head (r r' : Http.Res) : Prop :=
  Http.statusCode r' = Http.statusCode r /\
  Http.headersSent r' = Http.headersSent r /\
  Http.ended r' = Http.ended r /\
  Http.destroyed r' = Http.destroyed r /\
  Http.queued r' = Http.queued r /\
  Http.writableHighWaterMark r' = Http.writableHighWaterMark r /\
  Http.written r' = Http.written r /\
  Http.errored r' = Http.errored r /\
  Http.body r' = Http.body r /\
  Http.headers r' !! "Content-Length" = Http.headers r !! "Content-Length".

(** While the handler is suspended at the metadata call, its entry is not
    cancelled. *)
Definition suspended_uncancelled (s : Tracked.State) : Prop :=
  match Tracked.phase s with
  | Tracked.Awaiting _ _ _ => observed s <> Some Tracked.cancelled
  | _ => True
  end.

End Spec.

(** ** Notions for the properties of the helpers and of the event loop *)

Module Obs.

(** Every unit of the string is in the class. *)
Fixpoint all_chars (p : ascii -> bool) (s : string) : bool :=
  match s with
  | EmptyString => true
  | String c r => p c && all_chars p r
  end.

(** A unit of the ASCII range. *)
Definition ascii7 (c : ascii) : bool := (N_of_ascii c <? 128)%N.

(** Neither in the class that [sanitizeFilename] replaces nor white space. *)
Definition clean (c : ascii) : bool :=
  negb (Direct.forbidden c) && negb (Js.is_space c).

(** A lower-case letter, a digit or the underscore. *)
Definition slug (c : ascii) : bool :=
  let n := N_of_ascii c in
  (((48 <=? n) && (n <=? 57)) || ((97 <=? n) && (n <=? 122)) || (n =? 95))%N.

(** What [encodeURIComponent] leaves or writes, without the single quote:
    letters, digits, the marks [-_.!~*()] and the percent sign. *)
Definition header_safe (c : ascii) : bool :=
  (Js.unreserved c && negb (Ascii.eqb c "'")) || Ascii.eqb c "%".

(** The string goes on with a decimal digit. *)
Definition digit_led (s : string) : bool :=
  match s with
  | String c _ => match Js.digit_val c with Some d => d <? 10 | None => false end
  | EmptyString => false
  end.

(** The string goes on with the [x] of a hexadecimal prefix. *)
Definition hex_led (s : string) : bool :=
  match s with
  | String c _ => Ascii.eqb c "x" || Ascii.eqb c "X"
  | EmptyString => false
  end.

(** The decoded URL is one that the url/quality handler resolves. *)
Definition youtube (url : string) : bool :=
  Js.includes "youtube.com" url || Js.includes "youtu.be" url.

(** The event is a DELETE /api/downloads/:id for this identifier. *)
Definition cancels (id : string) (ev : Tracked.Event) : bool :=
  match ev with
  | Tracked.CancelRequest id' => String.eqb id' id
  | _ => false
  end.

(** The event is this download's own or a cancel request, not a write of
    another download that shares the key. *)
Definition own (ev : Tracked.Event) : bool :=
  match ev with
  | Tracked.Other _ => false
  | _ => true
  end.

(** The response is open: not ended, and the client is there. *)
Definition open (r : Http.Res) : bool :=
  negb (Http.ended r) && negb (Http.destroyed r).

(** The event belongs to a transfer under way: a chunk arrives or the
    client has taken what was queued. *)
Definition feeds (e : Http.StreamEvent) : bool :=
  match e with
  | Http.Data _ | Http.Drain => true
  | _ => false
  end.

(** No chunk of the events has more than [m] bytes. *)
Definition chunks_within (m : Z) (events : list Http.StreamEvent) : Prop :=
  Forall (fun e => match e with
                   | Http.Data chunk => Z.of_nat (length chunk) <= m
                   | _ => True
                   end) events.

(** A transfer to a client that keeps up: it takes every chunk before the
    next one arrives. *)
Definition paced (chunks : list (list Byte.byte)) : list Http.StreamEvent :=
  flat_map (fun chunk => [Http.Data chunk; Http.Drain]) chunks.

(** The response tells one story: until it is ended, and whenever payload
    has been written, the status is 200 and there is no error body; payload
    goes out only after the head; and a write is refused only after the
    end. *)
Definition consistent (r : Http.Res) : Prop :=
  (Http.ended r = false ->
   Http.statusCode r = 200 /\ Http.body r = None) /\
  (Http.written r <> [] ->
   Http.statusCode r = 200 /\ Http.body r = None /\ Http.headersSent r = true) /\
  (Http.statusCode r = 200 \/ Http.statusCode r = 400 \/ Http.statusCode r = 500) /\
  (Http.errored r = true -> Http.ended r = true).

(** The requests a tracked download has made so far, with the state of
    its child: nothing yet; the metadata call for [u]; then the spawn of
    yt-dlp for [u] and [i]; then its kill. *)
Definition tracked_idle (s : Tracked.State) : Prop :=
  Tracked.effects s = [] /\ Tracked.childProcess s = None /\
  forall u i f, Tracked.phase s <> Tracked.Awaiting u i f.

Definition tracked_trace (u i : string) (s : Tracked.State) : Prop :=
  (Tracked.effects s = [Http.Resolve u] /\ Tracked.childProcess s = None /\
   forall u' i' f, Tracked.phase s = Tracked.Awaiting u' i' f -> u' = u /\ i' = i) \/
  ((forall u' i' f, Tracked.phase s <> Tracked.Awaiting u' i' f) /\
   (Tracked.effects s = [Http.Resolve u; Http.Spawn u i] /\
      Tracked.childProcess s = Some false \/
    Tracked.effects s = [Http.Resolve u; Http.Spawn u i; Http.Kill] /\
      Tracked.childProcess s = Some true)).

End Obs.

(** ** Metadata resolution: the format list *)

Section Sorting.
Context {A : Type} (key : A -> Z).

Lemma insert_In (x y : A) (l : list A) :
  In y (Direct.insert (Spec.by_key key) x l) <-> y = x \/ In y l.
Proof.
  induction l as [|z l IH]; simpl.
  - intuition.
  - destruct (Spec.by_key key x z <=? 0); simpl; [intuition|].
    rewrite IH. intuition.
Qed.

Lemma sort_In (y : A) (l : list A) :
  In y (Direct.sort (Spec.by_key key) l) <-> In y l.
Proof.
  induction l as [|x l IH]; simpl; [reflexivity|].
  rewrite insert_In, IH. intuition.
Qed.

Lemma insert_descending (x : A) (l : list A) :
  Spec.descending key l ->
  Spec.descending key (Direct.insert (Spec.by_key key) x l).
Proof.
  unfold Spec.descending, Spec.by_key.
  induction 1 as [|z l Hl IH Hz]; simpl.
  - repeat constructor.
  - destruct (key z - key x <=? 0) eqn:E.
    + apply Z.leb_le in E. constructor; [constructor; assumption|].
      constructor; [lia|].
      rewrite List.Forall_forall in Hz |- *. intros y Hy.
      specialize (Hz y Hy). lia.
    + apply Z.leb_gt in E. constructor; [assumption|].
      rewrite List.Forall_forall in Hz |- *. intros y Hy.
      apply insert_In in Hy as [-> | Hy]; [lia | auto].
Qed.

Lemma sort_descending (l : list A) :
  Spec.descending key (Direct.sort (Spec.by_key key) l).
Proof.
  induction l as [|x l IH]; simpl.
  - constructor.
  - apply insert_descending, IH.
Qed.

Lemma descending_lookup (l : list A) (i j : nat) (a b : A) :
  Spec.descending key l -> (i < j)%nat -> l !! i = Some a -> l !! j = Some b ->
  key b <= key a.
Proof.
  unfold Spec.descending. intros Hl. revert i j.
  induction Hl as [|z l Hl IH Hz]; intros i j Hij Hi Hj.
  - discriminate.
  - destruct i as [|i], j as [|j]; simpl in *; try lia.
    + injection Hi as ->. rewrite List.Forall_forall in Hz. apply Hz.
      eapply list_elem_of_In, list_elem_of_lookup; eauto.
    + apply (IH i j); [lia | assumption | assumption].
Qed.

End Sorting.

Lemma strict_eq_Str (v : Js.value) (q : string) :
  Js.strict_eq v (Js.Str q) = true <-> v = Js.Str q.
Proof.
  destruct v; simpl; try (split; [discriminate | intros [=]]).
  rewrite String.eqb_eq. split; [intros -> | intros [= ->]]; reflexivity.
Qed.

Lemma param_truthy_supplied (quality : option string) :
  Js.param_truthy quality = true <-> exists q, Spec.supplied quality q.
Proof.
  unfold Spec.supplied. destruct quality as [q|]; simpl.
  - rewrite negb_true_iff. split.
    + intros H. exists q. split; [reflexivity|].
      intros ->. discriminate.
    + intros (q' & [= <-] & Hq). now apply String.eqb_neq.
  - split; [discriminate | intros (q' & [=] & _)].
Qed.

Section Find.
Context {A : Type} (p : A -> bool) (P : A -> Prop).
Hypothesis reflect : forall x, p x = true <-> P x.

Lemma find_first_such (l : list A) (x : A) :
  List.find p l = Some x <-> Spec.first_such P l x.
Proof.
  unfold Spec.first_such. induction l as [|y l IH]; simpl.
  - split; [discriminate|]. intros (l1 & l2 & H & _). now destruct l1.
  - destruct (p y) eqn:E.
    + split.
      * intros [= ->]. exists [], l. repeat split; [now apply reflect | constructor].
      * intros (l1 & l2 & H & Hx & Hl1). destruct l1 as [|z l1].
        -- now injection H as ->.
        -- injection H as -> _. apply Forall_inv in Hl1.
           apply reflect in E. contradiction.
    + rewrite IH. split.
      * intros (l1 & l2 & -> & Hx & Hl1). exists (y :: l1), l2.
        repeat split; [assumption|]. constructor; [|assumption].
        intros HP. apply reflect in HP. congruence.
      * intros (l1 & l2 & H & Hx & Hl1). destruct l1 as [|z l1].
        -- injection H as -> _. apply reflect in Hx. congruence.
        -- injection H as -> ->. apply Forall_inv_tail in Hl1. eauto.
Qed.

Lemma find_none_Forall (l : list A) :
  List.find p l = None <-> Forall (fun y => ~ P y) l.
Proof.
  induction l as [|y l IH]; simpl.
  - split; [constructor | reflexivity].
  - destruct (p y) eqn:E.
    + split; [discriminate|]. intros H. apply Forall_inv in H.
      apply reflect in E. contradiction.
    + rewrite IH. split.
      * intros H. constructor; [|assumption]. intros HP.
        apply reflect in HP. congruence.
      * apply Forall_inv_tail.
  Qed.

End Find.

Lemma names_reflect (q : string) (f : Direct.Format) :
  Js.strict_eq (Direct.itag f) (Js.Str q) ||
  Js.strict_eq (Direct.quality f) (Js.Str q) = true <-> Spec.names q f.
Proof. unfold Spec.names. rewrite orb_true_iff, !strict_eq_Str. reflexivity. Qed.

Lemma both_tracks_reflect (f : Direct.Format) :
  Direct.hasVideo f && Direct.hasAudio f = true <-> Spec.both_tracks f.
Proof. unfold Spec.both_tracks. now rewrite andb_true_iff. Qed.

Lemma head_In {A : Type} (l : list A) (x : A) : head l = Some x -> In x l.
Proof. destruct l; [discriminate | intros [= ->]; now left]. Qed.

Lemma selectFormat_In (quality : option string) (formats : list Direct.Format)
    (f : Direct.Format) :
  Direct.selectFormat quality formats = Some f -> In f formats.
Proof.
  unfold Direct.selectFormat.
  set (wanted := match quality with Some q => _ | None => _ end).
  assert (forall g, wanted = Some g -> In g formats) as Hw.
  { subst wanted. intros g. destruct quality as [q|]; [|discriminate].
    destruct (Js.param_truthy _); [|discriminate].
    intros H. now apply find_some in H. }
  destruct wanted as [g|].
  - intros [= <-]. now apply Hw.
  - destruct (List.find _ formats) eqn:E.
    + intros [= <-]. now apply find_some in E.
    + apply head_In.
Qed.

Lemma selectFormat_None (quality : option string) (formats : list Direct.Format) :
  Direct.selectFormat quality formats = None <-> formats = [].
Proof.
  split.
  - unfold Direct.selectFormat. intros H.
    repeat match type of H with
    | context [match ?x with _ => _ end] => destruct x eqn:?
    end; try discriminate.
    all: now destruct formats.
  - intros ->. unfold Direct.selectFormat.
    destruct quality as [q|]; simpl; [destruct (negb _)|]; reflexivity.
Qed.

Lemma fallback_spec (formats : list Direct.Format) (f : Direct.Format) :
  match List.find (fun f => Direct.hasVideo f && Direct.hasAudio f) formats with
  | Some g => Some g
  | None => head formats
  end = Some f <->
  Spec.first_such Spec.both_tracks formats f \/
  (Forall (fun g => ~ Spec.both_tracks g) formats /\ head formats = Some f).
Proof.
  pose proof (find_first_such _ _ both_tracks_reflect formats) as Hsome.
  pose proof (find_none_Forall _ _ both_tracks_reflect formats) as Hnone.
  destruct (List.find _ formats) as [g|] eqn:E.
  - split.
    + intros [= <-]. left. now apply Hsome.
    + intros [H | [H _]].
      * apply Hsome in H. congruence.
      * apply Hnone in H. discriminate.
  - split.
    + intros H. right. split; [now apply Hnone | assumption].
    + intros [H | [_ H]]; [apply Hsome in H; discriminate | assumption].
Qed.

(** C1 (as amended). Format selection of the url/quality handler: it fails
    exactly on the empty list; when a quality selector is supplied, the
    first format in list order whose identifier or quality label equals the
    selector is chosen; when none is supplied or no format is named by it,
    the first format with both audio and video is chosen, else the first
    format of the list. *)
Theorem selectFormat_chain (quality : option string)
    (formats : list Direct.Format) (f : Direct.Format) :
  (Direct.selectFormat quality formats = None <-> formats = []) /\
  (Direct.selectFormat quality formats = Some f <->
     (exists q, Spec.supplied quality q /\
                Spec.first_such (Spec.names q) formats f) \/
     ((forall q, Spec.supplied quality q ->
                 Forall (fun g => ~ Spec.names q g) formats) /\
      (Spec.first_such Spec.both_tracks formats f \/
       (Forall (fun g => ~ Spec.both_tracks g) formats /\
        head formats = Some f)))).
Proof.
  split; [apply selectFormat_None|].
  unfold Direct.selectFormat.
  pose proof (param_truthy_supplied quality) as Hsup.
  destruct quality as [q|].
  - destruct (Js.param_truthy (Some q)) eqn:Et.
    + assert (Spec.supplied (Some q) q) as Hq.
      { destruct Hsup as [Hsup _]. destruct (Hsup eq_refl) as (q' & Hq' & Hne).
        injection Hq' as <-. split; [reflexivity | assumption]. }
      pose proof (find_first_such _ _ (names_reflect q) formats) as Hsome.
      pose proof (find_none_Forall _ _ (names_reflect q) formats) as Hnone.
      destruct (List.find _ formats) as [g|] eqn:E.
      * split.
        -- intros [= <-]. left. exists q. split; [assumption | now apply Hsome].
        -- intros [(q' & [Hq' _] & Hf) | [Hf _]].
           ++ injection Hq' as <-. apply Hsome in Hf. congruence.
           ++ specialize (Hf q Hq). apply Hnone in Hf. discriminate.
      * rewrite fallback_spec. split.
        -- intros Hf. right. split; [|assumption].
           intros q' [Hq' _]. injection Hq' as <-. now apply Hnone.
        -- intros [(q' & [Hq' _] & Hf) | [_ Hf]]; [|assumption].
           injection Hq' as <-. apply Hsome in Hf. discriminate.
    + rewrite fallback_spec. split.
      * intros H. right. split; [|assumption].
        intros q' Hq'. destruct Hsup as [_ Hsup].
        discriminate (Hsup (ex_intro _ q' Hq')).
      * intros [(q' & Hq' & _) | [_ Hf]]; [|assumption].
        destruct Hsup as [_ Hsup]. discriminate (Hsup (ex_intro _ q' Hq')).
  - rewrite fallback_spec. split.
    + intros Hf. right. split; [|assumption]. intros q' [Hq' _]. discriminate.
    + intros [(q' & [Hq' _] & _) | [_ Hf]]; [discriminate | assumption].
Qed.

(** C1, as the specification words it, fails: with the manifest
    [Sample.renditions] and the selector 720p, the handler takes the first
    format of the list, whose label is 720p, although the second format has
    the identifier 720p. *)
Lemma selectFormat_label_before_identifier :
  let formats := Direct.formats (Direct.getVideoInfo Sample.renditions) in
  formats <> [] /\
  Direct.selectFormat (Some "720p") formats = formats !! 0%nat /\
  Spec.identifier_first (Some "720p") formats = formats !! 1%nat /\
  (Direct.itag <$> formats !! 0%nat) = Some (Js.Str "hls-720p") /\
  (Direct.itag <$> formats !! 1%nat) = Some (Js.Str "720p") /\
  Direct.selectFormat (Some "720p") formats <>
  Spec.identifier_first (Some "720p") formats.
Proof.
  vm_compute. repeat split; try reflexivity; discriminate.
Qed.

(** C8. The format list produced by [getVideoInfo] is sorted by descending
    resolution: for positions [i < j], the number parsed from the quality
    label of entry [i] is at least the one parsed from entry [j]. *)
Theorem getVideoInfo_formats_descending (result : YtDlp.info) (i j : nat)
    (a b : Direct.Format) :
  (i < j)%nat ->
  Direct.formats (Direct.getVideoInfo result) !! i = Some a ->
  Direct.formats (Direct.getVideoInfo result) !! j = Some b ->
  Direct.numericQuality b <= Direct.numericQuality a.
Proof.
  intros Hij Hi Hj.
  exact (descending_lookup Direct.numericQuality _ i j a b
           (sort_descending Direct.numericQuality _) Hij Hi Hj).
Qed.

Lemma getVideoInfo_formats_descending_witness :
  Direct.numericQuality (Direct.describe
    (Sample.fmt "18" 360 "avc1" "mp4a" "https://cdn.example/18")) <=
  Direct.numericQuality (Direct.describe
    (Sample.fmt "137" 1080 "avc1" "none" "https://cdn.example/137")).
Proof.
  apply (getVideoInfo_formats_descending Sample.manifest 0 1).
  - lia.
  - reflexivity.
  - reflexivity.
Defined.

Lemma member_usable (result : YtDlp.info) (f : Direct.Format) :
  In f (Direct.formats (Direct.getVideoInfo result)) ->
  Spec.usable f /\ (Direct.hasVideo f = true \/ Direct.hasAudio f = true).
Proof.
  intros Hf. unfold Direct.getVideoInfo in Hf. simpl in Hf.
  apply (proj1 (sort_In Direct.numericQuality f _)) in Hf.
  apply in_map_iff in Hf as (raw & <- & Hraw).
  apply filter_In in Hraw as [_ Hkeep].
  unfold Direct.keep in Hkeep. apply andb_true_iff in Hkeep as [Hurl Hcodec].
  apply orb_true_iff in Hcodec. unfold Spec.usable. simpl.
  repeat split; [assumption | | assumption].
  intros Heq. rewrite Heq in Hurl. discriminate.
Qed.

(** C9. Every format descriptor returned by [getVideoInfo] has a usable,
    non-empty source URL and at least one of [hasVideo], [hasAudio];
    hence selection over this list either finds a format with a usable
    URL or the list is empty. *)
Theorem getVideoInfo_formats_downloadable (result : YtDlp.info)
    (quality : option string) :
  let formats := Direct.formats (Direct.getVideoInfo result) in
  Forall (fun f => Spec.usable f /\
                   (Direct.hasVideo f = true \/ Direct.hasAudio f = true))
         formats /\
  ((formats = [] /\ Direct.selectFormat quality formats = None) \/
   (exists f, Direct.selectFormat quality formats = Some f /\
              In f formats /\ Spec.usable f)).
Proof.
  intros formats. split.
  - apply List.Forall_forall. intros f Hf. now apply (member_usable result).
  - destruct (Direct.selectFormat quality formats) as [f|] eqn:E.
    + right. exists f. pose proof (selectFormat_In _ _ _ E) as Hin.
      split; [reflexivity|]. split; [assumption|].
      now apply (member_usable result).
    + left. split; [|reflexivity]. now apply selectFormat_None in E.
Qed.
(** ** The relays *)

Lemma payload_app (e1 e2 : list Http.StreamEvent) :
  Spec.payload (e1 ++ e2) = Spec.payload e1 ++ Spec.payload e2.
Proof.
  induction e1 as [|[c| | |] e1 IH]; simpl; try assumption; [reflexivity|].
  now rewrite IH, app_assoc.
Qed.

Lemma payload_data (chunks : list (list Byte.byte)) :
  Spec.payload (map Http.Data chunks) = concat chunks.
Proof. induction chunks as [|c r IH]; simpl; [reflexivity | now rewrite IH]. Qed.

Lemma payload_paced (chunks : list (list Byte.byte)) :
  Spec.payload (Obs.paced chunks) = concat chunks.
Proof. induction chunks as [|c r IH]; simpl; [reflexivity | now rewrite IH]. Qed.

Lemma open_parts (r : Http.Res) :
  Obs.open r = true -> Http.ended r = false /\ Http.destroyed r = false.
Proof.
  unfold Obs.open. destruct (Http.ended r), (Http.destroyed r); simpl;
    intros H; split; congruence.
Qed.

Lemma write_open (chunk : list Byte.byte) (r : Http.Res) :
  Obs.open r = true ->
  Http.write chunk r =
    {| Http.statusCode := Http.statusCode r; Http.headers := Http.headers r;
       Http.headersSent := true; Http.ended := false; Http.destroyed := false;
       Http.queued := Http.queued r + Z.of_nat (length chunk);
       Http.writableHighWaterMark := Http.writableHighWaterMark r;
       Http.written := Http.written r ++ chunk; Http.errored := Http.errored r;
       Http.body := Http.body r |}.
Proof.
  intros H. destruct (open_parts r H) as [He Hd].
  unfold Http.write. now rewrite He, Hd.
Qed.

(** *** [response.pipe(res)] *)

Lemma pipe_cons (ev : Http.StreamEvent) (events : list Http.StreamEvent)
    (st : Z * Http.Res) :
  Direct.pipe (ev :: events) st = Direct.pipe events (Direct.on_event ev st).
Proof. reflexivity. Qed.


Lemma flowing_open (r : Http.Res) :
  Direct.flowing r = true ->
  Obs.open r = true /\ Http.queued r < Http.writableHighWaterMark r.
Proof.
  unfold Direct.flowing, Obs.open. intros H.
  apply andb_true_iff in H as [H Hq]. apply Z.ltb_lt in Hq. auto.
Qed.

(** One event of the piped relay: what is counted is what is written, and
    the queue stays within a chunk of the high-water mark. *)
Lemma on_event_count (ev : Http.StreamEvent) (n : Z) (res : Http.Res) :
  fst (Direct.on_event ev (n, res)) - n =
  Z.of_nat (length (Http.written (snd (Direct.on_event ev (n, res))))) -
  Z.of_nat (length (Http.written res)).
Proof.
  destruct ev as [chunk| | |]; cbn [Direct.on_event].
  - destruct (Direct.flowing res) eqn:E; cbn [fst snd]; [|lia].
    rewrite (write_open chunk res (proj1 (flowing_open res E))).
    cbn [Http.written]. rewrite length_app. lia.
  - destruct (Direct.flowing res) eqn:E; cbn [fst snd]; [|lia].
    destruct (open_parts res (proj1 (flowing_open res E))) as [He _].
    unfold Http.end_. rewrite He. cbn [Http.written]. lia.
  - cbn [fst snd Http.destroy Http.written]. lia.
  - cbn [fst snd Http.drain Http.written]. lia.
Qed.

Lemma on_event_mark (ev : Http.StreamEvent) (n : Z) (res : Http.Res) :
  Http.writableHighWaterMark (snd (Direct.on_event ev (n, res))) =
  Http.writableHighWaterMark res.
Proof.
  destruct ev as [chunk| | |]; cbn [Direct.on_event];
    unfold Http.write, Http.end_;
    repeat match goal with
    | |- context [if ?b then _ else _] => destruct b
    end; reflexivity.
Qed.

Lemma on_event_bounded (ev : Http.StreamEvent) (n m : Z) (res : Http.Res) :
  0 <= m -> 0 < Http.writableHighWaterMark res ->
  match ev with
  | Http.Data chunk => Z.of_nat (length chunk) <= m
  | _ => True
  end ->
  Http.queued res < Http.writableHighWaterMark res + m ->
  Http.queued (snd (Direct.on_event ev (n, res))) <
    Http.writableHighWaterMark res + m.
Proof.
  intros Hm Hpos Hc Hq. destruct ev as [chunk| | |]; cbn [Direct.on_event].
  - destruct (Direct.flowing res) eqn:E; cbn [fst snd]; [|assumption].
    destruct (flowing_open res E) as [Ho Hlt].
    rewrite (write_open chunk res Ho). cbn [Http.queued]. lia.
  - destruct (Direct.flowing res) eqn:E; cbn [fst snd]; [|assumption].
    destruct (open_parts res (proj1 (flowing_open res E))) as [He _].
    unfold Http.end_. rewrite He. cbn [Http.queued]. assumption.
  - cbn [fst snd Http.destroy Http.queued]. assumption.
  - cbn [fst snd Http.drain Http.queued]. lia.
Qed.

Lemma pipe_count (events : list Http.StreamEvent) (n : Z) (res : Http.Res) :
  fst (Direct.pipe events (n, res)) - n =
  Z.of_nat (length (Http.written (snd (Direct.pipe events (n, res))))) -
  Z.of_nat (length (Http.written res)).
Proof.
  revert n res. induction events as [|ev events IH]; intros n res.
  - cbn. lia.
  - rewrite pipe_cons. pose proof (on_event_count ev n res) as H.
    destruct (Direct.on_event ev (n, res)) as [n1 res1].
    specialize (IH n1 res1). cbn [fst snd] in H. lia.
Qed.

Lemma pipe_bounded (events : list Http.StreamEvent) (n m : Z) (res : Http.Res) :
  0 <= m -> 0 < Http.writableHighWaterMark res ->
  Obs.chunks_within m events ->
  Http.queued res < Http.writableHighWaterMark res + m ->
  Http.queued (snd (Direct.pipe events (n, res))) <
    Http.writableHighWaterMark res + m.
Proof.
  intros Hm Hpos Hc. revert n res Hpos.
  induction Hc as [|ev events Hev Hc IH]; intros n res Hpos Hq; [exact Hq|].
  rewrite pipe_cons.
  pose proof (on_event_bounded ev n m res Hm Hpos Hev Hq) as H.
  pose proof (on_event_mark ev n res) as Hk.
  destruct (Direct.on_event ev (n, res)) as [n1 res1]. cbn [snd] in *.
  rewrite <- Hk. apply IH; rewrite Hk; assumption.
Qed.


(** *** The tracked download *)

Ltac crush_step :=
  repeat match goal with
  | |- context [match ?x with _ => _ end] => destruct x eqn:?; simpl in *
  | H : context [match ?x with _ => _ end] |- _ => destruct x eqn:?; simpl in *
  end; try congruence.

Lemma tracked_step_phase (w : Tracked.World) (ev : Tracked.Event)
    (s : Tracked.State) :
  Tracked.phase s = Tracked.Streaming ->
  Tracked.phase (Tracked.step w ev s) = Tracked.Streaming.
Proof.
  intros Hp.
  destruct ev as [|[chunk| | |]|code| | | | | |id|op]; unfold Tracked.step;
    rewrite ?Hp; simpl;
    unfold Tracked.forget, Tracked.fail, Tracked.kill, Tracked.clearInterval;
    simpl; crush_step.
Qed.

Lemma tracked_run_cons (w : Tracked.World) (ev : Tracked.Event)
    (evs : list Tracked.Event) (s : Tracked.State) :
  Tracked.run w (ev :: evs) s = Tracked.run w evs (Tracked.step w ev s).
Proof. reflexivity. Qed.

Lemma tracked_run_app (w : Tracked.World) (e1 e2 : list Tracked.Event)
    (s : Tracked.State) :
  Tracked.run w (e1 ++ e2) s = Tracked.run w e2 (Tracked.run w e1 s).
Proof. apply fold_left_app. Qed.

Lemma tracked_run_phase (w : Tracked.World) (evs : list Tracked.Event)
    (s : Tracked.State) :
  Tracked.phase s = Tracked.Streaming ->
  Tracked.phase (Tracked.run w evs s) = Tracked.Streaming.
Proof.
  revert s. induction evs as [|ev evs IH]; intros s Hp; [assumption|].
  rewrite tracked_run_cons. now apply IH, tracked_step_phase.
Qed.

(** A chunk or a drain on an open response: the chunk is counted and
    written whatever the queue holds. *)
Lemma tracked_feed (w : Tracked.World) (e : Http.StreamEvent) (s : Tracked.State) :
  Tracked.phase s = Tracked.Streaming -> Obs.open (Tracked.res s) = true ->
  Obs.feeds e = true ->
  let s' := Tracked.step w (Tracked.Stream e) s in
  Obs.open (Tracked.res s') = true /\
  Http.written (Tracked.res s') = Http.written (Tracked.res s) ++ Spec.payload [e] /\
  Tracked.downloadedBytes s' =
    Tracked.downloadedBytes s + Z.of_nat (length (Spec.payload [e])) /\
  Http.queued (Tracked.res s') =
    match e with
    | Http.Data chunk => Http.queued (Tracked.res s) + Z.of_nat (length chunk)
    | _ => 0
    end /\
  Http.errored (Tracked.res s') = Http.errored (Tracked.res s).
Proof.
  intros Hp Ho Hf. destruct e as [chunk| | |]; try discriminate; cbn zeta.
  - unfold Tracked.step. rewrite Hp. cbn [Tracked.listener].
    unfold Http.writable, Tracked.add_bytes, Tracked.set_res.
    cbn [Tracked.res Tracked.downloadedBytes].
    rewrite (write_open chunk _ Ho). cbn. rewrite app_nil_r. auto.
  - unfold Tracked.step. cbn. rewrite app_nil_r.
    destruct (open_parts _ Ho) as [He Hd]. unfold Obs.open. cbn.
    rewrite He, Hd. repeat split; auto. lia.
Qed.

Lemma tracked_feeds (w : Tracked.World) (evs : list Http.StreamEvent)
    (s : Tracked.State) :
  Tracked.phase s = Tracked.Streaming -> Obs.open (Tracked.res s) = true ->
  forallb Obs.feeds evs = true ->
  let s' := Tracked.run w (map Tracked.Stream evs) s in
  Tracked.phase s' = Tracked.Streaming /\
  Obs.open (Tracked.res s') = true /\
  Http.written (Tracked.res s') = Http.written (Tracked.res s) ++ Spec.payload evs /\
  Tracked.downloadedBytes s' =
    Tracked.downloadedBytes s + Z.of_nat (length (Spec.payload evs)) /\
  Http.errored (Tracked.res s') = Http.errored (Tracked.res s).
Proof.
  revert s. induction evs as [|e evs IH]; intros s Hp Ho Hf.
  - cbn. rewrite app_nil_r. repeat split; auto. lia.
  - cbn [forallb] in Hf. apply andb_true_iff in Hf as [He Hf].
    cbn [map]. rewrite tracked_run_cons.
    destruct (tracked_feed w e s Hp Ho He) as (Ho1 & Hw1 & Hn1 & _ & He1).
    destruct (IH _ (tracked_step_phase w _ s Hp) Ho1 Hf)
      as (Hp2 & Ho2 & Hw2 & Hn2 & He2).
    cbn zeta. change (e :: evs) with ([e] ++ evs).
    rewrite payload_app, length_app, Hw2, Hn2, He2, Hw1, Hn1, He1, app_assoc.
    repeat split; auto. lia.
Qed.

Lemma tracked_chunks_queue (w : Tracked.World) (chunks : list (list Byte.byte))
    (s : Tracked.State) :
  Tracked.phase s = Tracked.Streaming -> Obs.open (Tracked.res s) = true ->
  Http.queued (Tracked.res
    (Tracked.run w (map Tracked.Stream (map Http.Data chunks)) s)) =
  Http.queued (Tracked.res s) + Z.of_nat (length (concat chunks)).
Proof.
  revert s. induction chunks as [|c chunks IH]; intros s Hp Ho.
  - cbn. lia.
  - cbn [map]. rewrite tracked_run_cons.
    destruct (tracked_feed w (Http.Data c) s Hp Ho eq_refl)
      as (Ho1 & _ & _ & Hq1 & _).
    rewrite (IH _ (tracked_step_phase w _ s Hp) Ho1), Hq1.
    cbn [concat]. rewrite length_app. lia.
Qed.

(** *** The untracked download *)

Lemma streamed_step_phase (ev : Streamed.Event) (s : Streamed.State) :
  Streamed.phase s = Streamed.Streaming ->
  Streamed.phase (Streamed.step ev s) = Streamed.Streaming.
Proof.
  intros Hp. destruct ev as [[chunk| | |]|code| |]; unfold Streamed.step;
    rewrite ?Hp; simpl; crush_step.
Qed.

Lemma streamed_run_cons (ev : Streamed.Event) (evs : list Streamed.Event)
    (s : Streamed.State) :
  Streamed.run (ev :: evs) s = Streamed.run evs (Streamed.step ev s).
Proof. reflexivity. Qed.

Lemma streamed_run_app (e1 e2 : list Streamed.Event) (s : Streamed.State) :
  Streamed.run (e1 ++ e2) s = Streamed.run e2 (Streamed.run e1 s).
Proof. apply fold_left_app. Qed.

Lemma streamed_run_phase (evs : list Streamed.Event) (s : Streamed.State) :
  Streamed.phase s = Streamed.Streaming ->
  Streamed.phase (Streamed.run evs s) = Streamed.Streaming.
Proof.
  revert s. induction evs as [|ev evs IH]; intros s Hp; [assumption|].
  rewrite streamed_run_cons. now apply IH, streamed_step_phase.
Qed.

Lemma streamed_feed (e : Http.StreamEvent) (s : Streamed.State) :
  Streamed.phase s = Streamed.Streaming -> Obs.open (Streamed.res s) = true ->
  Obs.feeds e = true ->
  let s' := Streamed.step (Streamed.Stream e) s in
  Obs.open (Streamed.res s') = true /\
  Http.written (Streamed.res s') =
    Http.written (Streamed.res s) ++ Spec.payload [e] /\
  Streamed.downloadedBytes s' =
    Streamed.downloadedBytes s + Z.of_nat (length (Spec.payload [e])) /\
  Http.queued (Streamed.res s') =
    match e with
    | Http.Data chunk => Http.queued (Streamed.res s) + Z.of_nat (length chunk)
    | _ => 0
    end /\
  Http.errored (Streamed.res s') = Http.errored (Streamed.res s).
Proof.
  intros Hp Ho Hf. destruct e as [chunk| | |]; try discriminate; cbn zeta.
  - unfold Streamed.step. rewrite Hp. cbn [Streamed.listener].
    unfold Http.writable, Streamed.set_res.
    cbn [Streamed.res Streamed.downloadedBytes].
    rewrite (write_open chunk _ Ho). cbn. rewrite app_nil_r. auto.
  - unfold Streamed.step. cbn. rewrite app_nil_r.
    destruct (open_parts _ Ho) as [He Hd]. unfold Obs.open. cbn.
    rewrite He, Hd. repeat split; auto. lia.
Qed.

Lemma streamed_feeds (evs : list Http.StreamEvent) (s : Streamed.State) :
  Streamed.phase s = Streamed.Streaming -> Obs.open (Streamed.res s) = true ->
  forallb Obs.feeds evs = true ->
  let s' := Streamed.run (map Streamed.Stream evs) s in
  Streamed.phase s' = Streamed.Streaming /\
  Obs.open (Streamed.res s') = true /\
  Http.written (Streamed.res s') =
    Http.written (Streamed.res s) ++ Spec.payload evs /\
  Streamed.downloadedBytes s' =
    Streamed.downloadedBytes s + Z.of_nat (length (Spec.payload evs)) /\
  Http.errored (Streamed.res s') = Http.errored (Streamed.res s).
Proof.
  revert s. induction evs as [|e evs IH]; intros s Hp Ho Hf.
  - cbn. rewrite app_nil_r. repeat split; auto. lia.
  - cbn [forallb] in Hf. apply andb_true_iff in Hf as [He Hf].
    cbn [map]. rewrite streamed_run_cons.
    destruct (streamed_feed e s Hp Ho He) as (Ho1 & Hw1 & Hn1 & _ & He1).
    destruct (IH _ (streamed_step_phase _ s Hp) Ho1 Hf)
      as (Hp2 & Ho2 & Hw2 & Hn2 & He2).
    cbn zeta. change (e :: evs) with ([e] ++ evs).
    rewrite payload_app, length_app, Hw2, Hn2, He2, Hw1, Hn1, He1, app_assoc.
    repeat split; auto. lia.
Qed.

Lemma streamed_chunks_queue (chunks : list (list Byte.byte)) (s : Streamed.State) :
  Streamed.phase s = Streamed.Streaming -> Obs.open (Streamed.res s) = true ->
  Http.queued (Streamed.res
    (Streamed.run (map Streamed.Stream (map Http.Data chunks)) s)) =
  Http.queued (Streamed.res s) + Z.of_nat (length (concat chunks)).
Proof.
  revert s. induction chunks as [|c chunks IH]; intros s Hp Ho.
  - cbn. lia.
  - cbn [map]. rewrite streamed_run_cons.
    destruct (streamed_feed (Http.Data c) s Hp Ho eq_refl)
      as (Ho1 & _ & _ & Hq1 & _).
    rewrite (IH _ (streamed_step_phase _ s Hp) Ho1), Hq1.
    cbn [concat]. rewrite length_app. lia.
Qed.

(** C2, at the failing input: yt-dlp delivers five chunks of 16 KiB to a
    client that takes none of them.

    The byte counts of the claim hold on all three relays. The piped relay
    counts exactly the bytes it writes, whatever the events. Both stdout
    relays write every chunk of a transfer to a client that stays
    connected, at whatever pace the client reads, and at the end of the
    stream the bytes written are the bytes read, in number and in order.

    What fails is the bound on memory. [response.pipe(res)] holds the
    upstream back: the queue of the response stays within one chunk of the
    high-water mark. The stdout listeners never look at what [res.write]
    returns: the queue grows by every chunk, so that a client that reads
    nothing has the whole payload queued in the response. In the sample run
    the pipe reads no more than fills the queue to the high-water mark, and
    both stdout relays hold all five chunks. *)
Theorem stdout_relays_queue_whole_payload :
  (forall (events : list Http.StreamEvent) (n : Z) (res : Http.Res),
     fst (Direct.pipe events (n, res)) - n =
     Z.of_nat (length (Http.written (snd (Direct.pipe events (n, res))))) -
     Z.of_nat (length (Http.written res))) /\
  (forall (w : Tracked.World) (evs : list Http.StreamEvent) (s : Tracked.State),
     Tracked.phase s = Tracked.Streaming ->
     Obs.open (Tracked.res s) = true ->
     forallb Obs.feeds evs = true ->
     let s' := Tracked.run w
                 (map Tracked.Stream evs ++ [Tracked.Stream Http.End]) s in
     Http.written (Tracked.res s') =
       Http.written (Tracked.res s) ++ Spec.payload evs /\
     Tracked.downloadedBytes s' =
       Tracked.downloadedBytes s + Z.of_nat (length (Spec.payload evs)) /\
     Http.ended (Tracked.res s') = true /\
     Http.errored (Tracked.res s') = Http.errored (Tracked.res s)) /\
  (forall (evs : list Http.StreamEvent) (s : Streamed.State),
     Streamed.phase s = Streamed.Streaming ->
     Obs.open (Streamed.res s) = true ->
     forallb Obs.feeds evs = true ->
     let s' := Streamed.run
                 (map Streamed.Stream evs ++ [Streamed.Stream Http.End]) s in
     Http.written (Streamed.res s') =
       Http.written (Streamed.res s) ++ Spec.payload evs /\
     Streamed.downloadedBytes s' =
       Streamed.downloadedBytes s + Z.of_nat (length (Spec.payload evs)) /\
     Http.ended (Streamed.res s') = true /\
     Http.errored (Streamed.res s') = Http.errored (Streamed.res s)) /\
  (forall (events : list Http.StreamEvent) (n m : Z) (res : Http.Res),
     0 <= m -> 0 < Http.writableHighWaterMark res ->
     Obs.chunks_within m events ->
     Http.queued res < Http.writableHighWaterMark res + m ->
     Http.queued (snd (Direct.pipe events (n, res))) <
       Http.writableHighWaterMark res + m) /\
  (forall (w : Tracked.World) (chunks : list (list Byte.byte)) (s : Tracked.State),
     Tracked.phase s = Tracked.Streaming ->
     Obs.open (Tracked.res s) = true ->
     Http.queued (Tracked.res
       (Tracked.run w (map Tracked.Stream (map Http.Data chunks)) s)) =
     Http.queued (Tracked.res s) + Z.of_nat (length (concat chunks))) /\
  (forall (chunks : list (list Byte.byte)) (s : Streamed.State),
     Streamed.phase s = Streamed.Streaming ->
     Obs.open (Streamed.res s) = true ->
     Http.queued (Streamed.res
       (Streamed.run (map Streamed.Stream (map Http.Data chunks)) s)) =
     Http.queued (Streamed.res s) + Z.of_nat (length (concat chunks))) /\
  Z.of_nat (length (Spec.payload Sample.burst)) = 81920 /\
  Http.writableHighWaterMark Http.fresh < 81920 /\
  Http.queued (snd (Direct.pipe Sample.burst (0, Http.fresh))) =
    Http.writableHighWaterMark Http.fresh /\
  fst (Direct.pipe Sample.burst (0, Http.fresh)) =
    Http.writableHighWaterMark Http.fresh /\
  Obs.open (Tracked.res Sample.tracked_streaming) = true /\
  Http.queued (Tracked.res
    (Tracked.run Sample.tracked_world (map Tracked.Stream Sample.burst)
       Sample.tracked_streaming)) = 81920 /\
  Obs.open (Streamed.res Sample.streamed_streaming) = true /\
  Http.queued (Streamed.res
    (Streamed.run (map Streamed.Stream Sample.burst)
       Sample.streamed_streaming)) = 81920.
Proof.
  refine (conj _ (conj _ (conj _ (conj _ (conj _ (conj _ _)))))).
  - exact pipe_count.
  - intros w evs s Hp Ho Hf s'. subst s'.
    destruct (tracked_feeds w evs s Hp Ho Hf) as (Hp1 & Ho1 & Hw1 & Hn1 & Hr1).
    rewrite tracked_run_app.
    set (s1 := Tracked.run w (map Tracked.Stream evs) s) in *.
    destruct (open_parts _ Ho1) as [He1 Hd1].
    cbn [Tracked.run fold_left]. unfold Tracked.step. rewrite Hp1.
    cbn [Tracked.listener]. unfold Http.writable, Tracked.forget.
    cbn [Tracked.clearInterval Tracked.set_res Tracked.downloadId Tracked.res].
    unfold Http.end_. rewrite He1.
    destruct (Tracked.downloadId s1); cbn; auto.
  - intros evs s Hp Ho Hf s'. subst s'.
    destruct (streamed_feeds evs s Hp Ho Hf) as (Hp1 & Ho1 & Hw1 & Hn1 & Hr1).
    rewrite streamed_run_app.
    set (s1 := Streamed.run (map Streamed.Stream evs) s) in *.
    destruct (open_parts _ Ho1) as [He1 Hd1].
    cbn [Streamed.run fold_left]. unfold Streamed.step. rewrite Hp1.
    cbn [Streamed.listener Streamed.set_res Streamed.res].
    unfold Http.end_. rewrite He1. cbn. auto.
  - exact pipe_bounded.
  - exact tracked_chunks_queue.
  - exact streamed_chunks_queue.
  - vm_compute. repeat split.
Qed.

(** ** Validation *)

(** C4. A request to the download endpoint without the required URL
    parameter is answered 400 before any upstream work: no metadata
    resolution, no process, no network request, and no table entry. *)
Theorem missing_url_rejected_before_upstream_work (url : option string) :
  Js.param_truthy url = false ->
  (forall (w : Direct.World) (filename quality : option string),
     let r := Direct.download w url filename quality in
     Http.statusCode (Direct.res r) = 400 /\
     Http.body (Direct.res r) = Some (Http.Json "Missing URL") /\
     Direct.effects r = []) /\
  (forall (w : Tracked.World) (table : gmap string Tracked.Entry)
          (itag filename : option string),
     let s := Tracked.start w table url itag filename in
     Http.statusCode (Tracked.res s) = 400 /\
     Tracked.effects s = [] /\
     Tracked.childProcess s = None /\
     Tracked.phase s = Tracked.Returned /\
     Tracked.activeDownloads s = table) /\
  (forall (w : Streamed.World) (itag filename : option string),
     let s := Streamed.start w url itag filename in
     Http.statusCode (Streamed.res s) = 400 /\
     Streamed.effects s = [] /\
     Streamed.childProcess s = None /\
     Streamed.phase s = Streamed.Returned).
Proof.
  intros H. split; [|split].
  - intros w filename quality. unfold Direct.download.
    destruct url as [u|]; [rewrite H|]; simpl; auto.
  - intros w table itag filename. unfold Tracked.start.
    destruct url as [u|], itag as [i|]; rewrite ?H; simpl; auto.
  - intros w itag filename. unfold Streamed.start.
    destruct url as [u|], itag as [i|]; rewrite ?H; simpl; auto.
Qed.

Lemma missing_url_rejected_before_upstream_work_witness :
  Http.statusCode (Direct.res
    (Direct.download Sample.direct_world None None (Some "720p"))) = 400 /\
  Direct.effects (Direct.download Sample.direct_world None None (Some "720p")) = [] /\
  Tracked.effects (Tracked.start Sample.tracked_world ∅ (Some "") (Some "18") None) = [] /\
  Streamed.effects (Streamed.start Sample.streamed_world None (Some "18") None) = [].
Proof.
  destruct (missing_url_rejected_before_upstream_work None eq_refl)
    as (HD & _ & HS).
  destruct (missing_url_rejected_before_upstream_work (Some EmptyString) eq_refl)
    as (_ & HT & _).
  destruct (HD Sample.direct_world None (Some "720p")) as (H1 & _ & H2).
  destruct (HT Sample.tracked_world ∅ (Some "18") None) as (_ & H3 & _).
  destruct (HS Sample.streamed_world (Some "18") None) as (_ & H4 & _).
  repeat split; assumption.
Defined.

(** ** The url/quality handler *)

Lemma on_event_head (ev : Http.StreamEvent) (st : Z * Http.Res) :
  Http.statusCode (snd (Direct.on_event ev st)) = Http.statusCode (snd st) /\
  Http.headers (snd (Direct.on_event ev st)) = Http.headers (snd st).
Proof.
  destruct st as [n res], ev as [chunk| | |]; cbn [Direct.on_event];
    unfold Http.write, Http.end_;
    repeat match goal with
    | |- context [if ?b then _ else _] => destruct b
    end; simpl; auto.
Qed.

Lemma pipe_head (events : list Http.StreamEvent) (st : Z * Http.Res) :
  Http.statusCode (snd (Direct.pipe events st)) = Http.statusCode (snd st) /\
  Http.headers (snd (Direct.pipe events st)) = Http.headers (snd st).
Proof.
  revert st. induction events as [|ev events IH]; intros st; [auto|].
  rewrite pipe_cons. destruct (IH (Direct.on_event ev st)) as [-> ->].
  apply on_event_head.
Qed.

Lemma on_event_body (ev : Http.StreamEvent) (st : Z * Http.Res) :
  Http.body (snd (Direct.on_event ev st)) = Http.body (snd st).
Proof.
  destruct st as [n res], ev as [chunk| | |]; cbn [Direct.on_event];
    unfold Http.write, Http.end_;
    repeat match goal with
    | |- context [if ?b then _ else _] => destruct b
    end; simpl; auto.
Qed.

Lemma pipe_body (events : list Http.StreamEvent) (st : Z * Http.Res) :
  Http.body (snd (Direct.pipe events st)) = Http.body (snd st).
Proof.
  revert st. induction events as [|ev events IH]; intros st; [reflexivity|].
  rewrite pipe_cons, IH. apply on_event_body.
Qed.


Lemma on_response_head (sc : Z) (ct cl : option string)
    (events : list Http.StreamEvent) (res : Http.Res) :
  let res' := snd (Direct.on_response sc ct cl events res) in
  Http.headers res' !! "Content-Disposition" =
    Http.headers res !! "Content-Disposition" /\
  (Http.statusCode res' = 500 /\ 400 <= sc \/
   Http.statusCode res' = Http.statusCode res /\ sc < 400).
Proof.
  unfold Direct.on_response. destruct (400 <=? sc) eqn:E; simpl.
  - apply Z.leb_le in E. auto.
  - apply Z.leb_gt in E.
    match goal with |- context [Direct.pipe events (0, ?r)] =>
      destruct (pipe_head events (0, r)) as [-> ->] end.
    simpl.
    destruct cl as [v|], ct as [v'|]; simpl;
      repeat match goal with
      | |- context [if ?b then _ else _] => destruct b
      end; simpl; rewrite ?lookup_insert_ne by discriminate; auto.
Qed.

Lemma relay_spec (w : Direct.World) (done : list Http.Effect) (url : string)
    (filename : option string) :
  let r := Direct.relay w done url filename in
  Http.headers (Direct.res r) !! "Content-Disposition" =
    Http.headers (Spec.prepared filename) !! "Content-Disposition" /\
  (Direct.effects r = done \/
   Direct.effects r = done ++ [Http.HttpGet (Js.startsWith "https" url) url]) /\
  match Direct.get w url with
  | Direct.InvalidUrl => Http.statusCode (Direct.res r) = 500 /\ Direct.effects r = done
  | Direct.ConnectError => Http.statusCode (Direct.res r) = 500
  | Direct.Response sc ct cl events =>
      Direct.res r = snd (Direct.on_response sc ct cl events (Spec.prepared filename)) /\
      (Http.statusCode (Direct.res r) = 500 /\ 400 <= sc \/
       Http.statusCode (Direct.res r) = 200 /\ sc < 400)
  end.
Proof.
  unfold Direct.relay. fold (Spec.prepared filename).
  destruct (Direct.get w url) as [| |sc ct cl events]; simpl; auto.
  pose proof (on_response_head sc ct cl events (Spec.prepared filename)) as [Hh Hs].
  destruct (Direct.on_response sc ct cl events (Spec.prepared filename)) as [n res'].
  simpl in *. auto.
Qed.

Lemma relay_status (w : Direct.World) (done : list Http.Effect) (url : string)
    (filename : option string) :
  Http.statusCode (Direct.res (Direct.relay w done url filename)) = 200 \/
  Http.statusCode (Direct.res (Direct.relay w done url filename)) = 500.
Proof.
  pose proof (relay_spec w done url filename) as (_ & _ & H).
  destruct (Direct.get w url); intuition.
Qed.

Lemma resolveYoutube_cases (w : Direct.World) (u : string)
    (filename quality : option string) (result : YtDlp.info) :
  Direct.youtubedl w u = Some result ->
  let formats := Direct.formats (Direct.getVideoInfo result) in
  (formats = [] /\
   Direct.resolveYoutube w u filename quality =
     inl (Http.reply 404 (Http.Json "No downloadable format found") Http.fresh)) \/
  (formats <> [] /\
   (Direct.resolveYoutube w u filename quality =
      inl (Http.reply 500 (Http.Json "Failed to get video information") Http.fresh) \/
    exists f url' filename',
      Direct.selectFormat quality formats = Some f /\
      Direct.url f = Js.Str url' /\
      Direct.resolveYoutube w u filename quality = inr (url', filename'))).
Proof.
  intros Hres formats. unfold Direct.resolveYoutube. rewrite Hres.
  fold formats.
  destruct (Direct.selectFormat quality formats) as [f|] eqn:Hsel.
  2: { left. split; [now apply selectFormat_None in Hsel | reflexivity]. }
  pose proof (selectFormat_In _ _ _ Hsel) as Hin.
  destruct (member_usable result f Hin) as [[Hurl _] _].
  right. split; [intros Heq; rewrite Heq in Hin; destruct Hin|].
  rewrite Hurl. simpl.
  destruct (Js.param_truthy filename).
  - destruct (Direct.url f) eqn:Eu; eauto 8.
  - destruct (YtDlp.title result); destruct (Direct.url f) eqn:Eu;
      simpl; eauto 8.
Qed.

Lemma param_truthy_Some (s : string) :
  s <> EmptyString -> Js.param_truthy (Some s) = true.
Proof. intros H. simpl. apply negb_true_iff. now apply String.eqb_neq. Qed.

Lemma download_youtube (w : Direct.World) (encoded u : string)
    (filename quality : option string) :
  encoded <> EmptyString ->
  Js.decodeURIComponent encoded = Some u ->
  Js.includes "youtube.com" u || Js.includes "youtu.be" u = true ->
  Direct.download w (Some encoded) filename quality =
    match Direct.resolveYoutube w u filename quality with
    | inl res =>
        {| Direct.effects := [Http.Resolve u]; Direct.downloadedBytes := 0;
           Direct.res := res |}
    | inr (url', filename') => Direct.relay w [Http.Resolve u] url' filename'
    end.
Proof.
  intros Hne Hdec Hyt. unfold Direct.download.
  now rewrite (param_truthy_Some _ Hne), Hdec, Hyt.
Qed.


Lemma download_cases (w : Direct.World) (url filename quality : option string) :
  let r := Direct.download w url filename quality in
  (forall s t, ~ In (Http.HttpGet s t) (Direct.effects r)) \/
  (exists done target filename',
     (forall s t, ~ In (Http.HttpGet s t) done) /\
     r = Direct.relay w done target filename').
Proof.
  unfold Direct.download.
  destruct url as [encoded|]; [|left; intros s t []].
  destruct (negb _); [left; intros s t []|].
  destruct (Js.decodeURIComponent encoded) as [u|]; [|left; intros s t []].
  destruct (_ || _).
  - destruct (Direct.resolveYoutube w u filename quality) as [res|[u' fn]].
    + left. intros s t [H|[]]. discriminate.
    + right. exists [Http.Resolve u], u', fn. split; [|reflexivity].
      intros s t [H|[]]. discriminate.
  - right. exists [], u, filename. split; [intros s t []|reflexivity].
Qed.

Lemma relay_fetches (w : Direct.World) (done : list Http.Effect)
    (url : string) (filename : option string) (s : bool) (t : string) :
  (forall s t, ~ In (Http.HttpGet s t) done) ->
  In (Http.HttpGet s t) (Direct.effects (Direct.relay w done url filename)) ->
  t = url.
Proof.
  intros Hdone Hin.
  destruct (relay_spec w done url filename) as (_ & [He | He] & _);
    rewrite He in Hin.
  - now apply Hdone in Hin.
  - apply in_app_or in Hin as [Hin | [Hin | []]].
    + now apply Hdone in Hin.
    + now injection Hin.
Qed.

(** C3, as the specification words it, fails: the videoUrl/itag handlers
    answer a request whose itag names no format of the manifest with status
    400, not 404. *)
Lemma unknown_itag_is_answered_400 :
  Forall (fun f => YtDlp.format_id f <> Js.Str "999")
         (YtDlp.formats Sample.manifest) /\
  Http.statusCode (Streamed.res
    (Streamed.start Sample.streamed_world (Some Sample.watch) (Some "999") None))
    = 400 /\
  Http.statusCode (Tracked.res
    (Tracked.run Sample.tracked_world [Tracked.Resolved]
       (Tracked.start Sample.tracked_world ∅ (Some Sample.watch) (Some "999") None)))
    = 400 /\
  400 <> 404.
Proof.
  split; [|vm_compute; repeat split; discriminate].
  repeat constructor; discriminate.
Qed.

(** C3 (as amended). The url/quality handler answers 400 when the url
    parameter is missing; 404 exactly when format selection fails, which on
    the list [getVideoInfo] produces is exactly when that list is empty
    (equivalently: empty, or without an entry with a usable source URL);
    and 500 when metadata resolution fails, when the upstream connection
    fails, or when the upstream answers with a status of 400 or more. The
    videoUrl/itag handlers answer 400 when the requested itag is the
    identifier of no format. *)
Theorem download_status_codes :
  (forall (w : Direct.World) (url filename quality : option string),
     Js.param_truthy url = false ->
     Http.statusCode (Direct.res (Direct.download w url filename quality)) = 400) /\
  (forall (w : Direct.World) (encoded u : string)
          (filename quality : option string) (result : YtDlp.info),
     encoded <> EmptyString ->
     Js.decodeURIComponent encoded = Some u ->
     Js.includes "youtube.com" u || Js.includes "youtu.be" u = true ->
     Direct.youtubedl w u = Some result ->
     let formats := Direct.formats (Direct.getVideoInfo result) in
     let r := Direct.download w (Some encoded) filename quality in
     (Http.statusCode (Direct.res r) = 404 <-> formats = []) /\
     (Http.statusCode (Direct.res r) = 404 <->
        formats = [] \/ Forall (fun f => ~ Spec.usable f) formats)) /\
  (forall (w : Direct.World) (encoded u : string)
          (filename quality : option string),
     encoded <> EmptyString ->
     Js.decodeURIComponent encoded = Some u ->
     Js.includes "youtube.com" u || Js.includes "youtu.be" u = true ->
     Direct.youtubedl w u = None ->
     Http.statusCode (Direct.res (Direct.download w (Some encoded) filename quality))
       = 500) /\
  (forall (w : Direct.World) (url filename quality : option string)
          (secure : bool) (target : string),
     In (Http.HttpGet secure target)
        (Direct.effects (Direct.download w url filename quality)) ->
     (Direct.get w target = Direct.ConnectError \/
      exists sc ct cl events,
        Direct.get w target = Direct.Response sc ct cl events /\ 400 <= sc) ->
     Http.statusCode (Direct.res (Direct.download w url filename quality)) = 500) /\
  (forall (w : Streamed.World) (u i : string) (filename : option string)
          (info : YtDlp.info),
     u <> EmptyString -> i <> EmptyString ->
     Streamed.validateURL w u = true ->
     Streamed.youtubedl w u = Some info ->
     Forall (fun f => YtDlp.format_id f <> Js.Str i) (YtDlp.formats info) ->
     Http.statusCode (Streamed.res (Streamed.start w (Some u) (Some i) filename))
       = 400) /\
  (forall (w : Tracked.World) (table : gmap string Tracked.Entry) (u i : string)
          (filename v : option string) (info : YtDlp.info),
     u <> EmptyString -> i <> EmptyString ->
     Tracked.searchParam_v w u = Some v ->
     Tracked.youtubedl w u = Some info ->
     Forall (fun f => YtDlp.format_id f <> Js.Str i) (YtDlp.formats info) ->
     Http.statusCode (Tracked.res
       (Tracked.run w [Tracked.Resolved]
          (Tracked.start w table (Some u) (Some i) filename))) = 400).
Proof.
  repeat apply conj.
  - intros w url filename quality H. unfold Direct.download.
    destruct url as [u|]; [rewrite H|]; reflexivity.
  - intros w encoded u filename quality result Hne Hdec Hyt Hres formats r.
    assert (Http.statusCode (Direct.res r) = 404 <-> formats = []) as Hiff.
    { subst r. rewrite (download_youtube w encoded u filename quality Hne Hdec Hyt).
      destruct (resolveYoutube_cases w u filename quality result Hres)
        as [[Hnil ->] | [Hcons [-> | (f & u' & fn & _ & _ & ->)]]];
        fold formats in Hnil || fold formats in Hcons; simpl.
      - split; [intros _; assumption | reflexivity].
      - split; [discriminate | intros; contradiction].
      - split; [|intros; contradiction].
        destruct (relay_status w [Http.Resolve u] u' fn) as [-> | ->];
          discriminate. }
    split; [assumption|]. rewrite Hiff. split; [auto|].
    intros [H | H]; [assumption|].
    destruct formats as [|f formats'] eqn:Ef; [reflexivity|].
    apply Forall_inv in H. exfalso. apply H.
    apply (member_usable result). fold formats. rewrite Ef. now left.
  - intros w encoded u filename quality Hne Hdec Hyt Hres.
    rewrite (download_youtube w encoded u filename quality Hne Hdec Hyt).
    unfold Direct.resolveYoutube. now rewrite Hres.
  - intros w url filename quality secure target Hin Hup.
    destruct (download_cases w url filename quality)
      as [Hno | (done & t & fn & Hdone & Heq)].
    + now apply Hno in Hin.
    + rewrite Heq in *.
      apply (relay_fetches w done t fn secure target Hdone) in Hin as ->.
      pose proof (relay_spec w done t fn) as (_ & _ & H).
      destruct Hup as [Hup | (sc & ct & cl & events & Hup & Hsc)];
        rewrite Hup in H; [assumption|].
      destruct H as [_ [[H _] | [_ H]]]; [assumption | lia].
  - intros w u i filename info Hu Hi Hv Hres Hall.
    unfold Streamed.start.
    rewrite (param_truthy_Some _ Hu), (param_truthy_Some _ Hi), Hv, Hres. simpl.
    assert (List.find (fun f => Js.strict_eq (YtDlp.format_id f) (Js.Str i))
              (YtDlp.formats info) = None) as ->; [|reflexivity].
    apply (find_none_Forall _ (fun f => YtDlp.format_id f = Js.Str i));
      [intros f; apply strict_eq_Str | assumption].
  - intros w table u i filename v info Hu Hi Hv Hres Hall.
    unfold Tracked.start.
    rewrite (param_truthy_Some _ Hu), (param_truthy_Some _ Hi), Hv. simpl.
    unfold Tracked.step. simpl. unfold Tracked.resume. simpl. rewrite Hres.
    assert (List.find (fun f => Js.strict_eq (YtDlp.format_id f) (Js.Str i))
              (YtDlp.formats info) = None) as ->; [|reflexivity].
    apply (find_none_Forall _ (fun f => YtDlp.format_id f = Js.Str i));
      [intros f; apply strict_eq_Str | assumption].
Qed.

Lemma download_status_codes_witness :
  Http.statusCode (Direct.res
    (Direct.download Sample.direct_world None None None)) = 400 /\
  (Http.statusCode (Direct.res
     (Direct.download Sample.bare_world (Some Sample.watch) None None)) = 404 <->
   Direct.formats (Direct.getVideoInfo
     {| YtDlp.id := Js.Str "abc123"; YtDlp.title := Js.Str "A clip";
        YtDlp.formats := [] |}) = []) /\
  Http.statusCode (Direct.res
    (Direct.download Sample.failing_world (Some Sample.watch) None None)) = 500 /\
  Http.statusCode (Direct.res
    (Direct.download Sample.rejecting_world (Some Sample.watch) None None)) = 500 /\
  Http.statusCode (Streamed.res
    (Streamed.start Sample.streamed_world (Some Sample.watch) (Some "999") None))
    = 400 /\
  Http.statusCode (Tracked.res
    (Tracked.run Sample.tracked_world [Tracked.Resolved]
       (Tracked.start Sample.tracked_world ∅ (Some Sample.watch) (Some "999") None)))
    = 400.
Proof.
  destruct download_status_codes as (H400 & H404 & Hres & Hup & HS & HT).
  assert (Forall (fun f => YtDlp.format_id f <> Js.Str "999")
            (YtDlp.formats Sample.manifest)) as Hno
    by (repeat constructor; discriminate).
  refine (conj _ (conj _ (conj _ (conj _ (conj _ _))))).
  - apply H400. reflexivity.
  - refine (proj1 (H404 Sample.bare_world Sample.watch Sample.watch None None
                     _ _ eq_refl eq_refl eq_refl)).
    discriminate.
  - apply (Hres Sample.failing_world Sample.watch Sample.watch);
      [discriminate | reflexivity | reflexivity | reflexivity].
  - apply (Hup Sample.rejecting_world (Some Sample.watch) None None
             true "https://cdn.example/18").
    + right. left. reflexivity.
    + right. exists 403, None, None, []. split; [reflexivity | lia].
  - apply (HS Sample.streamed_world Sample.watch "999" None Sample.manifest);
      [discriminate | discriminate | reflexivity | reflexivity | exact Hno].
  - apply (HT Sample.tracked_world ∅ Sample.watch "999" None (Some "abc123")
             Sample.manifest);
      [discriminate | discriminate | reflexivity | reflexivity | exact Hno].
Defined.


Lemma prepared_disposition (filename : option string) :
  Http.headers (Spec.prepared filename) !! "Content-Disposition" =
  Some (Http.attachment (Js.strip_quotes (Js.encodeURIComponent
    match filename with
    | Some f => if Js.param_truthy filename then f else "download.mp4"
    | None => "download.mp4"
    end))).
Proof.
  unfold Spec.prepared, Http.setHeader. simpl.
  rewrite !lookup_insert_ne by discriminate. apply lookup_insert_eq.
Qed.



(** ** The lifecycle of a tracked download *)

Ltac tracked_unfold :=
  unfold Tracked.step, Tracked.listener, Tracked.catch,
    Tracked.spawn, Tracked.cancelDownload, Tracked.forget, Tracked.fail,
    Tracked.kill, Tracked.clearInterval, Tracked.set_timers, Tracked.set_table,
    Tracked.set_res, Tracked.set_phase, Tracked.add_bytes in *.

Lemma write_head (chunk : list Byte.byte) (r : Http.Res) :
  Http.headers (Http.write chunk r) = Http.headers r.
Proof.
  unfold Http.write. destruct (Http.destroyed r), (Http.ended r); reflexivity.
Qed.

Lemma end_head (r : Http.Res) : Http.headers (Http.end_ r) = Http.headers r.
Proof. unfold Http.end_. destruct (Http.ended r); reflexivity. Qed.

Lemma same_but_head_refl (r : Http.Res) : Spec.same_but_head r r.
Proof. repeat split. Qed.

(** The three ways the handler goes on after the metadata call: into its
    [catch] block, into the format-not-found reply, or on to spawn yt-dlp
    with its entry marked as downloading. *)
Lemma resume_cases (w : Tracked.World) (u i : string) (f : option string)
    (s : Tracked.State) :
  (exists r, Spec.same_but_head (Tracked.res s) r /\
     Tracked.resume w u i f s = Tracked.catch (Tracked.set_res r s)) \/
  (exists b,
     Tracked.resume w u i f s =
       Tracked.set_phase Tracked.Returned
         (Tracked.set_res (Http.reply 400 b (Tracked.res s)) (Tracked.forget s))) \/
  (exists id e e' r interval,
     Tracked.downloadId s = Some id /\
     Tracked.activeDownloads s !! id = Some e /\
     Tracked.status e' = Tracked.downloading /\
     Spec.same_but_head (Tracked.res s) r /\
     Tracked.resume w u i f s =
       Tracked.spawn u i interval
         (Tracked.set_table (<[id := e']> (Tracked.activeDownloads s))
            (Tracked.set_res r s))).
Proof.
  unfold Tracked.resume.
  destruct (Tracked.youtubedl w u) as [info|];
    [|left; exists (Tracked.res s); split;
      [apply same_but_head_refl | reflexivity]].
  destruct (Tracked.downloadId s) as [id|] eqn:Hid;
    [|left; exists (Tracked.res s); split;
      [apply same_but_head_refl | reflexivity]].
  destruct (List.find _ (YtDlp.formats info)) as [format|];
    [|right; left; eexists; reflexivity].
  match goal with |- context [match ?n with Some _ => _ | None => _ end] =>
    destruct n as [name|] end;
    [|left; exists (Tracked.res s); split;
      [apply same_but_head_refl | reflexivity]].
  cbv zeta.
  match goal with |- context [Tracked.set_res ?r0 s] => set (r := r0) end.
  assert (Spec.same_but_head (Tracked.res s) r) as Hr.
  { subst r. unfold Spec.same_but_head, Http.setHeader. simpl.
    repeat split. now rewrite !lookup_insert_ne by discriminate. }
  change (Tracked.activeDownloads (Tracked.set_res r s))
    with (Tracked.activeDownloads s).
  destruct (Tracked.activeDownloads s !! id) as [e|] eqn:He.
  - right. right. eexists id, e, _, r, _.
    split; [reflexivity|]. split; [exact He|].
    split; [|split; [exact Hr | reflexivity]]. reflexivity.
  - left. exists r. split; [assumption | reflexivity].
Qed.

Lemma catch_fields (s : Tracked.State) :
  Tracked.downloadId (Tracked.catch s) = Tracked.downloadId s /\
  Tracked.phase (Tracked.catch s) = Tracked.Returned /\
  Tracked.timers (Tracked.catch s) = Tracked.timers s /\
  Spec.observed (Tracked.catch s) = None /\
  Http.headers (Tracked.res (Tracked.catch s)) = Http.headers (Tracked.res s).
Proof.
  unfold Spec.observed. tracked_unfold. simpl.
  destruct (Tracked.downloadId s) as [id|] eqn:Hid; simpl;
    destruct (Tracked.childProcess s) as [[|]|]; simpl;
    destruct (Http.headersSent (Tracked.res s)); simpl; rewrite ?Hid;
    simpl; rewrite ?lookup_delete_eq; auto.
Qed.

(** What one event does to the fields the lifecycle is stated with. *)
Lemma step_fields (w : Tracked.World) (ev : Tracked.Event) (s : Tracked.State) :
  let s' := Tracked.step w ev s in
  Tracked.downloadId s' = Tracked.downloadId s /\
  (Http.headers (Tracked.res s) !! "Content-Length" = None ->
   Http.headers (Tracked.res s') !! "Content-Length" = None) /\
  ((forall u i f, Tracked.phase s' <> Tracked.Awaiting u i f) \/
   Tracked.phase s' = Tracked.phase s) /\
  (Spec.observed s' = None \/
   Spec.observed s' = Spec.observed s /\
     (Tracked.timers s <= Tracked.timers s')%nat \/
   Spec.observed s' = Some Tracked.downloading /\
     is_Some (Spec.observed s) /\
     (exists u i f, Tracked.phase s = Tracked.Awaiting u i f) \/
   Spec.observed s' = Some Tracked.cancelled /\
     Tracked.phase s = Tracked.Streaming /\
     (0 < Tracked.timers s')%nat \/
   Obs.own ev = false /\ is_Some (Spec.observed s) /\
     is_Some (Spec.observed s') /\ Tracked.timers s' = Tracked.timers s).
Proof.
  assert (forall s0 : Tracked.State,
            Tracked.downloadId s0 = Tracked.downloadId s ->
            Tracked.activeDownloads s0 = Tracked.activeDownloads s ->
            Http.headers (Tracked.res s0) = Http.headers (Tracked.res s) ->
            Tracked.phase s0 = Tracked.phase s ->
            Tracked.timers s0 = Tracked.timers s ->
            Tracked.downloadId s0 = Tracked.downloadId s /\
            (Http.headers (Tracked.res s) !! "Content-Length" = None ->
             Http.headers (Tracked.res s0) !! "Content-Length" = None) /\
            ((forall u i f, Tracked.phase s0 <> Tracked.Awaiting u i f) \/
             Tracked.phase s0 = Tracked.phase s) /\
            (Spec.observed s0 = None \/
             Spec.observed s0 = Spec.observed s /\
               (Tracked.timers s <= Tracked.timers s0)%nat \/
             Spec.observed s0 = Some Tracked.downloading /\
               is_Some (Spec.observed s) /\
               (exists u i f, Tracked.phase s = Tracked.Awaiting u i f) \/
             Spec.observed s0 = Some Tracked.cancelled /\
               Tracked.phase s = Tracked.Streaming /\
               (0 < Tracked.timers s0)%nat \/
             Obs.own ev = false /\ is_Some (Spec.observed s) /\
               is_Some (Spec.observed s0) /\
               Tracked.timers s0 = Tracked.timers s)) as Hsame.
  { intros s0 Hd Ha Hh Hph Ht. unfold Spec.observed.
    rewrite Hd, Ha, Hh, Hph, Ht. repeat split; auto. }
  assert (forall s0 : Tracked.State,
            Tracked.downloadId s0 = Tracked.downloadId s ->
            Http.headers (Tracked.res s0) = Http.headers (Tracked.res s) ->
            Tracked.phase s0 = Tracked.phase s ->
            Spec.observed s0 = None ->
            Tracked.downloadId s0 = Tracked.downloadId s /\
            (Http.headers (Tracked.res s) !! "Content-Length" = None ->
             Http.headers (Tracked.res s0) !! "Content-Length" = None) /\
            ((forall u i f, Tracked.phase s0 <> Tracked.Awaiting u i f) \/
             Tracked.phase s0 = Tracked.phase s) /\
            (Spec.observed s0 = None \/
             Spec.observed s0 = Spec.observed s /\
               (Tracked.timers s <= Tracked.timers s0)%nat \/
             Spec.observed s0 = Some Tracked.downloading /\
               is_Some (Spec.observed s) /\
               (exists u i f, Tracked.phase s = Tracked.Awaiting u i f) \/
             Spec.observed s0 = Some Tracked.cancelled /\
               Tracked.phase s = Tracked.Streaming /\
               (0 < Tracked.timers s0)%nat \/
             Obs.own ev = false /\ is_Some (Spec.observed s) /\
               is_Some (Spec.observed s0) /\
               Tracked.timers s0 = Tracked.timers s)) as Hgone.
  { intros s0 Hd Hh Hph Ho. rewrite Hd, Hh, Hph. repeat split; auto. }
  assert (forall s0 : Tracked.State,
            Spec.observed (Tracked.forget s0) = None /\
            Tracked.downloadId (Tracked.forget s0) = Tracked.downloadId s0 /\
            Tracked.res (Tracked.forget s0) = Tracked.res s0 /\
            Tracked.phase (Tracked.forget s0) = Tracked.phase s0) as Hforget.
  { intros s0. unfold Spec.observed, Tracked.forget.
    destruct (Tracked.downloadId s0) as [id|] eqn:Hid; simpl; rewrite ?Hid;
      repeat split; trivial. simpl. now rewrite lookup_delete_eq. }
  cbv zeta. unfold Tracked.step.
  destruct ev as [|[chunk| | |]|code| | | | | |id|op].
  all: try (destruct (Tracked.phase s) as [u i f| |] eqn:Hp;
            [try (now apply Hsame) | | now apply Hsame]).
  - (* Resolved, suspended *)
    destruct (resume_cases w u i f s)
      as [(r & Hr & ->) | [(b & ->) | (id & e & e' & r & iv & Hid & He & He' & Hr & ->)]].
    + destruct (catch_fields (Tracked.set_res r s)) as (-> & -> & _ & Ho & ->).
      destruct Hr as (_ & _ & _ & _ & _ & _ & _ & _ & _ & Hcl). simpl.
      refine (conj eq_refl (conj _ (conj _ _)));
        [congruence | left; discriminate | left; exact Ho].
    + destruct (Hforget s) as (Ho & Hd & Hr & Hph).
      refine (conj _ (conj _ (conj _ _)));
        [exact Hd | simpl; auto | left; discriminate | left; exact Ho].
    + destruct Hr as (_ & _ & _ & _ & _ & _ & _ & _ & _ & Hcl).
      refine (conj eq_refl (conj _ (conj _ _)));
        [simpl; congruence | left; discriminate |].
      right. right. left. unfold Spec.observed. simpl.
      rewrite Hid, lookup_insert_eq, He. simpl. rewrite He'. eauto 8.
  - (* Resolved, later *)
    now apply Hsame.
  - (* stdout data *)
    unfold Tracked.listener. cbv zeta.
    change (Tracked.res (Tracked.add_bytes (Z.of_nat (length chunk)) s))
      with (Tracked.res s).
    unfold Http.writable.
    apply Hsame; try reflexivity; try exact Hp; apply write_head.
  - (* stdout end *)
    unfold Tracked.listener. cbv zeta.
    change (Tracked.res (Tracked.clearInterval s)) with (Tracked.res s).
    unfold Http.writable.
    match goal with |- context [Tracked.forget ?s0] =>
      destruct (Hforget s0) as (Ho & Hd & Hr & Hph) end.
    apply Hgone; [exact Hd | rewrite Hr; apply end_head | now rewrite Hph
                 | exact Ho].
  - (* socket closed *)
    now apply Hsame.
  - (* drain *)
    now apply Hsame.
  - (* child close *)
    unfold Tracked.listener, Tracked.fail. cbv zeta.
    destruct (Hforget (Tracked.clearInterval s)) as (Ho & Hd & Hr & Hph).
    set (s1 := Tracked.forget (Tracked.clearInterval s)) in *.
    destruct code as [[|c|c]|]; try destruct (Http.headersSent (Tracked.res s1));
      (apply Hgone;
       [exact Hd | simpl; now rewrite ?Hr | simpl; now rewrite Hph | exact Ho]).
  - (* child error *)
    unfold Tracked.listener, Tracked.fail.
    destruct (Hforget (Tracked.clearInterval s)) as (Ho & Hd & Hr & Hph).
    set (s1 := Tracked.forget (Tracked.clearInterval s)) in *.
    destruct (Http.headersSent (Tracked.res s1));
      (apply Hgone;
       [exact Hd | simpl; now rewrite ?Hr | simpl; now rewrite Hph | exact Ho]).
  - (* request close *)
    unfold Tracked.listener. cbv zeta.
    set (s1 := Tracked.kill (Tracked.clearInterval s)).
    assert (Tracked.downloadId s1 = Tracked.downloadId s /\
            Tracked.activeDownloads s1 = Tracked.activeDownloads s /\
            Tracked.res s1 = Tracked.res s /\
            Tracked.phase s1 = Tracked.phase s /\
            Tracked.timers s1 = Tracked.timers s) as (Hd & Ha & Hr & Hph & Ht).
    { subst s1. unfold Tracked.kill. simpl.
      destruct (Tracked.childProcess s) as [[|]|]; auto. }
    rewrite Hd, Ha.
    destruct (Tracked.downloadId s) as [id|] eqn:Hid;
      [destruct (Tracked.activeDownloads s !! id) as [e|] eqn:He|];
      [|apply Hsame; congruence..].
    refine (conj _ (conj _ (conj _ _)));
      [simpl; congruence | simpl; rewrite Hr; auto
      | right; simpl; congruence |].
    right. right. right. left. unfold Spec.observed. simpl.
    rewrite Hd, lookup_insert_eq. simpl. repeat split; lia.
  - (* request timeout *)
    unfold Tracked.listener, Tracked.kill. simpl.
    destruct (Tracked.childProcess s) as [[|]|]; now apply Hsame.
  - (* progress tick *)
    unfold Tracked.listener.
    destruct (Tracked.progressInterval s); [|now apply Hsame].
    destruct (Tracked.downloadId s) as [id|] eqn:Hid; [|now apply Hsame].
    destruct (Tracked.activeDownloads s !! id) as [e|] eqn:He; [|now apply Hsame].
    refine (conj Hid (conj _ (conj _ _)));
      [simpl; auto | right; exact Hp |].
    right. left. unfold Spec.observed. simpl.
    rewrite Hid, lookup_insert_eq, He. simpl. split; [reflexivity | lia].
  - (* deletion timer *)
    destruct (Tracked.timers s) as [|n] eqn:Ht; [now apply Hsame|].
    destruct (Hforget s) as (Ho & Hd & Hr & Hph).
    apply Hgone; [exact Hd | simpl; now rewrite Hr | simpl; now rewrite Hph
                 | exact Ho].
  - (* cancel request *)
    unfold Tracked.cancelDownload.
    destruct (Tracked.activeDownloads s !! id) as [e|] eqn:He;
      [|now apply Hsame].
    refine (conj eq_refl (conj _ (conj _ _))); [auto | right; reflexivity |].
    unfold Spec.observed. simpl.
    destruct (Tracked.downloadId s) as [id0|]; [|auto].
    destruct (decide (id = id0)) as [->|Hne];
      [left; now rewrite lookup_delete_eq
      |right; left; rewrite lookup_delete_ne by assumption; auto].
  - (* a write of the download that shares the key *)
    destruct (Tracked.downloadId s) as [id|] eqn:Hid; [|now apply Hsame].
    destruct (Tracked.activeDownloads s !! id) as [e|] eqn:He; [|now apply Hsame].
    destruct (Tracked.shared_write op e) as [e'|].
    + refine (conj Hid (conj _ (conj _ _))); [auto | right; reflexivity |].
      do 4 right. unfold Spec.observed. simpl.
      rewrite Hid, lookup_insert_eq, He. simpl. eauto.
    + refine (conj Hid (conj _ (conj _ _))); [auto | right; reflexivity |].
      left. unfold Spec.observed. simpl. now rewrite Hid, lookup_delete_eq.
Qed.

Lemma step_downloadId (w : Tracked.World) (ev : Tracked.Event) (s : Tracked.State) :
  Tracked.downloadId (Tracked.step w ev s) = Tracked.downloadId s.
Proof. apply step_fields. Qed.

Lemma step_suspended (w : Tracked.World) (ev : Tracked.Event) (s : Tracked.State) :
  Obs.own ev = true ->
  Spec.suspended_uncancelled s ->
  Spec.suspended_uncancelled (Tracked.step w ev s).
Proof.
  unfold Spec.suspended_uncancelled. intros Hown H.
  destruct (step_fields w ev s) as (_ & _ & Hp & Ho).
  destruct (Tracked.phase (Tracked.step w ev s)) as [u i f| |] eqn:E; [|trivial..].
  destruct Hp as [Hp | Hp]; [now destruct (Hp u i f)|].
  rewrite <- Hp in H.
  destruct Ho as [-> | [[-> _] | [[-> _] | [(_ & Hs & _) | (Hf & _)]]]];
    [discriminate | assumption | discriminate | congruence | congruence].
Qed.

Lemma start_fields (w : Tracked.World) (table : gmap string Tracked.Entry)
    (videoUrl itag filename : option string) :
  let s := Tracked.start w table videoUrl itag filename in
  Spec.suspended_uncancelled s /\
  Http.headers (Tracked.res s) !! "Content-Length" = None.
Proof.
  unfold Spec.suspended_uncancelled, Tracked.start. cbv zeta.
  destruct videoUrl as [u|], itag as [i|]; try (split; [exact I | reflexivity]).
  destruct (negb _ || negb _); [split; [exact I | reflexivity]|].
  destruct (Tracked.searchParam_v w u) as [v|].
  - unfold Spec.observed. simpl. rewrite lookup_insert_eq. simpl.
    split; [discriminate | reflexivity].
  - match goal with |- context [Tracked.catch ?s0] =>
      destruct (catch_fields s0) as (_ & -> & _ & _ & ->) end.
    split; [exact I | reflexivity].
Qed.

Lemma start_suspended (w : Tracked.World) (table : gmap string Tracked.Entry)
    (videoUrl itag filename : option string) :
  Spec.suspended_uncancelled (Tracked.start w table videoUrl itag filename).
Proof. apply start_fields. Qed.

(** Once the download is not live, no event of its own and no cancel
    request makes it live again. *)
Lemma step_absorbing (w : Tracked.World) (ev : Tracked.Event) (s : Tracked.State) :
  Obs.own ev = true ->
  Spec.suspended_uncancelled s ->
  Spec.live (Spec.observed s) = false ->
  Spec.live (Spec.observed (Tracked.step w ev s)) = false.
Proof.
  unfold Spec.suspended_uncancelled. intros Hown Hs Hl.
  destruct (step_fields w ev s) as (_ & _ & _ & Ho).
  destruct Ho as [-> | [[-> _] | [(_ & [st Hst] & (u & i & f & Hp))
                                 | [[-> _] | (Hf & _)]]]];
    [reflexivity | assumption | | reflexivity | congruence].
  rewrite Hp in Hs. rewrite Hst in Hs, Hl.
  destruct st; simpl in Hl; congruence.
Qed.

Lemma no_transition_once_ended (w : Tracked.World) (evs : list Tracked.Event)
    (s : Tracked.State) :
  forallb Obs.own evs = true ->
  Spec.suspended_uncancelled s ->
  Spec.live (Spec.observed s) = false ->
  Spec.terminal_transitions w evs s = [].
Proof.
  revert s. induction evs as [|ev evs IH]; intros s Hown Hs Hl; [reflexivity|].
  cbn [forallb] in Hown. apply andb_true_iff in Hown as [Hev Hown].
  simpl. rewrite Hl. simpl.
  apply IH; [assumption | now apply step_suspended | now apply step_absorbing].
Qed.

(** X24. A download whose key no other download shares makes at most one
    terminal transition: over any sequence of its own events and of cancel
    requests, complete, failed and cancelled exclude each other and are
    final (in terms of the table: an entry that is cancelled or deleted
    never becomes starting or downloading again). The condition is needed:
    in the sample run a download that began in the same millisecond sets
    the cancelled entry back to downloading, and the end of the stream is a
    second terminal transition. *)
Lemma terminal_transition_unique (w : Tracked.World)
    (table : gmap string Tracked.Entry) (videoUrl itag filename : option string)
    (evs : list Tracked.Event) :
  (forallb Obs.own evs = true ->
   (length (Spec.terminal_transitions w evs
              (Tracked.start w table videoUrl itag filename)) <= 1)%nat) /\
  Spec.terminal_transitions Sample.tracked_world
    [Tracked.Resolved; Tracked.ReqClose;
     Tracked.Other (Tracked.OtherDownloading (Js.Str "Another clip")
                      (Js.Num 5000) (Js.Str "22"));
     Tracked.Stream Http.End]
    Sample.tracked_awaiting = [Spec.cancelled; Spec.complete].
Proof.
  split; [|vm_compute; reflexivity].
  pose proof (start_suspended w table videoUrl itag filename) as Hs.
  revert Hs. generalize (Tracked.start w table videoUrl itag filename).
  induction evs as [|ev evs IH]; intros s Hs Hown; simpl; [lia|].
  cbn [forallb] in Hown. apply andb_true_iff in Hown as [Hev Hown].
  destruct (Spec.live (Spec.observed s)) eqn:Hl; simpl.
  - destruct (Spec.live (Spec.observed (Tracked.step w ev s))) eqn:Hl'; simpl.
    + apply IH; [now apply step_suspended | assumption].
    + rewrite no_transition_once_ended;
        [simpl; lia | assumption | now apply step_suspended | assumption].
  - apply IH; [now apply step_suspended | assumption].
Qed.

Lemma terminal_transition_unique_witness :
  (length (Spec.terminal_transitions Sample.tracked_world
             [Tracked.Resolved; Tracked.Stream (Http.Data [Byte.x01]);
              Tracked.ReqClose; Tracked.Stream Http.End;
              Tracked.ProcClose None; Tracked.GraceElapsed]
             Sample.tracked_awaiting) <= 1)%nat.
Proof.
  exact (proj1 (terminal_transition_unique Sample.tracked_world ∅
           (Some Sample.watch) (Some "18") None
           [Tracked.Resolved; Tracked.Stream (Http.Data [Byte.x01]);
            Tracked.ReqClose; Tracked.Stream Http.End;
            Tracked.ProcClose None; Tracked.GraceElapsed]) eq_refl).
Defined.

(** X25. Once the listeners are registered, the entry of the download is
    deleted when the child's stdout ends, when the child closes (with any
    exit code) and when it fails to run. *)
Lemma entry_deleted_at_end (w : Tracked.World) (ev : Tracked.Event)
    (s : Tracked.State) :
  Tracked.phase s = Tracked.Streaming ->
  ev = Tracked.Stream Http.End \/ (exists code, ev = Tracked.ProcClose code) \/
  ev = Tracked.ProcError ->
  Spec.observed (Tracked.step w ev s) = None.
Proof.
  unfold Spec.observed. intros Hp [-> | [[code ->] | ->]];
    rewrite step_downloadId;
    (destruct (Tracked.downloadId s) as [id|] eqn:Hid; [|reflexivity]);
    unfold Tracked.step, Tracked.listener, Tracked.forget, Tracked.fail;
    rewrite Hp; simpl.
  - rewrite Hid. simpl. now rewrite lookup_delete_eq.
  - destruct code as [[|c|c]|]; simpl; rewrite ?Hid; simpl;
      try destruct (Http.headersSent (Tracked.res s)); simpl;
      rewrite ?Hid; simpl; now rewrite lookup_delete_eq.
  - rewrite Hid. simpl. destruct (Http.headersSent (Tracked.res s)); simpl;
      now rewrite lookup_delete_eq.
Qed.

(** While the listeners are registered, an entry that has a deletion timer
    pending keeps one until it is deleted. *)
Lemma step_pending (w : Tracked.World) (ev : Tracked.Event) (s : Tracked.State) :
  Tracked.phase s = Tracked.Streaming ->
  Spec.observed s = None \/ (0 < Tracked.timers s)%nat ->
  Spec.observed (Tracked.step w ev s) = None \/
  (0 < Tracked.timers (Tracked.step w ev s))%nat.
Proof.
  intros Hp H.
  destruct (step_fields w ev s) as (_ & _ & _ & Ho).
  destruct Ho as [Ho | [[Ho Hle] | [(_ & _ & (u & i & f & Hp'))
                                   | [(_ & _ & Hlt) | (_ & [st Hst] & _ & Ht)]]]].
  - now left.
  - rewrite Ho. destruct H as [H | H]; [now left | right; lia].
  - congruence.
  - now right.
  - destruct H as [H | H]; [congruence | right; lia].
Qed.

Lemma run_pending (w : Tracked.World) (evs : list Tracked.Event)
    (s : Tracked.State) :
  Tracked.phase s = Tracked.Streaming ->
  Spec.observed s = None \/ (0 < Tracked.timers s)%nat ->
  Spec.observed (Tracked.run w evs s) = None \/
  (0 < Tracked.timers (Tracked.run w evs s))%nat.
Proof.
  revert s. induction evs as [|ev evs IH]; intros s Hp H; [assumption|].
  rewrite tracked_run_cons.
  apply IH; [now apply tracked_step_phase | now apply step_pending].
Qed.

(** X26. A disconnect that the [req.on('close')] listener sees frees the
    entry at the latest when the 5000 ms timer fires, whatever happens in
    between. *)
Lemma entry_deleted_after_grace (w : Tracked.World) (evs : list Tracked.Event)
    (s : Tracked.State) :
  Tracked.phase s = Tracked.Streaming ->
  Spec.observed
    (Tracked.run w (Tracked.ReqClose :: evs ++ [Tracked.GraceElapsed]) s) = None.
Proof.
  intros Hp. rewrite tracked_run_cons, tracked_run_app.
  set (s1 := Tracked.step w Tracked.ReqClose s).
  assert (Tracked.phase s1 = Tracked.Streaming) as Hp1
    by (now apply tracked_step_phase).
  assert (Spec.observed s1 = None \/ (0 < Tracked.timers s1)%nat) as H1.
  { subst s1. unfold Spec.observed.
    unfold Tracked.step, Tracked.listener. rewrite Hp. cbv zeta.
    set (k := Tracked.kill (Tracked.clearInterval s)).
    assert (Tracked.downloadId k = Tracked.downloadId s /\
            Tracked.activeDownloads k = Tracked.activeDownloads s) as [Hd Ha].
    { subst k. unfold Tracked.kill. simpl.
      destruct (Tracked.childProcess s) as [[|]|]; auto. }
    rewrite Hd, Ha.
    destruct (Tracked.downloadId s) as [id|] eqn:Hid.
    - destruct (Tracked.activeDownloads s !! id) as [e|] eqn:He.
      + right. simpl. lia.
      + left. now rewrite Hd, Ha, He.
    - left. now rewrite Hd. }
  pose proof (run_pending w evs s1 Hp1 H1) as H2.
  set (s2 := Tracked.run w evs s1) in *.
  unfold Spec.observed in *. simpl.
  unfold Tracked.step, Tracked.forget.
  destruct (Tracked.timers s2) as [|n] eqn:En; simpl.
  - destruct H2 as [H2 | H2]; [exact H2 | lia].
  - destruct (Tracked.downloadId s2) as [id|] eqn:Hid; simpl; rewrite ?Hid;
      [|reflexivity].
    simpl. now rewrite lookup_delete_eq.
Qed.

(** Before the listeners are registered, a ['close'] of the request is
    lost: nothing is killed and nothing is marked. *)
Lemma close_before_registration_is_lost (w : Tracked.World) (s : Tracked.State) :
  Tracked.phase s <> Tracked.Streaming ->
  Tracked.step w Tracked.ReqClose s = s /\
  Tracked.step w Tracked.ReqTimeout s = s.
Proof.
  intros Hp. unfold Tracked.step.
  destruct (Tracked.phase s); [auto | contradiction | auto].
Qed.

Lemma start_not_streaming (w : Tracked.World) (table : gmap string Tracked.Entry)
    (videoUrl itag filename : option string) :
  Tracked.phase (Tracked.start w table videoUrl itag filename) <> Tracked.Streaming.
Proof.
  unfold Tracked.start. cbv zeta.
  destruct videoUrl as [u|], itag as [i|]; try discriminate.
  destruct (negb _ || negb _); [discriminate|].
  destruct (Tracked.searchParam_v w u) as [v|]; [discriminate|].
  match goal with |- context [Tracked.catch ?s0] =>
    destruct (catch_fields s0) as (_ & -> & _) end.
  discriminate.
Qed.

(** C5, at the failing input: the client disconnects while the metadata
    call is pending. For every request, a ['close'] that arrives before the
    handler resumes changes nothing, since no listener is registered yet.
    In the sample run the download is therefore neither cancelled nor
    killed; yt-dlp is spawned afterwards, its output is dropped, and the
    entry stays in the table as downloading with no deletion timer
    pending: it outlives the request until the process ends by itself. *)
Theorem early_disconnect_keeps_entry :
  (forall (w : Tracked.World) (table : gmap string Tracked.Entry)
          (videoUrl itag filename : option string),
     Tracked.step w Tracked.ReqClose
       (Tracked.start w table videoUrl itag filename) =
     Tracked.start w table videoUrl itag filename) /\
  let s := Tracked.run Sample.tracked_world
             [Tracked.Stream Http.SocketClosed; Tracked.ReqClose;
              Tracked.Resolved; Tracked.Stream (Http.Data [Byte.x01]);
              Tracked.GraceElapsed]
             Sample.tracked_awaiting in
  Spec.observed Sample.tracked_awaiting = Some Tracked.starting /\
  Spec.observed s = Some Tracked.downloading /\
  Tracked.timers s = 0%nat /\
  Tracked.childProcess s = Some false /\
  Tracked.effects s =
    [Http.Resolve Sample.watch; Http.Spawn Sample.watch "18"] /\
  Http.destroyed (Tracked.res s) = true /\
  Http.written (Tracked.res s) = [].
Proof.
  split.
  - intros w table videoUrl itag filename.
    apply close_before_registration_is_lost, start_not_streaming.
  - vm_compute. repeat split.
Qed.

(** ** Cancellation *)

(** X27. The listeners of ['close'] and ['timeout'] of the request kill a
    running child: it is marked killed and one kill is sent. *)
Lemma disconnect_and_timeout_kill (w : Tracked.World) (ev : Tracked.Event)
    (s : Tracked.State) :
  Tracked.phase s = Tracked.Streaming ->
  Tracked.childProcess s = Some false ->
  ev = Tracked.ReqClose \/ ev = Tracked.ReqTimeout ->
  Tracked.childProcess (Tracked.step w ev s) = Some true /\
  Tracked.effects (Tracked.step w ev s) = Tracked.effects s ++ [Http.Kill].
Proof.
  intros Hp Hc [-> | ->];
    unfold Tracked.step, Tracked.listener, Tracked.kill; rewrite Hp; simpl;
    rewrite Hc; simpl.
  - destruct (Tracked.downloadId s) as [id|]; simpl; [|auto].
    destruct (Tracked.activeDownloads s !! id); simpl; auto.
  - auto.
Qed.

(** The handler of DELETE /api/downloads/:id never touches a child. *)
Lemma cancel_request_kills_nothing (w : Tracked.World) (id : string)
    (s : Tracked.State) :
  Tracked.childProcess (Tracked.step w (Tracked.CancelRequest id) s) =
    Tracked.childProcess s /\
  Tracked.effects (Tracked.step w (Tracked.CancelRequest id) s) =
    Tracked.effects s /\
  Tracked.res (Tracked.step w (Tracked.CancelRequest id) s) = Tracked.res s.
Proof. auto. Qed.

(** C6, at the failing input: an explicit cancel request for a running
    download. The handler of DELETE /api/downloads/:id never touches a
    child process; in the sample run the request is answered with the
    message that the download is cancelled and removes the table entry,
    but the yt-dlp child is not killed and goes on streaming into the
    response. *)
Theorem explicit_cancel_leaves_process_running :
  (forall (w : Tracked.World) (id : string) (s : Tracked.State),
     Tracked.childProcess (Tracked.step w (Tracked.CancelRequest id) s) =
       Tracked.childProcess s /\
     Tracked.effects (Tracked.step w (Tracked.CancelRequest id) s) =
       Tracked.effects s) /\
  let id := "1700000000000" in
  let s := Tracked.step Sample.tracked_world (Tracked.CancelRequest id)
             Sample.tracked_streaming in
  Spec.observed Sample.tracked_streaming = Some Tracked.downloading /\
  snd (Tracked.cancelDownload id (Tracked.activeDownloads Sample.tracked_streaming))
    = Http.reply 200 (Http.JsonMessage "Download cancelled") Http.fresh /\
  Tracked.activeDownloads s !! id = None /\
  Tracked.childProcess s = Some false /\
  Tracked.effects s = [Http.Resolve Sample.watch; Http.Spawn Sample.watch "18"] /\
  Http.written (Tracked.res (Tracked.run Sample.tracked_world
    [Tracked.Stream (Http.Data [Byte.x01])] s)) = [Byte.x01].
Proof.
  split.
  - intros w id s. split; apply cancel_request_kills_nothing.
  - vm_compute. repeat split.
Qed.

(** ** Content-Length *)

Lemma lookup_setHeader_eq (k v : string) (r : Http.Res) :
  Http.headers (Http.setHeader k v r) !! k = Some v.
Proof. apply lookup_insert_eq. Qed.

Lemma lookup_setHeader_ne (k k' v : string) (r : Http.Res) :
  k <> k' ->
  Http.headers (Http.setHeader k v r) !! k' = Http.headers r !! k'.
Proof. apply lookup_insert_ne. Qed.

Lemma prepared_no_length (filename : option string) :
  Http.headers (Spec.prepared filename) !! "Content-Length" = None.
Proof.
  unfold Spec.prepared. rewrite !lookup_setHeader_ne by discriminate.
  apply lookup_empty.
Qed.

(** X28. The piped relay copies the upstream's content-length when the
    header is there and not empty, and sets none otherwise. *)
Lemma piped_content_length (sc : Z) (ct cl : option string)
    (events : list Http.StreamEvent) (filename : option string) :
  sc < 400 ->
  Http.headers (snd (Direct.on_response sc ct cl events (Spec.prepared filename)))
    !! "Content-Length" =
  if Js.param_truthy cl then cl else None.
Proof.
  intros Hsc. unfold Direct.on_response.
  destruct (400 <=? sc) eqn:E; [apply Z.leb_le in E; lia|].
  match goal with |- context [Direct.pipe events (0, ?r)] =>
    destruct (pipe_head events (0, r)) as [_ ->] end.
  cbn [snd].
  assert (forall r : Http.Res,
            Http.headers r !! "Content-Length" = None ->
            Http.headers
              match ct with
              | Some v => if Js.param_truthy ct
                          then Http.setHeader "Content-Type" v r else r
              | None => r
              end !! "Content-Length" = None) as Hct.
  { intros r Hr. destruct ct as [v|]; [|assumption].
    destruct (Js.param_truthy (Some v)); [|assumption].
    now rewrite lookup_setHeader_ne by discriminate. }
  destruct cl as [v|]; [|apply Hct, prepared_no_length].
  destruct (Js.param_truthy (Some v));
    [apply lookup_setHeader_eq | apply Hct, prepared_no_length].
Qed.

(** X29. The untracked yt-dlp download announces the format's file size as
    Content-Length when the manifest has one, and sets no Content-Length
    otherwise. *)
Lemma streamed_content_length (w : Streamed.World)
    (videoUrl itag filename : option string) :
  let s := Streamed.start w videoUrl itag filename in
  Streamed.phase s = Streamed.Streaming ->
  exists u i info format,
    videoUrl = Some u /\ itag = Some i /\
    Streamed.youtubedl w u = Some info /\
    List.find (fun f => Js.strict_eq (YtDlp.format_id f) (Js.Str i))
              (YtDlp.formats info) = Some format /\
    Http.headers (Streamed.res s) !! "Content-Length" =
      if Js.truthy (YtDlp.filesize format)
      then Some (Js.to_string (YtDlp.filesize format)) else None.
Proof.
  unfold Streamed.start. cbv zeta.
  destruct videoUrl as [u|], itag as [i|]; try discriminate.
  destruct (negb _ || negb _); [discriminate|].
  destruct (negb (Streamed.validateURL w u)); [discriminate|].
  destruct (Streamed.youtubedl w u) as [info|] eqn:Hinfo; [|discriminate].
  destruct (List.find _ (YtDlp.formats info)) as [format|] eqn:Hfind;
    [|discriminate].
  match goal with |- context [match ?n with Some _ => _ | None => _ end] =>
    destruct n as [name|] end; [|discriminate].
  intros _. exists u, i, info, format.
  split; [reflexivity|]. split; [reflexivity|]. split; [exact Hinfo|].
  split; [exact Hfind|]. cbn [Streamed.res].
  destruct (Js.truthy (YtDlp.filesize format)).
  - apply lookup_setHeader_eq.
  - rewrite !lookup_setHeader_ne by discriminate. apply lookup_empty.
Qed.

(** The tracked download never sets a Content-Length. *)
Lemma tracked_no_content_length (w : Tracked.World)
    (table : gmap string Tracked.Entry) (videoUrl itag filename : option string)
    (evs : list Tracked.Event) :
  Http.headers (Tracked.res
    (Tracked.run w evs (Tracked.start w table videoUrl itag filename)))
    !! "Content-Length" = None.
Proof.
  destruct (start_fields w table videoUrl itag filename) as [_ H0].
  revert H0. generalize (Tracked.start w table videoUrl itag filename).
  induction evs as [|ev evs IH]; intros s H; [assumption|].
  rewrite tracked_run_cons. apply IH. now apply step_fields.
Qed.

(** C7, at the failing input: format 18 of the manifest has a known size
    of 1000 bytes. Whatever the request and the events, the tracked
    download sends no Content-Length; in the sample run it records the size
    as the entry's total size, whereas the untracked download of the same
    format announces it. *)
Theorem tracked_download_omits_known_length :
  (forall (w : Tracked.World) (table : gmap string Tracked.Entry)
          (videoUrl itag filename : option string) (evs : list Tracked.Event),
     Http.headers (Tracked.res
       (Tracked.run w evs (Tracked.start w table videoUrl itag filename)))
       !! "Content-Length" = None) /\
  let id := "1700000000000" in
  (Tracked.totalSize <$> Tracked.activeDownloads Sample.tracked_streaming !! id)
    = Some (Some (Js.Num 1000)) /\
  Tracked.phase Sample.tracked_streaming = Tracked.Streaming /\
  Http.headers (Tracked.res (Tracked.run Sample.tracked_world
     [Tracked.Stream (Http.Data [Byte.x01]); Tracked.Stream Http.End]
     Sample.tracked_streaming)) !! "Content-Length" = None /\
  Http.headers (Streamed.res Sample.streamed_streaming) !! "Content-Length"
    = Some "1000".
Proof.
  split.
  - apply tracked_no_content_length.
  - vm_compute. repeat split.
Qed.
(** ** Numerals *)

Lemma append_cons (c : ascii) (s t : string) :
  (String c s ++ t)%string = String c (s ++ t)%string.
Proof. reflexivity. Qed.

Lemma digits_stop (a : option Z) (rest : string) :
  Obs.digit_led rest = false -> Js.digits 10 a rest = a.
Proof.
  destruct rest as [|c r]; [reflexivity|]. simpl.
  destruct (Js.digit_val c) as [d|]; [|reflexivity]. now intros ->.
Qed.

Lemma digits_step (c : ascii) (k : Z) (a : option Z) (r : string) :
  Js.digit_val c = Some k -> k < 10 ->
  Js.digits 10 a (String c r) = Js.digits 10 (Some (10 * default 0 a + k)) r.
Proof.
  intros Hc Hk. cbn [Js.digits]. rewrite Hc.
  now destruct (Z.ltb_spec k 10); [|lia].
Qed.

Lemma digits_uint (d : Decimal.uint) (a : Z) (rest : string) :
  Js.digits 10 (Some a) (NilEmpty.string_of_uint d ++ rest) =
  Js.digits 10
    (Some (a * 10 ^ Z.of_N (DecimalPos.Unsigned.usize d) +
           Z.of_N (DecimalPos.Unsigned.of_lu (Decimal.rev d)))) rest.
Proof.
  revert a.
  induction d as [|d IHd|d IHd|d IHd|d IHd|d IHd|d IHd|d IHd|d IHd|d IHd|d IHd];
    intros a;
    [simpl; f_equal; f_equal; lia | ..].
  all: cbn [NilEmpty.string_of_uint]; rewrite append_cons;
    erewrite digits_step by (first [lia | vm_compute; reflexivity]);
    rewrite IHd; f_equal; f_equal.
  all: match goal with |- context [Decimal.rev (?D ?x)] =>
         change (Decimal.rev (D x)) with (Decimal.revapp x (D Decimal.Nil))
       end;
    rewrite DecimalPos.Unsigned.of_lu_revapp;
    cbn [DecimalPos.Unsigned.usize DecimalPos.Unsigned.of_lu default];
    rewrite N2Z.inj_add, N2Z.inj_mul, N2Z.inj_pow, N2Z.inj_succ, Z.pow_succ_r
      by apply N2Z.is_nonneg;
    change (Z.of_N 10) with 10;
    rewrite ?N.mul_0_r, ?N.add_0_r; unfold id;
    generalize (10 ^ Z.of_N (DecimalPos.Unsigned.usize d)); intros; cbn [Z.of_N]; ring.
Qed.

Lemma to_uint_not_D0 (p : positive) (d : Decimal.uint) :
  Pos.to_uint p <> Decimal.D0 d.
Proof.
  intros E.
  pose proof (DecimalPos.Unsigned.to_of (Pos.to_uint p)) as H.
  rewrite DecimalPos.Unsigned.of_to in H. simpl in H.
  rewrite E, DecimalFacts.unorm_D0 in H.
  destruct (Decimal.uint_eq_dec d Decimal.Nil) as [->|Hd].
  - pose proof (DecimalPos.Unsigned.of_to p) as Hp. rewrite E in Hp.
    discriminate Hp.
  - pose proof (DecimalFacts.nb_digits_unorm d Hd) as Hn.
    rewrite <- H in Hn. simpl in Hn. lia.
Qed.

Lemma digits_to_uint (p : positive) (rest : string) :
  Obs.digit_led rest = false ->
  Js.digits 10 None (NilEmpty.string_of_uint (Pos.to_uint p) ++ rest) =
    Some (Z.pos p).
Proof.
  intros Hd.
  assert (Js.digits 10 (Some 0)
            (NilEmpty.string_of_uint (Pos.to_uint p) ++ rest) =
          Some (Z.pos p)) as H.
  { rewrite digits_uint, digits_stop by assumption.
    rewrite <- DecimalPos.Unsigned.of_uint_alt, DecimalPos.Unsigned.of_to.
    reflexivity. }
  destruct (Pos.to_uint p) eqn:E;
    [now apply DecimalPos.Unsigned.to_uint_nonnil in E | exact H ..].
Qed.

(** [parseInt] reads back a decimal numeral, whatever follows it, unless
    what follows goes on with a digit or turns a leading 0 into the prefix
    of a hexadecimal numeral. *)
Lemma parseInt_decimal (n : Z) (rest : string) :
  Obs.digit_led rest = false ->
  (n = 0 -> Obs.hex_led rest = false) ->
  Js.parseInt_string (Js.decimal n ++ rest) = Some n.
Proof.
  intros Hd Hx. unfold Js.decimal, Z.to_int, NilZero.string_of_int.
  destruct n as [|p|p].
  - specialize (Hx eq_refl). destruct rest as [|c r]; [reflexivity|].
    change (Js.parseInt_string (String "0" (String c r)) = Some 0).
    unfold Obs.hex_led in Hx. unfold Obs.digit_led in Hd.
    destruct c as [[] [] [] [] [] [] [] []];
      try discriminate Hx; try discriminate Hd; reflexivity.
  - pose proof (digits_to_uint p rest Hd) as H.
    unfold NilZero.string_of_uint.
    destruct (Pos.to_uint p) eqn:E;
      [now apply DecimalPos.Unsigned.to_uint_nonnil in E
      |now apply to_uint_not_D0 in E | ..].
    all: cbn [NilEmpty.string_of_uint] in *; rewrite append_cons in *;
      match goal with |- Js.parseInt_string ?s = _ =>
        change (Z.mul 1 <$> Js.digits 10 None s = Some (Z.pos p)) end;
      rewrite H; reflexivity.
  - pose proof (digits_to_uint p rest Hd) as H.
    unfold NilZero.string_of_uint.
    destruct (Pos.to_uint p) eqn:E;
      [now apply DecimalPos.Unsigned.to_uint_nonnil in E
      |now apply to_uint_not_D0 in E | ..].
    all: cbn [NilEmpty.string_of_uint] in *; rewrite !append_cons in *;
      match goal with |- Js.parseInt_string (String _ ?s) = _ =>
        change (Z.mul (-1) <$> Js.digits 10 None s = Some (Z.neg p)) end;
      rewrite H; reflexivity.
Qed.

(** [ToString] writes a safe integer as its decimal numeral, so [parseInt]
    reads it back. *)
Lemma to_string_safe (n : Z) :
  Js.safe n = true -> Js.to_string (Js.Num n) = Js.decimal n.
Proof. intros H. unfold Js.to_string, Js.number_to_string. now rewrite H. Qed.

Lemma parseInt_to_string (n : Z) (rest : string) :
  Js.safe n = true ->
  Obs.digit_led rest = false ->
  (n = 0 -> Obs.hex_led rest = false) ->
  Js.parseInt_string (Js.to_string (Js.Num n) ++ rest) = Some n.
Proof.
  intros Hs Hd Hx. rewrite (to_string_safe n Hs). now apply parseInt_decimal.
Qed.

(** ** The format list of [getVideoInfo], continued *)

Section Stable.
Context {A : Type} (key : A -> Z).

Lemma insert_Permutation (x : A) (l : list A) :
  Permutation (Direct.insert (Spec.by_key key) x l) (x :: l).
Proof.
  induction l as [|y l IH]; simpl; [reflexivity|].
  destruct (Spec.by_key key x y <=? 0); [reflexivity|].
  rewrite IH. apply perm_swap.
Qed.

Lemma sort_Permutation (l : list A) :
  Permutation (Direct.sort (Spec.by_key key) l) l.
Proof.
  induction l as [|x l IH]; simpl; [reflexivity|].
  rewrite insert_Permutation. now constructor.
Qed.

Lemma insert_filter_key (k : Z) (x : A) (l : list A) :
  List.filter (fun a => key a =? k) (Direct.insert (Spec.by_key key) x l) =
  List.filter (fun a => key a =? k) (x :: l).
Proof.
  induction l as [|y l IH]; [reflexivity|].
  cbn [Direct.insert]. unfold Spec.by_key at 1.
  destruct (key y - key x <=? 0) eqn:E; [reflexivity|].
  apply Z.leb_gt in E. cbn [List.filter] in *. rewrite IH.
  destruct (Z.eqb_spec (key x) k) as [Hx|Hx]; [|reflexivity].
  destruct (Z.eqb_spec (key y) k) as [Hy|Hy]; [lia | reflexivity].
Qed.

Lemma sort_filter_key (k : Z) (l : list A) :
  List.filter (fun a => key a =? k) (Direct.sort (Spec.by_key key) l) =
  List.filter (fun a => key a =? k) l.
Proof.
  induction l as [|x l IH]; [reflexivity|].
  cbn [Direct.sort fold_right]. fold (Direct.sort (Spec.by_key key) l).
  rewrite insert_filter_key. cbn [List.filter]. now rewrite IH.
Qed.

End Stable.

(** X1. The sort of [getVideoInfo] neither drops nor repeats a format: the
    list of the reply is a rearrangement of the descriptors of the formats
    that yt-dlp reported with a source URL and at least one track. *)
Theorem getVideoInfo_formats_rearranged (result : YtDlp.info) :
  Permutation (Direct.formats (Direct.getVideoInfo result))
    (map Direct.describe (List.filter Direct.keep (YtDlp.formats result))) /\
  length (Direct.formats (Direct.getVideoInfo result)) =
    length (List.filter Direct.keep (YtDlp.formats result)).
Proof.
  assert (Permutation (Direct.formats (Direct.getVideoInfo result))
            (map Direct.describe
               (List.filter Direct.keep (YtDlp.formats result)))) as H
    by apply (sort_Permutation Direct.numericQuality).
  split; [exact H|].
  rewrite (Permutation_length H). apply length_map.
Qed.

(** X2. The sort of [getVideoInfo] is stable: the formats whose quality
    label reads as the same number stay in the order in which yt-dlp
    reported them. *)
Theorem getVideoInfo_formats_stable (result : YtDlp.info) (k : Z) :
  List.filter (fun f => Direct.numericQuality f =? k)
    (Direct.formats (Direct.getVideoInfo result)) =
  List.filter (fun f => Direct.numericQuality f =? k)
    (map Direct.describe (List.filter Direct.keep (YtDlp.formats result))).
Proof. apply (sort_filter_key Direct.numericQuality). Qed.

Lemma append_assoc (s t u : string) :
  ((s ++ t) ++ u)%string = (s ++ (t ++ u))%string.
Proof. induction s as [|c s IH]; [reflexivity|]. rewrite !append_cons. now f_equal. Qed.

Lemma append_not_empty (s t : string) :
  t <> EmptyString -> String.eqb (s ++ t) EmptyString = false.
Proof. destruct s, t; simpl; congruence. Qed.

Lemma describe_label_truthy (format : YtDlp.format) :
  Js.truthy (Direct.quality (Direct.describe format)) = true.
Proof.
  unfold Direct.describe, Js.or. cbn [Direct.quality].
  destruct (Js.truthy (YtDlp.quality format)) eqn:Eq; [exact Eq|].
  destruct (Js.truthy (YtDlp.height format)).
  - unfold Js.concat. cbn [Js.truthy Js.to_string].
    now rewrite append_not_empty.
  - destruct (Js.truthy (YtDlp.width format)); [|reflexivity].
    unfold Js.concat. cbn [Js.truthy Js.to_string].
    destruct (Js.to_string (YtDlp.width format)); reflexivity.
Qed.

(** X3. Every descriptor in the reply of [getVideoInfo] carries a quality
    label: the label of yt-dlp when it is truthy, else one made from the
    height or the width, else the word unknown; it is never missing, empty
    or zero. *)
Theorem getVideoInfo_labels_truthy (result : YtDlp.info) :
  Forall (fun f => Js.truthy (Direct.quality f) = true)
         (Direct.formats (Direct.getVideoInfo result)).
Proof.
  apply List.Forall_forall. intros f Hf.
  apply (proj1 (sort_In Direct.numericQuality f _)) in Hf.
  apply in_map_iff in Hf as (raw & <- & _). apply describe_label_truthy.
Qed.

(** X4. The number by which [getVideoInfo] sorts a format without a label
    of its own, for a height or width that is a safe integer (below 2^53 in
    magnitude, where [ToString] writes all the digits): the height when
    yt-dlp reports one, the width when it reports a width and no height, and
    zero when it reports neither. *)
Theorem label_numeric_quality (format : YtDlp.format) (n : Z) :
  Js.truthy (YtDlp.quality format) = false ->
  n <> 0 ->
  Z.abs n < 2 ^ 53 ->
  (YtDlp.height format = Js.Num n ->
     Direct.quality (Direct.describe format) =
       Js.Str (Js.to_string (Js.Num n) ++ "p") /\
     Direct.numericQuality (Direct.describe format) = n) /\
  (Js.truthy (YtDlp.height format) = false ->
   YtDlp.width format = Js.Num n ->
     Direct.quality (Direct.describe format) =
       Js.Str ((Js.to_string (Js.Num n) ++ "x") ++
               Js.to_string (YtDlp.height format)) /\
     Direct.numericQuality (Direct.describe format) = n) /\
  (Js.truthy (YtDlp.height format) = false ->
   Js.truthy (YtDlp.width format) = false ->
     Direct.quality (Direct.describe format) = Js.Str "unknown" /\
     Direct.numericQuality (Direct.describe format) = 0).
Proof.
  intros Hq Hn Hb.
  assert (Js.safe n = true) as Hs by (now apply Z.ltb_lt).
  assert (Js.truthy (Js.Num n) = true) as Ht
    by (simpl; now destruct (Z.eqb_spec n 0)).
  unfold Direct.numericQuality, Direct.describe, Js.or, Js.parseInt, Js.concat.
  cbn [Direct.quality]. rewrite Hq.
  split; [|split].
  - intros ->. rewrite Ht. split; [reflexivity|].
    cbn [Js.to_string]. fold (Js.to_string (Js.Num n)).
    now rewrite parseInt_to_string.
  - intros -> ->. rewrite Ht. split; [reflexivity|].
    cbn [Js.to_string]. fold (Js.to_string (Js.Num n)).
    rewrite append_assoc.
    now rewrite parseInt_to_string.
  - intros -> ->. split; reflexivity.
Qed.

Lemma label_numeric_quality_witness :
  Direct.numericQuality (Direct.describe
    (Sample.fmt "137" 1080 "avc1" "none" "https://cdn.example/137")) = 1080.
Proof.
  refine (proj2 (proj1 (label_numeric_quality
    (Sample.fmt "137" 1080 "avc1" "none" "https://cdn.example/137") 1080
    eq_refl _ _) eq_refl)); [lia | reflexivity].
Defined.

(** ** File names *)

Lemma all_chars_and (p q : ascii -> bool) (s : string) :
  Obs.all_chars (fun c => p c && q c) s =
  Obs.all_chars p s && Obs.all_chars q s.
Proof.
  induction s as [|c s IH]; [reflexivity|]. simpl. rewrite IH.
  destruct (p c), (q c), (Obs.all_chars p s); reflexivity.
Qed.

Lemma substring_0_cons (n : nat) (c : ascii) (s : string) :
  String.substring 0 (S n) (String c s) = String c (String.substring 0 n s).
Proof. reflexivity. Qed.

Lemma all_chars_prefix (p : ascii -> bool) (n : nat) (s : string) :
  Obs.all_chars p s = true ->
  Obs.all_chars p (String.substring 0 n s) = true.
Proof.
  revert s. induction n as [|n IH]; intros [|c s]; try reflexivity.
  rewrite substring_0_cons. simpl. rewrite !andb_true_iff.
  intros [Hc Hs]. auto.
Qed.

Lemma length_prefix (n : nat) (s : string) :
  (String.length (String.substring 0 n s) <= n)%nat.
Proof.
  revert s. induction n as [|n IH]; intros [|c s]; simpl; try lia.
  specialize (IH s). lia.
Qed.

Lemma prefix_short (n : nat) (s : string) :
  (String.length s <= n)%nat -> String.substring 0 n s = s.
Proof.
  revert s. induction n as [|n IH]; intros [|c s]; simpl; try reflexivity;
    try lia.
  intros H. rewrite IH by lia. reflexivity.
Qed.

Lemma replace_forbidden_clean (s : string) :
  Obs.all_chars (fun c => negb (Direct.forbidden c)) (Direct.replace_forbidden s)
    = true.
Proof.
  induction s as [|c s IH]; [reflexivity|]. simpl. rewrite IH, andb_true_r.
  now destruct (Direct.forbidden c) eqn:E; [|rewrite E].
Qed.

Lemma replace_spaces_clean (p : ascii -> bool) (in_run : bool) (s : string) :
  p "_"%char = true ->
  Obs.all_chars p s = true ->
  Obs.all_chars (fun c => p c && negb (Js.is_space c))
    (Direct.replace_spaces in_run s) = true.
Proof.
  intros Hu. revert in_run. induction s as [|c s IH]; intros in_run;
    [reflexivity|].
  simpl. rewrite andb_true_iff. intros [Hc Hs].
  destruct (Js.is_space c) eqn:E.
  - destruct in_run; simpl; rewrite ?Hu; simpl; auto.
  - simpl. now rewrite Hc, E, IH.
Qed.

Lemma replace_forbidden_fixed (s : string) :
  Obs.all_chars (fun c => negb (Direct.forbidden c)) s = true ->
  Direct.replace_forbidden s = s.
Proof.
  induction s as [|c s IH]; [reflexivity|]. simpl. rewrite andb_true_iff.
  intros [Hc Hs]. apply negb_true_iff in Hc. now rewrite Hc, IH.
Qed.

Lemma replace_spaces_fixed (in_run : bool) (s : string) :
  Obs.all_chars (fun c => negb (Js.is_space c)) s = true ->
  Direct.replace_spaces in_run s = s.
Proof.
  revert in_run. induction s as [|c s IH]; intros in_run; [reflexivity|].
  simpl. rewrite andb_true_iff. intros [Hc Hs]. apply negb_true_iff in Hc.
  now rewrite Hc, IH.
Qed.

Lemma sanitized_clean (n : nat) (filename : string) :
  let s := String.substring 0 n
             (Direct.replace_spaces false (Direct.replace_forbidden filename)) in
  (String.length s <= n)%nat /\ Obs.all_chars Obs.clean s = true.
Proof.
  split; [apply length_prefix|]. apply all_chars_prefix.
  apply (replace_spaces_clean (fun c => negb (Direct.forbidden c)));
    [reflexivity | apply replace_forbidden_clean].
Qed.

Lemma clean_fixed (n : nat) (s : string) :
  (String.length s <= n)%nat -> Obs.all_chars Obs.clean s = true ->
  String.substring 0 n (Direct.replace_spaces false (Direct.replace_forbidden s))
    = s.
Proof.
  intros Hlen Hclean. unfold Obs.clean in Hclean.
  rewrite all_chars_and in Hclean. apply andb_true_iff in Hclean as [Hf Hs].
  rewrite replace_forbidden_fixed, replace_spaces_fixed by assumption.
  now apply prefix_short.
Qed.

(** X5. The result of [sanitizeFilename] of the relays has at most 100
    units (200 in the untracked yt-dlp service) and contains none of the
    characters of the replaced class (angle brackets, colon, double quote,
    slash, backslash, bar, question mark, star) and no white space: no tab,
    line feed, vertical tab, form feed, carriage return, space or no-break
    space. *)
Theorem sanitizeFilename_clean (filename : string) :
  ((String.length (Direct.sanitizeFilename filename) <= 100)%nat /\
   Obs.all_chars Obs.clean (Direct.sanitizeFilename filename) = true) /\
  ((String.length (Streamed.sanitizeFilename filename) <= 200)%nat /\
   Obs.all_chars Obs.clean (Streamed.sanitizeFilename filename) = true).
Proof. split; apply sanitized_clean. Qed.

(** X6. [sanitizeFilename] of the relays returns a name of ASCII characters
    unchanged when the name is short enough and has nothing to replace:
    none of the characters of the replaced class and no white space. And
    sanitising twice is sanitising once, for every name. *)
Theorem sanitizeFilename_idempotent (filename : string) :
  ((String.length filename <= 100)%nat ->
   Obs.all_chars Obs.ascii7 filename = true ->
   Obs.all_chars Obs.clean filename = true ->
   Direct.sanitizeFilename filename = filename) /\
  Direct.sanitizeFilename (Direct.sanitizeFilename filename) =
    Direct.sanitizeFilename filename /\
  Streamed.sanitizeFilename (Streamed.sanitizeFilename filename) =
    Streamed.sanitizeFilename filename.
Proof.
  split; [intros Hlen _; now apply clean_fixed|].
  split; apply clean_fixed; apply sanitized_clean.
Qed.

Lemma sanitizeFilename_idempotent_witness :
  Direct.sanitizeFilename "A_clip" = "A_clip"%string.
Proof.
  apply (proj1 (sanitizeFilename_idempotent "A_clip"));
    [simpl; lia | reflexivity | reflexivity].
Defined.

Lemma slug_char (c : ascii) :
  let n := N_of_ascii (Js.lower c) in
  let r := if (((48 <=? n) && (n <=? 57)) || ((97 <=? n) && (n <=? 122)))%N
           then Js.lower c else "_"%char in
  Obs.slug r = true /\
  (let m := N_of_ascii (Js.lower r) in
   if (((48 <=? m) && (m <=? 57)) || ((97 <=? m) && (m <=? 122)))%N
   then Js.lower r else "_"%char) = r /\
  (Obs.slug c = true -> r = c).
Proof.
  destruct c as [[] [] [] [] [] [] [] []]; vm_compute;
    repeat split; congruence.
Qed.

(** X7. [sanitizeFilename] of the tracked service keeps the length of the
    name, yields only lower-case letters, digits and underscores, leaves a
    name of such characters unchanged, and is idempotent. *)
Theorem tracked_sanitizeFilename_slug (filename : string) :
  String.length (Tracked.sanitizeFilename filename) = String.length filename /\
  Obs.all_chars Obs.slug (Tracked.sanitizeFilename filename) = true /\
  (Obs.all_chars Obs.slug filename = true ->
   Tracked.sanitizeFilename filename = filename) /\
  Tracked.sanitizeFilename (Tracked.sanitizeFilename filename) =
    Tracked.sanitizeFilename filename.
Proof.
  induction filename as [|c s (IHlen & IHslug & IHfix & IHidem)];
    [repeat split|].
  destruct (slug_char c) as (Hslug & Hidem & Hfix).
  cbn [Tracked.sanitizeFilename String.length Obs.all_chars].
  cbv zeta in Hslug, Hidem, Hfix.
  repeat split.
  - now rewrite IHlen.
  - now rewrite Hslug, IHslug.
  - rewrite andb_true_iff. intros [Hc Hs]. now rewrite Hfix, IHfix.
  - now rewrite Hidem, IHidem.
Qed.

Lemma tracked_sanitizeFilename_slug_witness :
  Tracked.sanitizeFilename "a_clip_2" = "a_clip_2"%string.
Proof.
  apply (proj1 (proj2 (proj2 (tracked_sanitizeFilename_slug "a_clip_2")))).
  reflexivity.
Defined.

(** *** The filename in the Content-Disposition header *)

Lemma hex_digit_unreserved (n : N) :
  (n < 16)%N -> Js.unreserved (Js.hex_digit n) = true.
Proof.
  intros H.
  assert (forallb (fun k => Js.unreserved (Js.hex_digit (N.of_nat k)))
            (seq 0 16) = true) as Hall by (vm_compute; reflexivity).
  rewrite forallb_forall in Hall.
  specialize (Hall (N.to_nat n)). rewrite N2Nat.id in Hall.
  apply Hall, in_seq. lia.
Qed.

Lemma encoded_safe (s : string) :
  Obs.all_chars (fun c => Js.unreserved c || Ascii.eqb c "%")
    (Js.encodeURIComponent s) = true.
Proof.
  induction s as [|c s IH]; [reflexivity|]. cbn [Js.encodeURIComponent].
  destruct (Js.unreserved c) eqn:E; cbn [Obs.all_chars].
  - now rewrite E, IH.
  - rewrite IH, !hex_digit_unreserved; [reflexivity | |].
    + apply N.mod_lt. discriminate.
    + apply N.Div0.div_lt_upper_bound.
      pose proof (N_ascii_bounded c). lia.
Qed.

Lemma strip_quotes_safe (s : string) :
  Obs.all_chars (fun c => Js.unreserved c || Ascii.eqb c "%") s = true ->
  Obs.all_chars Obs.header_safe (Js.strip_quotes s) = true.
Proof.
  induction s as [|c s IH]; [reflexivity|]. cbn [Obs.all_chars Js.strip_quotes].
  rewrite andb_true_iff. intros [Hc Hs]. specialize (IH Hs).
  destruct (Ascii.eqb c "'") eqn:E1; [exact IH|].
  destruct (Ascii.eqb c Js.dquote) eqn:E2; [exact IH|].
  cbn [orb Obs.all_chars]. unfold Obs.header_safe at 1.
  rewrite E1, IH. simpl. rewrite andb_true_r, andb_true_r. exact Hc.
Qed.

Lemma safeFilename_safe (filename : string) :
  Obs.all_chars Obs.header_safe
    (Js.strip_quotes (Js.encodeURIComponent filename)) = true.
Proof. apply strip_quotes_safe, encoded_safe. Qed.

(** ** The url/quality handler, continued *)

Lemma resolveYoutube_reply (w : Direct.World) (u : string)
    (filename quality : option string) (res : Http.Res) :
  Direct.resolveYoutube w u filename quality = inl res ->
  exists n b, res = Http.reply n b Http.fresh /\ (n = 404 \/ n = 500).
Proof.
  unfold Direct.resolveYoutube.
  destruct (Direct.youtubedl w u) as [result|]; [|intros [= <-]; eauto].
  destruct (Direct.selectFormat _ _) as [f|]; [|intros [= <-]; eauto].
  destruct (negb _); [intros [= <-]; eauto|].
  match goal with |- context [match ?x with Some _ => _ | None => _ end] =>
    destruct x as [fn|] end; [|intros [= <-]; eauto].
  destruct (Direct.url f); intros [= <-]; eauto.
Qed.

(** The two ways the handler ends: with a reply of its own, before any
    request upstream, or in the relay. *)
Lemma download_outcome (w : Direct.World) (url filename quality : option string) :
  let r := Direct.download w url filename quality in
  (exists n b,
     Direct.res r = Http.reply n b Http.fresh /\
     (n = 400 \/ n = 404 \/ n = 500) /\
     Direct.downloadedBytes r = 0 /\
     (Direct.effects r = [] \/
      exists encoded u, url = Some encoded /\
        Js.decodeURIComponent encoded = Some u /\ Obs.youtube u = true /\
        Direct.effects r = [Http.Resolve u])) \/
  (exists encoded u done target filename',
     url = Some encoded /\ Js.decodeURIComponent encoded = Some u /\
     (Obs.youtube u = true /\ done = [Http.Resolve u] \/
      Obs.youtube u = false /\ done = [] /\ target = u) /\
     r = Direct.relay w done target filename').
Proof.
  unfold Direct.download.
  destruct url as [encoded|]; [|left; eauto 10].
  destruct (negb _); [left; eauto 10|].
  destruct (Js.decodeURIComponent encoded) as [u|] eqn:Hdec; [|left; eauto 10].
  fold (Obs.youtube u). destruct (Obs.youtube u) eqn:Hyt.
  - destruct (Direct.resolveYoutube w u filename quality) as [res|[u' fn]] eqn:E.
    + apply resolveYoutube_reply in E as (n & b & -> & Hn).
      left. exists n, b. simpl. repeat split; [tauto|].
      right. eauto 10.
    + right. exists encoded, u, [Http.Resolve u], u', fn. auto 10.
  - right. exists encoded, u, [], u, filename. auto 10.
Qed.

(** X8. The requests the url/quality handler makes for one download: at
    most one metadata resolution, of the decoded URL and only when that is
    a YouTube URL, followed by at most one GET; a URL that is not a YouTube
    URL is fetched itself; the GET goes by https exactly when its target
    starts with https. *)
Theorem download_effects (w : Direct.World) (url filename quality : option string) :
  let r := Direct.download w url filename quality in
  Direct.effects r = [] \/
  exists encoded u,
    url = Some encoded /\ Js.decodeURIComponent encoded = Some u /\
    (Obs.youtube u = true /\
       (Direct.effects r = [Http.Resolve u] \/
        exists t, Direct.effects r =
                    [Http.Resolve u; Http.HttpGet (Js.startsWith "https" t) t]) \/
     Obs.youtube u = false /\
       Direct.effects r = [Http.HttpGet (Js.startsWith "https" u) u]).
Proof.
  destruct (download_outcome w url filename quality)
    as [(n & b & _ & _ & _ & [He | (encoded & u & Hu & Hdec & Hyt & He)])
       | (encoded & u & done & t & fn & Hu & Hdec & Hdone & Hr)]; cbv zeta.
  - now left.
  - right. exists encoded, u. auto 10.
  - rewrite Hr. destruct (relay_spec w done t fn) as (_ & He & _).
    destruct Hdone as [[Hyt ->] | (Hyt & -> & ->)].
    + right. exists encoded, u. split; [assumption|]. split; [assumption|].
      left. split; [assumption|]. destruct He as [-> | ->]; eauto.
    + destruct He as [-> | ->]; [now left|].
      right. exists encoded, u. auto 10.
Qed.

(** X9. The format a YouTube download is fetched from: whenever the
    handler issues a GET, its target is the source URL of the format that
    selection returns on the list of [getVideoInfo]; in particular, a
    request that names a listed format by an identifier that no other
    format of the list bears as identifier or label is served from that
    format's URL. *)
Theorem youtube_download_fetches_selected (w : Direct.World)
    (encoded u : string) (filename quality : option string)
    (result : YtDlp.info) (secure : bool) (target : string) :
  encoded <> EmptyString ->
  Js.decodeURIComponent encoded = Some u ->
  Obs.youtube u = true ->
  Direct.youtubedl w u = Some result ->
  In (Http.HttpGet secure target)
     (Direct.effects (Direct.download w (Some encoded) filename quality)) ->
  let formats := Direct.formats (Direct.getVideoInfo result) in
  (exists f, Direct.selectFormat quality formats = Some f /\
             Direct.url f = Js.Str target) /\
  (forall f q,
     quality = Some q -> q <> EmptyString ->
     In f formats -> Direct.itag f = Js.Str q ->
     (forall g, In g formats -> Spec.names q g -> g = f) ->
     Direct.url f = Js.Str target).
Proof.
  intros Hne Hdec Hyt Hres Hin formats.
  rewrite (download_youtube w encoded u filename quality Hne Hdec Hyt) in Hin.
  assert (exists f, Direct.selectFormat quality formats = Some f /\
                    Direct.url f = Js.Str target) as (f0 & Hsel & Hurl).
  { destruct (resolveYoutube_cases w u filename quality result Hres)
      as [[_ E] | [_ [E | (f & u' & fn & Hsel & Hurl & E)]]];
      rewrite E in Hin.
    - destruct Hin as [Hin | []]. discriminate.
    - destruct Hin as [Hin | []]. discriminate.
    - apply relay_fetches in Hin as ->; [eauto|].
      intros s t [H | []]. discriminate. }
  split; [eauto|].
  intros f q -> Hq Hf Hitag Huniq.
  unfold Direct.selectFormat in Hsel.
  rewrite (param_truthy_Some q Hq) in Hsel.
  destruct (List.find _ formats) as [g|] eqn:Efind.
  - injection Hsel as <-. apply find_some in Efind as [Hg Hnames].
    apply names_reflect in Hnames. now rewrite <- (Huniq g Hg Hnames).
  - apply (find_none _ _ Efind) in Hf. rewrite Hitag in Hf. simpl in Hf.
    now rewrite String.eqb_refl in Hf.
Qed.

Lemma youtube_download_fetches_selected_witness :
  exists f,
    Direct.selectFormat (Some "137")
      (Direct.formats (Direct.getVideoInfo Sample.manifest)) = Some f /\
    Direct.url f = Js.Str "https://cdn.example/137".
Proof.
  refine (proj1 (youtube_download_fetches_selected Sample.direct_world
    Sample.watch Sample.watch None (Some "137") Sample.manifest true
    "https://cdn.example/137" _ eq_refl eq_refl eq_refl _)).
  - discriminate.
  - vm_compute. right. left. reflexivity.
Defined.

Lemma relay_payload (w : Direct.World) (done : list Http.Effect) (url : string)
    (filename : option string) :
  let r := Direct.relay w done url filename in
  (Http.statusCode (Direct.res r) = 200 /\ Http.body (Direct.res r) = None /\
   exists sc ct cl events,
     Direct.get w url = Direct.Response sc ct cl events /\ sc < 400) \/
  (Http.statusCode (Direct.res r) = 500 /\ Http.body (Direct.res r) <> None /\
   Http.written (Direct.res r) = [] /\ Direct.downloadedBytes r = 0).
Proof.
  unfold Direct.relay. fold (Spec.prepared filename).
  destruct (Direct.get w url) as [| |sc ct cl events]; simpl;
    [right; repeat split; discriminate..|].
  unfold Direct.on_response.
  destruct (400 <=? sc) eqn:E; simpl.
  - right. repeat split. discriminate.
  - apply Z.leb_gt in E. left.
    match goal with |- context [Direct.pipe events (0, ?r0)] =>
      pose proof (pipe_head events (0, r0)) as [Hs _];
      pose proof (pipe_body events (0, r0)) as Hb;
      destruct (Direct.pipe events (0, r0)) as [n res'] end.
    simpl in *. rewrite Hs, Hb.
    split; [|split; [|eauto 8]];
      destruct cl as [v|], ct as [v'|]; simpl;
      repeat match goal with
      | |- context [if ?b then _ else _] => destruct b
      end; reflexivity.
Qed.

(** X10. The replies of the url/quality handler: the status is 200, 400,
    404 or 500; it is 200 exactly when no error body is sent, and then the
    upstream has answered below 400; with any other status no byte of
    payload has been written and none is counted. *)
Theorem download_payload_only_with_200 (w : Direct.World)
    (url filename quality : option string) :
  let r := Direct.download w url filename quality in
  (Http.statusCode (Direct.res r) = 200 \/ Http.statusCode (Direct.res r) = 400 \/
   Http.statusCode (Direct.res r) = 404 \/ Http.statusCode (Direct.res r) = 500) /\
  (Http.statusCode (Direct.res r) = 200 <-> Http.body (Direct.res r) = None) /\
  (Http.statusCode (Direct.res r) = 200 ->
   exists secure target sc ct cl events,
     In (Http.HttpGet secure target) (Direct.effects r) /\
     Direct.get w target = Direct.Response sc ct cl events /\ sc < 400) /\
  (Http.statusCode (Direct.res r) <> 200 ->
   Http.written (Direct.res r) = [] /\ Direct.downloadedBytes r = 0).
Proof.
  destruct (download_outcome w url filename quality)
    as [(n & b & Hres & Hn & Hbytes & _)
       | (encoded & u & done & t & fn & _ & _ & _ & Hr)]; cbv zeta.
  - rewrite Hres, Hbytes. simpl.
    split; [tauto|]. split; [split; [lia | discriminate]|].
    split; [lia | auto].
  - rewrite Hr.
    destruct (relay_payload w done t fn)
      as [(Hs & Hb & sc & ct & cl & events & Hget & Hsc)
         | (Hs & Hb & Hw & Hn)].
    + rewrite Hs, Hb. split; [tauto|]. split; [tauto|].
      split; [|congruence]. intros _.
      exists (Js.startsWith "https" t), t, sc, ct, cl, events.
      split; [|auto]. unfold Direct.relay. rewrite Hget.
      destruct (Direct.on_response _ _ _ _ _). simpl.
      apply in_or_app. right. now left.
    + rewrite Hs, Hw, Hn. split; [tauto|].
      split; [split; [discriminate | intros; contradiction]|].
      split; [discriminate | auto].
Qed.

Lemma download_payload_only_with_200_witness :
  Http.written (Direct.res
    (Direct.download Sample.rejecting_world (Some Sample.watch) None None)) = [] /\
  Direct.downloadedBytes
    (Direct.download Sample.rejecting_world (Some Sample.watch) None None) = 0.
Proof.
  apply (download_payload_only_with_200 Sample.rejecting_world
           (Some Sample.watch) None None).
  vm_compute. discriminate.
Defined.

(** X11. The relay answers with the upstream's content type when the
    upstream names one and with application/octet-stream otherwise. *)
Theorem piped_content_type (sc : Z) (ct cl : option string)
    (events : list Http.StreamEvent) (filename : option string) :
  sc < 400 ->
  Http.headers (snd (Direct.on_response sc ct cl events (Spec.prepared filename)))
    !! "Content-Type" =
  Some (match ct with
        | Some v => if Js.param_truthy ct then v else "application/octet-stream"
        | None => "application/octet-stream"
        end).
Proof.
  intros Hsc. unfold Direct.on_response.
  destruct (400 <=? sc) eqn:E; [apply Z.leb_le in E; lia|].
  match goal with |- context [Direct.pipe events (0, ?r)] =>
    destruct (pipe_head events (0, r)) as [_ ->] end.
  cbn [snd].
  assert (Http.headers (Spec.prepared filename) !! "Content-Type" =
          Some "application/octet-stream"%string) as H0.
  { unfold Spec.prepared. rewrite !lookup_setHeader_ne by discriminate.
    apply lookup_setHeader_eq. }
  assert (forall r : Http.Res,
            Http.headers
              match cl with
              | Some v => if Js.param_truthy cl
                          then Http.setHeader "Content-Length" v r else r
              | None => r
              end !! "Content-Type" = Http.headers r !! "Content-Type") as Hcl.
  { intros r. destruct cl as [v|]; [|reflexivity].
    destruct (Js.param_truthy (Some v)); [|reflexivity].
    now rewrite lookup_setHeader_ne by discriminate. }
  rewrite Hcl. destruct ct as [v|]; [|exact H0].
  destruct (Js.param_truthy (Some v)); [apply lookup_setHeader_eq | exact H0].
Qed.

Lemma piped_content_type_witness :
  Http.headers (snd (Direct.on_response 200 (Some "video/mp4") None []
                       (Spec.prepared None))) !! "Content-Type" =
  Some "video/mp4"%string.
Proof. apply (piped_content_type 200 (Some "video/mp4") None [] None). lia. Defined.

Lemma on_event_closed (ev : Http.StreamEvent) (n : Z) (res : Http.Res) :
  Obs.open res = false ->
  fst (Direct.on_event ev (n, res)) = n /\
  Http.written (snd (Direct.on_event ev (n, res))) = Http.written res /\
  Obs.open (snd (Direct.on_event ev (n, res))) = false.
Proof.
  intros Ho.
  assert (Direct.flowing res = false) as Hf.
  { unfold Direct.flowing. fold (Obs.open res). now rewrite Ho. }
  destruct ev as [chunk| | |]; cbn [Direct.on_event]; rewrite ?Hf; cbn [fst snd];
    auto; unfold Obs.open in *; cbn; repeat split; auto.
  - apply andb_false_r.
Qed.

Lemma pipe_closed (events : list Http.StreamEvent) (n : Z) (res : Http.Res) :
  Obs.open res = false ->
  fst (Direct.pipe events (n, res)) = n /\
  Http.written (snd (Direct.pipe events (n, res))) = Http.written res /\
  Obs.open (snd (Direct.pipe events (n, res))) = false.
Proof.
  revert n res. induction events as [|ev events IH]; intros n res Ho; [auto|].
  rewrite pipe_cons.
  destruct (on_event_closed ev n res Ho) as (Hn & Hw & Ho1).
  destruct (Direct.on_event ev (n, res)) as [n1 res1]. cbn [fst snd] in *.
  destruct (IH n1 res1 Ho1) as (-> & -> & ->). auto.
Qed.

(** X12. What [response.pipe(res)] and the byte counter do with any
    sequence of events. What is written to the response is the payload of
    some of the events, in their order, and the counter has grown by the
    number of these bytes: a chunk is counted exactly when it is written.
    Once the response has been ended or the client's socket has closed, no
    event counts or writes anything; the end of the upstream, when it
    comes while the upstream flows, and the closing of the socket put the
    response into that state. *)
Theorem pipe_counts_what_it_writes (events : list Http.StreamEvent) (n : Z)
    (res : Http.Res) :
  (exists taken,
     sublist taken events /\
     Http.written (snd (Direct.pipe events (n, res))) =
       Http.written res ++ Spec.payload taken /\
     fst (Direct.pipe events (n, res)) =
       n + Z.of_nat (length (Spec.payload taken))) /\
  (Obs.open res = false ->
   fst (Direct.pipe events (n, res)) = n /\
   Http.written (snd (Direct.pipe events (n, res))) = Http.written res) /\
  Obs.open (snd (Direct.on_event Http.SocketClosed (n, res))) = false /\
  (Direct.flowing res = true ->
   Obs.open (snd (Direct.on_event Http.End (n, res))) = false).
Proof.
  refine (conj _ (conj _ (conj _ _))).
  - revert n res. induction events as [|ev events IH]; intros n res.
    + exists []. cbn. rewrite app_nil_r. repeat split; [constructor | lia].
    + rewrite pipe_cons.
      assert (Direct.on_event ev (n, res) = (n, res) \/
              Http.written (snd (Direct.on_event ev (n, res))) =
                Http.written res ++ Spec.payload [ev] /\
              fst (Direct.on_event ev (n, res)) =
                n + Z.of_nat (length (Spec.payload [ev]))) as Hev.
      { destruct ev as [chunk| | |]; cbn [Direct.on_event].
        - destruct (Direct.flowing res) eqn:E; [|now left].
          right. rewrite (write_open chunk res (proj1 (flowing_open res E))).
          cbn. rewrite app_nil_r. auto.
        - destruct (Direct.flowing res) eqn:E; [|now left].
          right. destruct (open_parts res (proj1 (flowing_open res E))) as [He _].
          unfold Http.end_. rewrite He. cbn. rewrite app_nil_r. split; [auto | lia].
        - right. cbn. rewrite app_nil_r. split; [auto | lia].
        - right. cbn. rewrite app_nil_r. split; [auto | lia]. }
      destruct Hev as [-> | [Hw Hn]].
      * destruct (IH n res) as (taken & Hs & Hw & Hn).
        exists taken. split; [now apply sublist_cons | auto].
      * destruct (Direct.on_event ev (n, res)) as [n1 res1]. cbn [fst snd] in *.
        destruct (IH n1 res1) as (taken & Hs & Hw1 & Hn1).
        exists (ev :: taken). split; [now apply sublist_skip|].
        change (ev :: taken) with ([ev] ++ taken).
        rewrite payload_app, length_app, Hw1, Hn1, Hw, Hn, app_assoc.
        split; [reflexivity | lia].
  - intros Ho. destruct (pipe_closed events n res Ho) as (H1 & H2 & _). auto.
  - cbn. unfold Obs.open. cbn. apply andb_false_r.
  - intros Hf. cbn [Direct.on_event]. rewrite Hf. cbn [snd].
    destruct (open_parts res (proj1 (flowing_open res Hf))) as [He _].
    unfold Http.end_. rewrite He. reflexivity.
Qed.

(** X13. The file name that the relays put into the Content-Disposition
    header consists of letters, digits, the marks [-_.!~*()] and percent
    escapes only: whatever name is asked for or derived from the title, the
    header holds no quote, no separator, no control character and no
    white space from it. This holds for the url/quality handler and for the
    untracked yt-dlp download, at every point of the transfer. *)
Theorem disposition_filename_safe :
  (forall (w : Direct.World) (url filename quality : option string) (v : string),
     Http.headers (Direct.res (Direct.download w url filename quality))
       !! "Content-Disposition" = Some v ->
     exists safeFilename,
       v = Http.attachment safeFilename /\
       Obs.all_chars Obs.header_safe safeFilename = true) /\
  (forall (w : Streamed.World) (videoUrl itag filename : option string)
          (evs : list Streamed.Event) (v : string),
     Http.headers (Streamed.res
       (Streamed.run evs (Streamed.start w videoUrl itag filename)))
       !! "Content-Disposition" = Some v ->
     exists safeFilename,
       v = Http.attachment safeFilename /\
       Obs.all_chars Obs.header_safe safeFilename = true).
Proof.
  split.
  - intros w url filename quality v.
    destruct (download_outcome w url filename quality)
      as [(n & b & -> & _) | (encoded & u & done & t & fn & _ & _ & _ & ->)].
    + simpl. rewrite lookup_empty. discriminate.
    + destruct (relay_spec w done t fn) as (-> & _).
      rewrite prepared_disposition. intros [= <-].
      eexists. split; [reflexivity | apply safeFilename_safe].
  - intros w videoUrl itag filename evs v.
    assert (forall (s : Streamed.State) (ev : Streamed.Event),
              Http.headers (Streamed.res (Streamed.step ev s)) =
              Http.headers (Streamed.res s)) as Hstep.
    { intros s ev. destruct ev as [[chunk| | |]|code| |]; unfold Streamed.step;
        destruct (Streamed.phase s); simpl; crush_step;
        rewrite ?write_head, ?end_head; reflexivity. }
    assert (forall s : Streamed.State,
              Http.headers (Streamed.res (Streamed.run evs s)) =
              Http.headers (Streamed.res s)) as Hrun.
    { induction evs as [|ev evs IH]; intros s; [reflexivity|].
      rewrite streamed_run_cons, IH. apply Hstep. }
    rewrite Hrun. unfold Streamed.start.
    destruct videoUrl as [u|], itag as [i|];
      try (simpl; rewrite lookup_empty; discriminate).
    destruct (negb _ || negb _); [simpl; rewrite lookup_empty; discriminate|].
    destruct (negb (Streamed.validateURL w u));
      [simpl; rewrite lookup_empty; discriminate|].
    destruct (Streamed.youtubedl w u) as [info|];
      [|simpl; rewrite lookup_empty; discriminate].
    destruct (List.find _ (YtDlp.formats info)) as [format|];
      [|simpl; rewrite lookup_empty; discriminate].
    match goal with |- context [match ?n with Some _ => _ | None => _ end] =>
      destruct n as [name|] end;
      [|simpl; rewrite lookup_empty; discriminate].
    cbv zeta. cbn [Streamed.res].
    destruct (Js.truthy (YtDlp.filesize format));
      rewrite !lookup_setHeader_ne by discriminate;
      rewrite lookup_setHeader_eq; intros [= <-];
      (eexists; split; [reflexivity | apply safeFilename_safe]).
Qed.

Lemma disposition_filename_safe_witness :
  exists safeFilename,
    Http.attachment "download.mp4" = Http.attachment safeFilename /\
    Obs.all_chars Obs.header_safe safeFilename = true.
Proof.
  apply (proj1 disposition_filename_safe Sample.direct_world
           (Some "http://files.example/a%20b.bin") None None).
  vm_compute. reflexivity.
Defined.

(** ** The tracked download, continued *)

Lemma catch_parts (s : Tracked.State) :
  Tracked.activeDownloads (Tracked.catch s) =
    Tracked.activeDownloads (Tracked.forget s) /\
  Tracked.childProcess (Tracked.catch s) = Tracked.childProcess (Tracked.kill s) /\
  Tracked.effects (Tracked.catch s) = Tracked.effects (Tracked.kill s) /\
  Tracked.res (Tracked.catch s) =
    (if Http.headersSent (Tracked.res s) then Tracked.res s
     else Http.reply 500 (Http.Json "Download failed: ") (Tracked.res s)).
Proof.
  unfold Tracked.catch, Tracked.fail, Tracked.kill, Tracked.forget,
    Tracked.clearInterval, Tracked.set_phase, Tracked.set_res, Tracked.set_table.
  simpl.
  destruct (Tracked.downloadId s) as [id|]; simpl;
    destruct (Tracked.childProcess s) as [[|]|] eqn:Hc; simpl;
    destruct (Http.headersSent (Tracked.res s)); simpl; rewrite ?Hc; auto.
Qed.

Lemma forget_parts (s : Tracked.State) :
  Tracked.activeDownloads (Tracked.forget s) =
    match Tracked.downloadId s with
    | Some id => delete id (Tracked.activeDownloads s)
    | None => Tracked.activeDownloads s
    end /\
  Tracked.childProcess (Tracked.forget s) = Tracked.childProcess s /\
  Tracked.effects (Tracked.forget s) = Tracked.effects s /\
  Tracked.res (Tracked.forget s) = Tracked.res s /\
  Tracked.phase (Tracked.forget s) = Tracked.phase s.
Proof.
  unfold Tracked.forget. destruct (Tracked.downloadId s); simpl; auto.
Qed.

Lemma kill_parts (s : Tracked.State) :
  Tracked.activeDownloads (Tracked.kill s) = Tracked.activeDownloads s /\
  Tracked.downloadId (Tracked.kill s) = Tracked.downloadId s /\
  Tracked.res (Tracked.kill s) = Tracked.res s /\
  Tracked.phase (Tracked.kill s) = Tracked.phase s /\
  (Tracked.childProcess (Tracked.kill s) = Tracked.childProcess s /\
   Tracked.effects (Tracked.kill s) = Tracked.effects s \/
   Tracked.childProcess s = Some false /\
   Tracked.childProcess (Tracked.kill s) = Some true /\
   Tracked.effects (Tracked.kill s) = Tracked.effects s ++ [Http.Kill]).
Proof.
  unfold Tracked.kill. destruct (Tracked.childProcess s) as [[|]|] eqn:Hc;
    simpl; rewrite ?Hc; auto 10.
Qed.

(** What one event does to the table: nothing, the removal of the entry of
    this download or of the entry that a cancel request names, or an update
    of the entry of this download, by itself or by a download that shares
    the key. *)
Lemma step_table (w : Tracked.World) (ev : Tracked.Event) (s : Tracked.State) :
  let t := Tracked.activeDownloads s in
  let t' := Tracked.activeDownloads (Tracked.step w ev s) in
  t' = t \/
  (exists id, (Tracked.downloadId s = Some id \/ ev = Tracked.CancelRequest id) /\
              t' = delete id t) \/
  (exists id e e', Tracked.downloadId s = Some id /\ t !! id = Some e /\
                   t' = <[id := e']> t).
Proof.
  cbv zeta.
  assert (forall s0 : Tracked.State,
            Tracked.downloadId s0 = Tracked.downloadId s ->
            Tracked.activeDownloads s0 = Tracked.activeDownloads s ->
            Tracked.activeDownloads (Tracked.forget s0) = Tracked.activeDownloads s \/
            (exists id, (Tracked.downloadId s = Some id \/
                         ev = Tracked.CancelRequest id) /\
               Tracked.activeDownloads (Tracked.forget s0) =
                 delete id (Tracked.activeDownloads s)) \/
            (exists id e e', Tracked.downloadId s = Some id /\
               Tracked.activeDownloads s !! id = Some e /\
               Tracked.activeDownloads (Tracked.forget s0) =
                 <[id := e']> (Tracked.activeDownloads s))) as Hforget.
  { intros s0 Hd Ha. destruct (forget_parts s0) as (-> & _).
    rewrite Hd, Ha. destruct (Tracked.downloadId s) as [id|]; eauto 8. }
  unfold Tracked.step.
  destruct ev as [|[chunk| | |]|code| | | | | |id|op].
  all: try (destruct (Tracked.phase s) as [u i f| |] eqn:Hp;
            [try (left; reflexivity) | | left; reflexivity]).
  - (* Resolved, suspended *)
    destruct (resume_cases w u i f s)
      as [(r & _ & ->) | [(b & ->) | (id & e & e' & r & iv & Hid & He & _ & _ & ->)]].
    + destruct (catch_parts (Tracked.set_res r s)) as (-> & _).
      now apply Hforget.
    + now apply (Hforget s).
    + right. right. exists id, e, e'. auto.
  - (* Resolved, later *)
    left. reflexivity.
  - (* stdout data *)
    unfold Tracked.listener. cbv zeta.
    change (Tracked.res (Tracked.add_bytes (Z.of_nat (length chunk)) s))
      with (Tracked.res s).
    destruct (Http.writable (Tracked.res s)); left; reflexivity.
  - (* stdout end *)
    unfold Tracked.listener. cbv zeta.
    change (Tracked.res (Tracked.clearInterval s)) with (Tracked.res s).
    destruct (Http.writable (Tracked.res s)); now apply Hforget.
  - (* socket closed *)
    left. reflexivity.
  - (* drain *)
    left. reflexivity.
  - (* child close *)
    unfold Tracked.listener, Tracked.fail. cbv zeta.
    pose proof (Hforget (Tracked.clearInterval s) eq_refl eq_refl) as H.
    destruct code as [[|c|c]|];
      try destruct (Http.headersSent _); exact H.
  - (* child error *)
    unfold Tracked.listener, Tracked.fail.
    pose proof (Hforget (Tracked.clearInterval s) eq_refl eq_refl) as H.
    destruct (Http.headersSent _); exact H.
  - (* request close *)
    unfold Tracked.listener. cbv zeta.
    destruct (kill_parts (Tracked.clearInterval s)) as (Ha & Hd & _).
    rewrite Hd, Ha. cbn [Tracked.clearInterval Tracked.downloadId
                          Tracked.activeDownloads].
    destruct (Tracked.downloadId s) as [id|] eqn:Hid; [|left; exact Ha].
    destruct (Tracked.activeDownloads s !! id) as [e|] eqn:He; [|left; exact Ha].
    right. right. exists id, e, (Tracked.mark_cancelled e).
    split; [reflexivity|]. split; [assumption|]. reflexivity.
  - (* request timeout *)
    left. apply (kill_parts (Tracked.clearInterval s)).
  - (* progress tick *)
    unfold Tracked.listener.
    destruct (Tracked.progressInterval s); [|left; reflexivity].
    destruct (Tracked.downloadId s) as [id|] eqn:Hid; [|left; reflexivity].
    destruct (Tracked.activeDownloads s !! id) as [e|] eqn:He;
      [|left; reflexivity].
    right. right. eexists id, e, _. eauto.
  - (* deletion timer *)
    destruct (Tracked.timers s); [left; reflexivity|].
    now apply (Hforget s).
  - (* cancel request *)
    unfold Tracked.cancelDownload.
    destruct (Tracked.activeDownloads s !! id); [|left; reflexivity].
    right. left. exists id. auto.
  - (* a write of the download that shares the key *)
    destruct (Tracked.downloadId s) as [id|] eqn:Hid; [|left; reflexivity].
    destruct (Tracked.activeDownloads s !! id) as [e|] eqn:He;
      [|left; reflexivity].
    destruct (Tracked.shared_write op e) as [e'|].
    + right. right. exists id, e, e'. auto.
    + right. left. exists id. auto.
Qed.

(** What one event does to the child process and to the requests made:
    nothing, the kill of the running child, or its spawn when the metadata
    call settles. *)
Lemma step_process (w : Tracked.World) (ev : Tracked.Event) (s : Tracked.State) :
  let s' := Tracked.step w ev s in
  (Tracked.childProcess s' = Tracked.childProcess s /\
   Tracked.effects s' = Tracked.effects s) \/
  (Tracked.childProcess s = Some false /\
   Tracked.childProcess s' = Some true /\
   Tracked.effects s' = Tracked.effects s ++ [Http.Kill]) \/
  (exists u i f,
     Tracked.phase s = Tracked.Awaiting u i f /\
     Tracked.phase s' = Tracked.Streaming /\
     Tracked.childProcess s' = Some false /\
     Tracked.effects s' = Tracked.effects s ++ [Http.Spawn u i]).
Proof.
  cbv zeta.
  assert (forall s0 : Tracked.State,
            Tracked.childProcess s0 = Tracked.childProcess s ->
            Tracked.effects s0 = Tracked.effects s ->
            (Tracked.childProcess s0 = Tracked.childProcess s /\
             Tracked.effects s0 = Tracked.effects s) \/
            (Tracked.childProcess s = Some false /\
             Tracked.childProcess s0 = Some true /\
             Tracked.effects s0 = Tracked.effects s ++ [Http.Kill]) \/
            (exists u i f,
               Tracked.phase s = Tracked.Awaiting u i f /\
               Tracked.phase s0 = Tracked.Streaming /\
               Tracked.childProcess s0 = Some false /\
               Tracked.effects s0 = Tracked.effects s ++ [Http.Spawn u i]))
    as Hsame by auto.
  assert (forall s0 : Tracked.State,
            Tracked.childProcess s0 = Tracked.childProcess s ->
            Tracked.effects s0 = Tracked.effects s ->
            forall s1 : Tracked.State,
            Tracked.childProcess s1 = Tracked.childProcess (Tracked.kill s0) ->
            Tracked.effects s1 = Tracked.effects (Tracked.kill s0) ->
            (Tracked.childProcess s1 = Tracked.childProcess s /\
             Tracked.effects s1 = Tracked.effects s) \/
            (Tracked.childProcess s = Some false /\
             Tracked.childProcess s1 = Some true /\
             Tracked.effects s1 = Tracked.effects s ++ [Http.Kill]) \/
            (exists u i f,
               Tracked.phase s = Tracked.Awaiting u i f /\
               Tracked.phase s1 = Tracked.Streaming /\
               Tracked.childProcess s1 = Some false /\
               Tracked.effects s1 = Tracked.effects s ++ [Http.Spawn u i]))
    as Hkill.
  { intros s0 Hc He s1 Hc1 He1. rewrite Hc1, He1.
    destruct (kill_parts s0) as (_ & _ & _ & _ & [[-> ->] | (Hf & -> & ->)]).
    - left. auto.
    - right. left. rewrite <- Hc, <- He. auto. }
  unfold Tracked.step.
  destruct ev as [|[chunk| | |]|code| | | | | |id|op].
  all: try (destruct (Tracked.phase s) as [u i f| |] eqn:Hp;
            [try (left; split; reflexivity) | | left; split; reflexivity]).
  - (* Resolved, suspended *)
    destruct (resume_cases w u i f s)
      as [(r & _ & ->) | [(b & ->) | (id & e & e' & r & iv & _ & _ & _ & _ & ->)]].
    + destruct (catch_parts (Tracked.set_res r s)) as (_ & Hc & He & _).
      now apply (Hkill (Tracked.set_res r s)).
    + destruct (forget_parts s) as (_ & Hc & He & _).
      now apply Hsame.
    + right. right. exists u, i, f. auto.
  - (* Resolved, later *)
    left. split; reflexivity.
  - (* stdout data *)
    unfold Tracked.listener. cbv zeta.
    change (Tracked.res (Tracked.add_bytes (Z.of_nat (length chunk)) s))
      with (Tracked.res s).
    destruct (Http.writable (Tracked.res s)); left; split; reflexivity.
  - (* stdout end *)
    unfold Tracked.listener. cbv zeta.
    change (Tracked.res (Tracked.clearInterval s)) with (Tracked.res s).
    destruct (Http.writable (Tracked.res s));
      match goal with |- context [Tracked.forget ?s0] =>
        destruct (forget_parts s0) as (_ & Hc & He & _) end;
      now apply Hsame.
  - (* socket closed *)
    left. split; reflexivity.
  - (* drain *)
    left. split; reflexivity.
  - (* child close *)
    unfold Tracked.listener, Tracked.fail. cbv zeta.
    destruct (forget_parts (Tracked.clearInterval s)) as (_ & Hc & He & _).
    destruct code as [[|c|c]|]; try destruct (Http.headersSent _);
      now apply Hsame.
  - (* child error *)
    unfold Tracked.listener, Tracked.fail.
    destruct (forget_parts (Tracked.clearInterval s)) as (_ & Hc & He & _).
    destruct (Http.headersSent _); now apply Hsame.
  - (* request close *)
    unfold Tracked.listener. cbv zeta.
    set (s1 := Tracked.kill (Tracked.clearInterval s)).
    destruct (Tracked.downloadId s1) as [id|];
      [destruct (Tracked.activeDownloads s1 !! id) as [e|]|];
      now apply (Hkill (Tracked.clearInterval s)).
  - (* request timeout *)
    now apply (Hkill (Tracked.clearInterval s)).
  - (* progress tick *)
    unfold Tracked.listener.
    destruct (Tracked.progressInterval s); [|left; split; reflexivity].
    destruct (Tracked.downloadId s) as [id|]; [|left; split; reflexivity].
    destruct (Tracked.activeDownloads s !! id) as [e|];
      left; split; reflexivity.
  - (* deletion timer *)
    destruct (Tracked.timers s); [left; split; reflexivity|].
    destruct (forget_parts s) as (_ & Hc & He & _). now apply Hsame.
  - (* cancel request *)
    left. split; reflexivity.
  - (* a write of the download that shares the key *)
    destruct (Tracked.downloadId s) as [id|]; [|left; split; reflexivity].
    destruct (Tracked.activeDownloads s !! id) as [e|];
      [|left; split; reflexivity].
    destruct (Tracked.shared_write op e); left; split; reflexivity.
Qed.

(** What one event does to the response. *)
Lemma step_res (w : Tracked.World) (ev : Tracked.Event) (s : Tracked.State) :
  let r := Tracked.res s in
  let r' := Tracked.res (Tracked.step w ev s) in
  r' = r \/ r' = Http.destroy r \/ r' = Http.drain r \/
  (Tracked.phase s = Tracked.Streaming /\
   ((exists chunk, r' = Http.write chunk r) \/ r' = Http.end_ r)) \/
  (Http.headersSent r = false /\ exists b, r' = Http.reply 500 b r) \/
  (exists u i f r0,
     Tracked.phase s = Tracked.Awaiting u i f /\ Spec.same_but_head r r0 /\
     (r' = r0 \/ exists n b, (n = 400 \/ n = 500) /\ r' = Http.reply n b r0)).
Proof.
  cbv zeta.
  assert (forall s0 : Tracked.State,
            Tracked.res s0 = Tracked.res s ->
            forall s1 : Tracked.State,
            Tracked.res s1 = Tracked.res (Tracked.fail "Download failed with code" s0) \/
            Tracked.res s1 = Tracked.res (Tracked.fail "Download process error: " s0) ->
            Tracked.res s1 = Tracked.res s \/
            Tracked.res s1 = Http.destroy (Tracked.res s) \/
            Tracked.res s1 = Http.drain (Tracked.res s) \/
            (Tracked.phase s = Tracked.Streaming /\
             ((exists chunk, Tracked.res s1 = Http.write chunk (Tracked.res s)) \/
              Tracked.res s1 = Http.end_ (Tracked.res s))) \/
            (Http.headersSent (Tracked.res s) = false /\
             exists b, Tracked.res s1 = Http.reply 500 b (Tracked.res s)) \/
            (exists u i f r0,
               Tracked.phase s = Tracked.Awaiting u i f /\
               Spec.same_but_head (Tracked.res s) r0 /\
               (Tracked.res s1 = r0 \/
                exists n b, (n = 400 \/ n = 500) /\
                            Tracked.res s1 = Http.reply n b r0))) as Hfail.
  { intros s0 Hr s1 H1. unfold Tracked.fail in H1. rewrite Hr in H1.
    destruct (Http.headersSent (Tracked.res s)) eqn:Eh.
    - left. destruct H1 as [-> | ->]; exact Hr.
    - do 4 right. left. split; [reflexivity|].
      destruct H1 as [-> | ->]; eexists; reflexivity. }
  unfold Tracked.step.
  destruct ev as [|[chunk| | |]|code| | | | | |id|op].
  all: try (destruct (Tracked.phase s) as [u i f| |] eqn:Hp;
            [try (left; reflexivity) | | left; reflexivity]).
  - (* Resolved, suspended *)
    do 5 right. exists u, i, f.
    destruct (resume_cases w u i f s)
      as [(r & Hr & ->) | [(b & ->) | (id & e & e' & r & iv & _ & _ & _ & Hr & ->)]].
    + exists r. split; [reflexivity|]. split; [assumption|].
      destruct (catch_parts (Tracked.set_res r s)) as (_ & _ & _ & ->).
      cbn [Tracked.res Tracked.set_res].
      destruct (Http.headersSent r); eauto 8.
    + exists (Tracked.res s). split; [reflexivity|].
      split; [apply same_but_head_refl|]. right.
      exists 400, b. split; [auto|]. cbn [Tracked.res Tracked.set_phase Tracked.set_res].
      reflexivity.
    + exists r. split; [reflexivity|]. split; [assumption|]. left. reflexivity.
  - (* Resolved, later *)
    left. reflexivity.
  - (* stdout data *)
    unfold Tracked.listener. cbv zeta.
    change (Tracked.res (Tracked.add_bytes (Z.of_nat (length chunk)) s))
      with (Tracked.res s).
    unfold Http.writable.
    do 3 right. left. split; [reflexivity|].
    left. exists chunk. reflexivity.
  - (* stdout end *)
    unfold Tracked.listener. cbv zeta.
    change (Tracked.res (Tracked.clearInterval s)) with (Tracked.res s).
    unfold Http.writable.
    match goal with |- context [Tracked.forget ?s0] =>
      destruct (forget_parts s0) as (_ & _ & _ & -> & _) end.
    do 3 right. left. split; [reflexivity|].
    right. reflexivity.
  - (* socket closed *)
    right. left. reflexivity.
  - (* drain *)
    right. right. left. reflexivity.
  - (* child close *)
    unfold Tracked.listener. cbv zeta.
    destruct (forget_parts (Tracked.clearInterval s)) as (_ & _ & _ & Hr & _).
    destruct code as [[|c|c]|];
      [left; exact Hr | apply (Hfail _ Hr); left; reflexivity..].
  - (* child error *)
    unfold Tracked.listener.
    destruct (forget_parts (Tracked.clearInterval s)) as (_ & _ & _ & Hr & _).
    apply (Hfail _ Hr). right. reflexivity.
  - (* request close *)
    unfold Tracked.listener. cbv zeta.
    set (s1 := Tracked.kill (Tracked.clearInterval s)).
    destruct (kill_parts (Tracked.clearInterval s)) as (_ & _ & Hr & _).
    fold s1 in Hr.
    destruct (Tracked.downloadId s1) as [id|];
      [destruct (Tracked.activeDownloads s1 !! id) as [e|]|];
      left; exact Hr.
  - (* request timeout *)
    left. apply (kill_parts (Tracked.clearInterval s)).
  - (* progress tick *)
    unfold Tracked.listener.
    destruct (Tracked.progressInterval s); [|left; reflexivity].
    destruct (Tracked.downloadId s) as [id|]; [|left; reflexivity].
    destruct (Tracked.activeDownloads s !! id) as [e|]; left; reflexivity.
  - (* deletion timer *)
    destruct (Tracked.timers s); [left; reflexivity|].
    left. apply (forget_parts s).
  - (* cancel request *)
    left. reflexivity.
  - (* a write of the download that shares the key *)
    destruct (Tracked.downloadId s) as [id|]; [|left; reflexivity].
    destruct (Tracked.activeDownloads s !! id) as [e|]; [|left; reflexivity].
    destruct (Tracked.shared_write op e); left; reflexivity.
Qed.

Lemma step_phase_kept (w : Tracked.World) (ev : Tracked.Event) (s : Tracked.State)
    (u i : string) (f : option string) :
  Tracked.phase (Tracked.step w ev s) = Tracked.Awaiting u i f ->
  Tracked.phase s = Tracked.Awaiting u i f.
Proof.
  intros H. destruct (step_fields w ev s) as (_ & _ & [Hp | Hp] & _).
  - now destruct (Hp u i f).
  - now rewrite <- Hp.
Qed.

Lemma step_idle (w : Tracked.World) (ev : Tracked.Event) (s : Tracked.State) :
  Obs.tracked_idle s -> Obs.tracked_idle (Tracked.step w ev s).
Proof.
  intros (He & Hc & Hp).
  assert (forall u i f, Tracked.phase (Tracked.step w ev s) <>
                        Tracked.Awaiting u i f) as Hp'.
  { intros u i f H. apply step_phase_kept in H. now apply Hp in H. }
  destruct (step_process w ev s)
    as [[Hc' He'] | [(Hf & _) | (u & i & f & Hph & _)]].
  - split; [congruence|]. split; [congruence | exact Hp'].
  - congruence.
  - now apply Hp in Hph.
Qed.

Lemma step_trace (w : Tracked.World) (ev : Tracked.Event) (s : Tracked.State)
    (u i : string) :
  Obs.tracked_trace u i s -> Obs.tracked_trace u i (Tracked.step w ev s).
Proof.
  intros H.
  assert (forall u' i' f, Tracked.phase (Tracked.step w ev s) =
                          Tracked.Awaiting u' i' f ->
                          Tracked.phase s = Tracked.Awaiting u' i' f) as Hkept
    by (intros u' i' f; apply step_phase_kept).
  destruct (step_process w ev s)
    as [[Hc' He'] | [(Hf & Hc' & He') | (u' & i' & f & Hph & Hph' & Hc' & He')]];
    destruct H as [(He & Hc & Hp) | (Hp & [[He Hc] | [He Hc]])];
    try congruence.
  - left. split; [congruence|]. split; [congruence|].
    intros u' i' f H. apply Hkept in H. now apply Hp in H.
  - right. split; [intros u' i' f H; apply Hkept in H; now apply Hp in H|].
    left. split; congruence.
  - right. split; [intros u' i' f H; apply Hkept in H; now apply Hp in H|].
    right. split; congruence.
  - right. split; [intros u' i' f H; apply Hkept in H; now apply Hp in H|].
    right. rewrite He', He. auto.
  - destruct (Hp u' i' f Hph) as [-> ->].
    right. split; [intros u0 i0 f0; rewrite Hph'; discriminate|].
    left. rewrite He', He. auto.
Qed.

Lemma start_trace (w : Tracked.World) (table : gmap string Tracked.Entry)
    (videoUrl itag filename : option string) :
  let s := Tracked.start w table videoUrl itag filename in
  Obs.tracked_idle s \/
  exists u i, videoUrl = Some u /\ itag = Some i /\ Obs.tracked_trace u i s.
Proof.
  unfold Tracked.start. cbv zeta.
  assert (forall r, Obs.tracked_idle
            (Tracked.set_res r
               {| Tracked.activeDownloads := table;
                  Tracked.phase := Tracked.Returned;
                  Tracked.downloadId := None; Tracked.childProcess := None;
                  Tracked.progressInterval := false;
                  Tracked.downloadedBytes := 0; Tracked.res := Http.fresh;
                  Tracked.timers := 0; Tracked.effects := [] |})) as Hidle
    by (intros r; repeat split; discriminate).
  destruct videoUrl as [u|], itag as [i|]; try (left; apply Hidle).
  destruct (negb _ || negb _); [left; apply Hidle|].
  destruct (Tracked.searchParam_v w u) as [v|].
  - right. exists u, i. split; [reflexivity|]. split; [reflexivity|].
    left. simpl. repeat split; congruence.
  - left. match goal with |- Obs.tracked_idle (Tracked.catch ?s0) =>
      destruct (catch_parts s0) as (_ & Hc & He & _);
      destruct (catch_fields s0) as (_ & Hp & _) end.
    unfold Obs.tracked_idle. rewrite Hc, He, Hp.
    repeat split; discriminate.
Qed.

(** X14. The requests a tracked download makes, whatever the events and
    their order: at most one metadata call, for the requested URL; after
    it at most one spawn of yt-dlp, for the requested URL and itag; and
    kills only after the spawn. The handler holds a child exactly when it
    has spawned one. *)
Theorem tracked_effects_shape (w : Tracked.World)
    (table : gmap string Tracked.Entry) (videoUrl itag filename : option string)
    (evs : list Tracked.Event) :
  let s := Tracked.run w evs (Tracked.start w table videoUrl itag filename) in
  (Tracked.effects s = [] /\ Tracked.childProcess s = None) \/
  exists u i,
    videoUrl = Some u /\ itag = Some i /\
    (Tracked.effects s = [Http.Resolve u] /\ Tracked.childProcess s = None \/
     exists kills,
       Tracked.effects s = [Http.Resolve u; Http.Spawn u i] ++ kills /\
       Forall (fun e => e = Http.Kill) kills /\
       is_Some (Tracked.childProcess s)).
Proof.
  cbv zeta.
  destruct (start_trace w table videoUrl itag filename)
    as [H | (u & i & Hu & Hi & H)]; revert H;
    generalize (Tracked.start w table videoUrl itag filename).
  - induction evs as [|ev evs IH]; intros s H.
    + left. destruct H as (He & Hc & _). auto.
    + rewrite tracked_run_cons. now apply IH, step_idle.
  - induction evs as [|ev evs IH]; intros s H.
    + change (Tracked.run w [] s) with s.
      right. exists u, i. split; [assumption|]. split; [assumption|].
      destruct H as [(He & Hc & _) | (_ & [[He Hc] | [He Hc]])];
        [left; auto | right; exists [] | right; exists [Http.Kill]];
        rewrite He, Hc; repeat split; eauto.
    + rewrite tracked_run_cons. now apply IH, step_trace.
Qed.

(** *** The other entries of the table *)

Lemma start_downloadId (w : Tracked.World) (table : gmap string Tracked.Entry)
    (videoUrl itag filename : option string) :
  let s := Tracked.start w table videoUrl itag filename in
  (Tracked.downloadId s = None /\ Tracked.activeDownloads s = table) \/
  (Tracked.downloadId s = Some (Js.to_string (Js.Num (Tracked.now w))) /\
   (Tracked.activeDownloads s =
      delete (Js.to_string (Js.Num (Tracked.now w))) table \/
    exists e, Tracked.activeDownloads s =
                <[Js.to_string (Js.Num (Tracked.now w)) := e]> table)).
Proof.
  unfold Tracked.start. cbv zeta.
  destruct videoUrl as [u|], itag as [i|]; try (left; split; reflexivity).
  destruct (negb _ || negb _); [left; split; reflexivity|].
  destruct (Tracked.searchParam_v w u) as [v|].
  - right. split; [reflexivity|]. right. eexists. reflexivity.
  - right. match goal with |- context [Tracked.catch ?s0] =>
      destruct (catch_parts s0) as (-> & _);
      destruct (catch_fields s0) as (-> & _);
      destruct (forget_parts s0) as (-> & _) end.
    split; [reflexivity|]. left. reflexivity.
Qed.

Lemma step_other_entry (w : Tracked.World) (ev : Tracked.Event)
    (s : Tracked.State) (id : string) :
  Tracked.downloadId s <> Some id ->
  Tracked.activeDownloads (Tracked.step w ev s) !! id =
    if Obs.cancels id ev then None else Tracked.activeDownloads s !! id.
Proof.
  intros Hown.
  destruct (Obs.cancels id ev) eqn:Ec.
  - destruct ev; try discriminate Ec. simpl in Ec.
    apply String.eqb_eq in Ec as ->.
    unfold Tracked.step, Tracked.cancelDownload. simpl.
    destruct (Tracked.activeDownloads s !! id) eqn:E; simpl;
      [apply lookup_delete_eq | exact E].
  - destruct (step_table w ev s)
      as [-> | [(id' & Hid' & ->) | (id' & e & e' & Hid' & _ & ->)]].
    + reflexivity.
    + apply lookup_delete_ne. intros ->.
      destruct Hid' as [Hid' | ->]; [contradiction|].
      simpl in Ec. now rewrite String.eqb_refl in Ec.
    + apply lookup_insert_ne. intros ->. contradiction.
Qed.

(** X15. A tracked download leaves the entries of the other downloads
    alone: an entry under another identifier than its own is, after any
    events, what it was when the request arrived, unless one of the events
    is a cancel request for that identifier, which removes it for good. *)
Theorem other_entries_untouched (w : Tracked.World)
    (table : gmap string Tracked.Entry) (videoUrl itag filename : option string)
    (evs : list Tracked.Event) (id : string) :
  id <> Js.to_string (Js.Num (Tracked.now w)) ->
  Tracked.activeDownloads
    (Tracked.run w evs (Tracked.start w table videoUrl itag filename)) !! id =
  if existsb (Obs.cancels id) evs then None else table !! id.
Proof.
  intros Hid.
  assert (Tracked.downloadId (Tracked.start w table videoUrl itag filename)
            <> Some id /\
          Tracked.activeDownloads (Tracked.start w table videoUrl itag filename)
            !! id = table !! id) as [Hown Hstart].
  { destruct (start_downloadId w table videoUrl itag filename)
      as [[-> ->] | [-> [-> | [e ->]]]].
    - split; [discriminate | reflexivity].
    - split; [congruence | now apply lookup_delete_ne].
    - split; [congruence | now apply lookup_insert_ne]. }
  rewrite <- Hstart. revert Hown. clear Hstart.
  generalize (Tracked.start w table videoUrl itag filename).
  induction evs as [|ev evs IH]; intros s Hown; [reflexivity|].
  rewrite tracked_run_cons, IH by now rewrite step_downloadId.
  rewrite step_other_entry by assumption. simpl.
  destruct (Obs.cancels id ev), (existsb (Obs.cancels id) evs); reflexivity.
Qed.

Lemma other_entries_untouched_witness :
  Tracked.activeDownloads
    (Tracked.run Sample.tracked_world
       [Tracked.Resolved; Tracked.Stream Http.End]
       (Tracked.start Sample.tracked_world Sample.busy_table
          (Some Sample.watch) (Some "18") None)) !! "1600000000000" =
  Sample.busy_table !! "1600000000000".
Proof.
  apply (other_entries_untouched Sample.tracked_world Sample.busy_table
           (Some Sample.watch) (Some "18") None
           [Tracked.Resolved; Tracked.Stream Http.End] "1600000000000").
  vm_compute. discriminate.
Defined.

(** *** Payload and status *)

Lemma consistent_fresh : Obs.consistent Http.fresh.
Proof. unfold Obs.consistent. simpl. repeat split; auto; congruence. Qed.

Lemma consistent_reply (n : Z) (b : Http.Body) (r : Http.Res) :
  Http.written r = [] -> n = 400 \/ n = 500 ->
  Obs.consistent (Http.reply n b r).
Proof.
  intros Hw Hn. unfold Obs.consistent. simpl.
  split; [discriminate|]. split; [intros H; now destruct H | tauto].
Qed.

Lemma consistent_same (r r0 : Http.Res) :
  Spec.same_but_head r r0 -> Obs.consistent r -> Obs.consistent r0.
Proof.
  intros (Hs & Hh & He & _ & _ & _ & Hd & Hr & Hb & _). unfold Obs.consistent.
  now rewrite Hs, Hh, He, Hd, Hr, Hb.
Qed.

Lemma consistent_write (chunk : list Byte.byte) (r : Http.Res) :
  Obs.consistent r -> Obs.consistent (Http.write chunk r).
Proof.
  intros H. pose proof H as (Hopen & Hsent & Hcode & Herr). unfold Http.write.
  destruct (Http.destroyed r); [exact H|].
  destruct (Http.ended r) eqn:He; unfold Obs.consistent; cbn.
  - repeat apply conj; auto; discriminate.
  - destruct (Hopen eq_refl) as [Hs Hb]. repeat apply conj; auto.
Qed.

Lemma consistent_end (r : Http.Res) :
  Obs.consistent r -> Obs.consistent (Http.end_ r).
Proof.
  intros H. pose proof H as (Hopen & Hsent & Hcode & Herr). unfold Http.end_.
  destruct (Http.ended r) eqn:He; [exact H|].
  unfold Obs.consistent. cbn. repeat apply conj; auto; try discriminate.
  intros Hw. destruct (Hsent Hw) as (? & ? & ?). auto.
Qed.

Lemma consistent_destroy (r : Http.Res) :
  Obs.consistent r -> Obs.consistent (Http.destroy r).
Proof. intros H. exact H. Qed.

Lemma consistent_drain (r : Http.Res) :
  Obs.consistent r -> Obs.consistent (Http.drain r).
Proof. intros H. exact H. Qed.

Lemma consistent_unsent (r : Http.Res) :
  Obs.consistent r -> Http.headersSent r = false -> Http.written r = [].
Proof.
  intros (_ & Hsent & _) Hh.
  destruct (Http.written r) eqn:E; [reflexivity|].
  destruct Hsent as (_ & _ & Hsent); congruence.
Qed.

Lemma step_consistent (w : Tracked.World) (ev : Tracked.Event) (s : Tracked.State) :
  Obs.consistent (Tracked.res s) /\
  (forall u i f, Tracked.phase s = Tracked.Awaiting u i f ->
                 Http.written (Tracked.res s) = []) ->
  Obs.consistent (Tracked.res (Tracked.step w ev s)) /\
  (forall u i f, Tracked.phase (Tracked.step w ev s) = Tracked.Awaiting u i f ->
                 Http.written (Tracked.res (Tracked.step w ev s)) = []).
Proof.
  intros [Hc Ha].
  assert (forall u i f, Tracked.phase (Tracked.step w ev s) =
                        Tracked.Awaiting u i f ->
                        Http.written (Tracked.res s) = []) as Ha'.
  { intros u i f H. apply step_phase_kept in H. eauto. }
  destruct (step_res w ev s)
    as [-> | [-> | [-> | [(Hp & [[chunk ->] | ->]) | [(Hh & b & ->)
       | (u & i & f & r0 & Hp & Hr & [-> | (n & b & Hn & ->)])]]]]].
  - auto.
  - split; [now apply consistent_destroy | exact Ha'].
  - split; [now apply consistent_drain | exact Ha'].
  - split; [now apply consistent_write|].
    intros u i f H. apply step_phase_kept in H. congruence.
  - split; [now apply consistent_end|].
    intros u i f H. apply step_phase_kept in H. congruence.
  - pose proof (consistent_unsent _ Hc Hh) as Hnil.
    split; [apply consistent_reply; auto | auto].
  - pose proof Hr as (_ & _ & _ & _ & _ & _ & Hd & _).
    split; [now apply (consistent_same (Tracked.res s))|].
    intros _ _ _ _. rewrite Hd. eauto.
  - pose proof Hr as (_ & _ & _ & _ & _ & _ & Hd & _).
    assert (Http.written r0 = []) as Hnil by (rewrite Hd; eauto).
    split; [now apply consistent_reply | auto].
Qed.

Lemma start_consistent (w : Tracked.World) (table : gmap string Tracked.Entry)
    (videoUrl itag filename : option string) :
  let s := Tracked.start w table videoUrl itag filename in
  Obs.consistent (Tracked.res s) /\
  (forall u i f, Tracked.phase s = Tracked.Awaiting u i f ->
                 Http.written (Tracked.res s) = []).
Proof.
  unfold Tracked.start. cbv zeta.
  assert (Obs.consistent
            (Http.reply 400 (Http.Json "Video URL and format itag are required")
               Http.fresh)) as H400 by (apply consistent_reply; auto).
  destruct videoUrl as [u|], itag as [i|]; try (split; [exact H400 | auto]).
  destruct (negb _ || negb _); [split; [exact H400 | auto]|].
  destruct (Tracked.searchParam_v w u) as [v|].
  - split; [apply consistent_fresh | auto].
  - match goal with |- context [Tracked.catch ?s0] =>
      destruct (catch_parts s0) as (_ & _ & _ & ->) end.
    simpl. split; [apply consistent_reply; auto | auto].
Qed.

(** X16. A tracked download never mixes payload and error: whatever the
    events, once a byte of payload has been written the status is 200, the
    head has gone out and no JSON error body is sent; an error body is sent
    only when nothing has been written; the status is 200, 400 or 500; and
    a write is refused with an ['error'] on the response only after the
    response has been ended. *)
Theorem tracked_payload_only_with_200 (w : Tracked.World)
    (table : gmap string Tracked.Entry) (videoUrl itag filename : option string)
    (evs : list Tracked.Event) :
  let r := Tracked.res
             (Tracked.run w evs (Tracked.start w table videoUrl itag filename)) in
  (Http.written r <> [] ->
   Http.statusCode r = 200 /\ Http.body r = None /\ Http.headersSent r = true) /\
  (Http.body r <> None -> Http.written r = []) /\
  (Http.statusCode r = 200 \/ Http.statusCode r = 400 \/ Http.statusCode r = 500) /\
  (Http.errored r = true -> Http.ended r = true).
Proof.
  cbv zeta.
  assert (Obs.consistent (Tracked.res
            (Tracked.run w evs (Tracked.start w table videoUrl itag filename))))
    as (_ & Hsent & Hcode & Herr).
  { pose proof (start_consistent w table videoUrl itag filename) as H.
    revert H. generalize (Tracked.start w table videoUrl itag filename).
    induction evs as [|ev evs IH]; intros s H; [apply H|].
    rewrite tracked_run_cons. now apply IH, step_consistent. }
  split; [exact Hsent|]. split; [|split; [exact Hcode | exact Herr]].
  intros Hb.
  destruct (Http.written _) eqn:E; [reflexivity|].
  destruct Hsent as (_ & Hnone & _); congruence.
Qed.

Lemma tracked_payload_only_with_200_witness :
  Http.statusCode (Tracked.res (Tracked.run Sample.tracked_world
    [Tracked.Resolved; Tracked.Stream (Http.Data [Byte.x01]); Tracked.ProcError]
    Sample.tracked_awaiting)) = 200.
Proof.
  apply (tracked_payload_only_with_200 Sample.tracked_world ∅
           (Some Sample.watch) (Some "18") None
           [Tracked.Resolved; Tracked.Stream (Http.Data [Byte.x01]);
            Tracked.ProcError]).
  vm_compute. discriminate.
Defined.

(** *** The health count and the cancel endpoint *)

Lemma step_size (w : Tracked.World) (ev : Tracked.Event) (s : Tracked.State) :
  (size (Tracked.activeDownloads (Tracked.step w ev s)) <=
   size (Tracked.activeDownloads s))%nat.
Proof.
  destruct (step_table w ev s)
    as [-> | [(id & _ & ->) | (id & e & e' & _ & He & ->)]].
  - lia.
  - destruct (Tracked.activeDownloads s !! id) eqn:E.
    + rewrite map_size_delete_Some by eauto. lia.
    + rewrite map_size_delete_None by assumption. lia.
  - rewrite map_size_insert_Some by eauto. lia.
Qed.

(** X17. The number of active downloads that GET /api/health reports: a
    download request adds at most one to it, and no event of the download
    ever adds to it. *)
Theorem health_count_bounded (w : Tracked.World)
    (table : gmap string Tracked.Entry) (videoUrl itag filename : option string)
    (evs : list Tracked.Event) :
  (Health.activeDownloads
     (Tracked.activeDownloads (Tracked.start w table videoUrl itag filename))
   <= S (Health.activeDownloads table))%nat /\
  (forall s : Tracked.State,
     Health.activeDownloads (Tracked.activeDownloads (Tracked.run w evs s))
     <= Health.activeDownloads (Tracked.activeDownloads s))%nat.
Proof.
  unfold Health.activeDownloads. split.
  - destruct (start_downloadId w table videoUrl itag filename)
      as [[_ ->] | [_ [-> | [e ->]]]].
    + lia.
    + destruct (table !! Js.to_string (Js.Num (Tracked.now w))) eqn:E.
      * rewrite map_size_delete_Some by eauto. lia.
      * rewrite map_size_delete_None by assumption. lia.
    + destruct (table !! Js.to_string (Js.Num (Tracked.now w))) eqn:E.
      * rewrite map_size_insert_Some by eauto. lia.
      * rewrite map_size_insert_None by assumption. lia.
  - induction evs as [|ev evs IH]; intros s; [simpl; lia|].
    rewrite tracked_run_cons. specialize (IH (Tracked.step w ev s)).
    pose proof (step_size w ev s). lia.
Qed.

(** X18. DELETE /api/downloads/:id answers 200 exactly when the table has
    an entry under the identifier and 404 otherwise; afterwards the table
    has no such entry and every other entry is unchanged, so that a second
    request for the same identifier is answered 404. *)
Theorem cancelDownload_spec (id : string) (table : gmap string Tracked.Entry) :
  let table' := fst (Tracked.cancelDownload id table) in
  let reply := snd (Tracked.cancelDownload id table) in
  (Http.statusCode reply = 200 <-> is_Some (table !! id)) /\
  (Http.statusCode reply = 404 <-> table !! id = None) /\
  table' !! id = None /\
  (forall id', id' <> id -> table' !! id' = table !! id') /\
  Http.statusCode (snd (Tracked.cancelDownload id table')) = 404 /\
  fst (Tracked.cancelDownload id table') = table'.
Proof.
  cbv zeta.
  destruct (Tracked.cancelDownload id table) as [table' reply] eqn:Ecd.
  unfold Tracked.cancelDownload in *.
  destruct (table !! id) as [e|] eqn:E; injection Ecd as <- <-;
    cbn [fst snd Http.reply Http.statusCode].
  - rewrite lookup_delete_eq.
    split; [split; eauto|]. split; [split; discriminate|].
    split; [reflexivity|].
    split; [intros id' Hne; now apply lookup_delete_ne | auto].
  - rewrite E.
    split; [split; [discriminate | intros [? ?]; discriminate]|].
    split; [split; reflexivity | auto].
Qed.

(** *** The extension of the download's file name *)

Lemma length_append (s t : string) :
  String.length (s ++ t) = (String.length s + String.length t)%nat.
Proof.
  induction s as [|c s IH]; [reflexivity|].
  rewrite append_cons. simpl. now rewrite IH.
Qed.

Lemma substring_suffix (s p : string) :
  String.substring (String.length s) (String.length p) (s ++ p) = p.
Proof.
  induction s as [|c s IH]; [now apply prefix_short|].
  rewrite append_cons. exact IH.
Qed.

Lemma endsWith_append (s p : string) : Js.endsWith p (s ++ p) = true.
Proof.
  unfold Js.endsWith. rewrite length_append.
  replace (String.length s + String.length p - String.length p)%nat
    with (String.length s) by lia.
  rewrite substring_suffix, String.eqb_refl, andb_true_r.
  apply Nat.leb_le. lia.
Qed.

(** X19. The file name of a yt-dlp download carries the extension of the
    requested format (mp4 when the format has none): the tracked service
    appends it unless the name already ends with it; the untracked service
    appends it unless the name, put in lower case, already ends with
    it. *)
Theorem download_filename_has_extension :
  (forall (w : Tracked.World) (s : Tracked.State) (u i : string)
          (f : option string),
     Tracked.phase s = Tracked.Awaiting u i f ->
     Tracked.phase (Tracked.step w Tracked.Resolved s) = Tracked.Streaming ->
     exists info format name,
       Tracked.youtubedl w u = Some info /\
       List.find (fun x => Js.strict_eq (YtDlp.format_id x) (Js.Str i))
                 (YtDlp.formats info) = Some format /\
       Http.headers (Tracked.res (Tracked.step w Tracked.Resolved s))
         !! "Content-Disposition" =
         Some ("attachment; filename=" ++ String Js.dquote name ++
               String Js.dquote EmptyString)%string /\
       Js.endsWith
         ("." ++ Js.to_string (Js.or (YtDlp.ext format) (Js.Str "mp4")))
         name = true) /\
  (forall (w : Streamed.World) (videoUrl itag filename : option string),
     Streamed.phase (Streamed.start w videoUrl itag filename) =
       Streamed.Streaming ->
     exists u i info format name,
       videoUrl = Some u /\ itag = Some i /\
       Streamed.youtubedl w u = Some info /\
       List.find (fun x => Js.strict_eq (YtDlp.format_id x) (Js.Str i))
                 (YtDlp.formats info) = Some format /\
       Http.headers (Streamed.res (Streamed.start w videoUrl itag filename))
         !! "Content-Disposition" =
         Some (Http.attachment
                 (Js.strip_quotes (Js.encodeURIComponent name))) /\
       (Js.endsWith
          ("." ++ Js.to_string (Js.or (YtDlp.ext format) (Js.Str "mp4")))
          name = true \/
        Js.endsWith
          ("." ++ Js.to_string (Js.or (YtDlp.ext format) (Js.Str "mp4")))
          (Js.toLowerCase name) = true)).
Proof.
  split.
  - intros w s u i f Hp. unfold Tracked.step. rewrite Hp.
    unfold Tracked.resume.
    destruct (Tracked.youtubedl w u) as [info|] eqn:Hinfo;
      [|now destruct (catch_fields s) as (_ & -> & _)].
    destruct (Tracked.downloadId s) as [id|];
      [|now destruct (catch_fields s) as (_ & -> & _)].
    destruct (List.find _ (YtDlp.formats info)) as [format|] eqn:Hfind;
      [|discriminate].
    match goal with |- context [match ?n with Some _ => _ | None => _ end] =>
      destruct n as [name|] end;
      [|now destruct (catch_fields s) as (_ & -> & _)].
    cbv zeta.
    match goal with |- context [Tracked.set_res ?r0 s] => set (r := r0) end.
    change (Tracked.activeDownloads (Tracked.set_res r s))
      with (Tracked.activeDownloads s).
    destruct (Tracked.activeDownloads s !! id) as [e|];
      [|now destruct (catch_fields (Tracked.set_res r s)) as (_ & -> & _)].
    intros _. cbn [Tracked.res Tracked.spawn Tracked.set_table Tracked.set_res].
    subst r. rewrite lookup_setHeader_ne by discriminate.
    rewrite lookup_setHeader_eq.
    exists info, format. eexists. split; [reflexivity|].
    split; [exact Hfind|]. split; [reflexivity|].
    match goal with |- context [if ?b then _ else _] => destruct b eqn:E end;
      [exact E | apply (endsWith_append name)].
  - intros w videoUrl itag filename. unfold Streamed.start. cbv zeta.
    destruct videoUrl as [u|], itag as [i|]; try discriminate.
    destruct (negb _ || negb _); [discriminate|].
    destruct (negb (Streamed.validateURL w u)); [discriminate|].
    destruct (Streamed.youtubedl w u) as [info|] eqn:Hinfo; [|discriminate].
    destruct (List.find _ (YtDlp.formats info)) as [format|] eqn:Hfind;
      [|discriminate].
    match goal with |- context [match ?n with Some _ => _ | None => _ end] =>
      destruct n as [name|] end; [|discriminate].
    intros _. cbn [Streamed.res]. exists u, i, info, format. eexists.
    split; [reflexivity|]. split; [reflexivity|]. split; [exact Hinfo|].
    split; [exact Hfind|].
    split.
    + destruct (Js.truthy (YtDlp.filesize format));
        rewrite !lookup_setHeader_ne by discriminate;
        apply lookup_setHeader_eq.
    + match goal with |- context [if ?b then _ else _] => destruct b eqn:E end;
        [right; exact E | left; apply (endsWith_append name)].
Qed.

Lemma download_filename_has_extension_witness :
  exists info format name,
    Tracked.youtubedl Sample.tracked_world Sample.watch = Some info /\
    List.find (fun x => Js.strict_eq (YtDlp.format_id x) (Js.Str "18"))
              (YtDlp.formats info) = Some format /\
    Http.headers (Tracked.res Sample.tracked_streaming)
      !! "Content-Disposition" =
      Some ("attachment; filename=" ++ String Js.dquote name ++
            String Js.dquote EmptyString)%string /\
    Js.endsWith
      ("." ++ Js.to_string (Js.or (YtDlp.ext format) (Js.Str "mp4")))
      name = true.
Proof.
  apply (proj1 download_filename_has_extension Sample.tracked_world
           Sample.tracked_awaiting Sample.watch "18" None);
    reflexivity.
Defined.

(** ** The untracked download, continued *)

Lemma streamed_step_process (ev : Streamed.Event) (s : Streamed.State) :
  (Streamed.childProcess (Streamed.step ev s) = Streamed.childProcess s /\
   Streamed.effects (Streamed.step ev s) = Streamed.effects s) \/
  (Streamed.childProcess s = Some false /\
   Streamed.childProcess (Streamed.step ev s) = Some true /\
   Streamed.effects (Streamed.step ev s) = Streamed.effects s ++ [Http.Kill]).
Proof.
  destruct ev as [[chunk| | |]|code| |]; unfold Streamed.step;
    destruct (Streamed.phase s); simpl; crush_step; auto.
Qed.

Lemma streamed_start_cases (w : Streamed.World)
    (videoUrl itag filename : option string) :
  let s := Streamed.start w videoUrl itag filename in
  (exists n b, (n = 400 \/ n = 500) /\
     Streamed.res s = Http.reply n b Http.fresh /\
     Streamed.phase s = Streamed.Returned /\
     Streamed.childProcess s = None /\
     (Streamed.effects s = [] \/
      exists u, videoUrl = Some u /\ Streamed.validateURL w u = true /\
                Streamed.effects s = [Http.Resolve u])) \/
  (exists u i,
     videoUrl = Some u /\ itag = Some i /\ Streamed.validateURL w u = true /\
     Streamed.phase s = Streamed.Streaming /\
     Streamed.childProcess s = Some false /\
     Streamed.effects s = [Http.Resolve u; Http.Spawn u i] /\
     Http.statusCode (Streamed.res s) = 200 /\
     Http.body (Streamed.res s) = None /\
     Http.written (Streamed.res s) = [] /\
     Http.headersSent (Streamed.res s) = false /\
     Http.errored (Streamed.res s) = false).
Proof.
  unfold Streamed.start. cbv zeta.
  destruct videoUrl as [u|], itag as [i|];
    try solve [left; eexists _, _; simpl; eauto 10].
  destruct (negb _ || negb _); [solve [left; eexists _, _; simpl; eauto 10]|].
  destruct (Streamed.validateURL w u) eqn:Hv;
    [|solve [left; eexists _, _; simpl; eauto 10]].
  cbn [negb].
  destruct (Streamed.youtubedl w u) as [info|];
    [|solve [left; eexists _, _; simpl; eauto 12]].
  destruct (List.find _ (YtDlp.formats info)) as [format|];
    [|solve [left; eexists _, _; simpl; eauto 12]].
  match goal with |- context [match ?n with Some _ => _ | None => _ end] =>
    destruct n as [name|] end;
    [|solve [left; eexists _, _; simpl; eauto 12]].
  right. exists u, i. cbn [Streamed.res Streamed.phase Streamed.childProcess
                          Streamed.effects].
  split; [reflexivity|]. split; [reflexivity|]. split; [assumption|].
  destruct (Js.truthy (YtDlp.filesize format)); repeat split.
Qed.

(** X20. The requests an untracked yt-dlp download makes, whatever the
    events: none when a parameter is missing or the URL is not a valid
    YouTube URL; else one metadata call for the requested URL, then at most
    one spawn of yt-dlp for the requested URL and itag, and kills only
    after the spawn. The handler holds a child exactly when it has spawned
    one. *)
Theorem streamed_effects_shape (w : Streamed.World)
    (videoUrl itag filename : option string) (evs : list Streamed.Event) :
  let s := Streamed.run evs (Streamed.start w videoUrl itag filename) in
  (Streamed.effects s = [] /\ Streamed.childProcess s = None) \/
  exists u i,
    videoUrl = Some u /\ itag = Some i /\ Streamed.validateURL w u = true /\
    (Streamed.effects s = [Http.Resolve u] /\ Streamed.childProcess s = None \/
     exists kills,
       Streamed.effects s = [Http.Resolve u; Http.Spawn u i] ++ kills /\
       Forall (fun e => e = Http.Kill) kills /\
       is_Some (Streamed.childProcess s)).
Proof.
  cbv zeta.
  assert (forall (P : Streamed.State -> Prop),
            (forall ev s, P s -> P (Streamed.step ev s)) ->
            forall s, P s -> P (Streamed.run evs s)) as Hrun.
  { intros P Hstep. induction evs as [|ev evs IH]; intros s H; [assumption|].
    rewrite streamed_run_cons. now apply IH, Hstep. }
  destruct (streamed_start_cases w videoUrl itag filename)
    as [(n & b & _ & _ & _ & Hc & [He | (u & Hu & Hv & He)])
       | (u & i & Hu & Hi & Hv & _ & Hc & He & _)].
  - left.
    apply (Hrun (fun s => Streamed.effects s = [] /\
                          Streamed.childProcess s = None)); [|auto].
    intros ev s [He' Hc'].
    destruct (streamed_step_process ev s) as [[-> ->] | (Hf & _)];
      [auto | congruence].
  - destruct itag as [i|].
    + right. exists u, i. split; [assumption|]. split; [reflexivity|].
      split; [assumption|]. left.
      apply (Hrun (fun s => Streamed.effects s = [Http.Resolve u] /\
                            Streamed.childProcess s = None)); [|auto].
      intros ev s [He' Hc'].
      destruct (streamed_step_process ev s) as [[-> ->] | (Hf & _)];
        [auto | congruence].
    + rewrite Hu in He. discriminate He.
  - right. exists u, i. split; [assumption|]. split; [assumption|].
    split; [assumption|]. right.
    assert (Streamed.effects
              (Streamed.run evs (Streamed.start w videoUrl itag filename)) =
              [Http.Resolve u; Http.Spawn u i] /\
            Streamed.childProcess
              (Streamed.run evs (Streamed.start w videoUrl itag filename)) =
              Some false \/
            Streamed.effects
              (Streamed.run evs (Streamed.start w videoUrl itag filename)) =
              [Http.Resolve u; Http.Spawn u i; Http.Kill] /\
            Streamed.childProcess
              (Streamed.run evs (Streamed.start w videoUrl itag filename)) =
              Some true) as [[-> ->] | [-> ->]].
    { apply (Hrun (fun s =>
               Streamed.effects s = [Http.Resolve u; Http.Spawn u i] /\
                 Streamed.childProcess s = Some false \/
               Streamed.effects s =
                 [Http.Resolve u; Http.Spawn u i; Http.Kill] /\
                 Streamed.childProcess s = Some true)); [|auto].
      intros ev s H.
      destruct (streamed_step_process ev s) as [[Hc' He'] | (Hf & Hc' & He')];
        rewrite Hc', He'; destruct H as [[H1 H2] | [H1 H2]];
        rewrite ?H1, ?H2; auto; congruence. }
    + exists []. repeat split; eauto.
    + exists [Http.Kill]. repeat split; eauto.
Qed.

Lemma streamed_step_consistent (ev : Streamed.Event) (s : Streamed.State) :
  Obs.consistent (Streamed.res s) ->
  Obs.consistent (Streamed.res (Streamed.step ev s)).
Proof.
  intros Hc.
  assert (forall b, Http.headersSent (Streamed.res s) = false ->
                    Obs.consistent (Http.reply 500 b (Streamed.res s))) as Hfail.
  { intros b Hh. apply consistent_reply; [|auto].
    now apply consistent_unsent. }
  destruct ev as [[chunk| | |]|code| |]; unfold Streamed.step;
    try (destruct (Streamed.phase s); [|assumption]);
    cbn [Streamed.listener Streamed.set_res Streamed.res].
  - unfold Http.writable. now apply consistent_write.
  - now apply consistent_end.
  - now apply consistent_destroy.
  - now apply consistent_drain.
  - destruct code as [[|c|c]|]; try assumption;
      (destruct (Http.headersSent (Streamed.res s)) eqn:Hh;
       [assumption | now apply Hfail]).
  - destruct (Http.headersSent (Streamed.res s)) eqn:Hh;
      [now apply consistent_end | now apply Hfail].
  - destruct (Streamed.childProcess s) as [[|]|]; assumption.
Qed.

(** X21. An untracked yt-dlp download never mixes payload and error:
    whatever the events, once a byte of payload has been written the status
    is 200, the head has gone out and no JSON error body is sent; an error
    body is sent only when nothing has been written; the status is 200, 400
    or 500; and a write is refused with an ['error'] on the response only
    after the response has been ended. That does happen: in the sample run
    the child fails after its first chunk, the listener of its ['error']
    ends the response, and the next chunk arrives before the response is
    closed and is written to the ended response: the chunk is not sent and
    the response emits the error. *)
Theorem streamed_payload_only_with_200 (w : Streamed.World)
    (videoUrl itag filename : option string) (evs : list Streamed.Event) :
  let r := Streamed.res
             (Streamed.run evs (Streamed.start w videoUrl itag filename)) in
  ((Http.written r <> [] ->
    Http.statusCode r = 200 /\ Http.body r = None /\ Http.headersSent r = true) /\
   (Http.body r <> None -> Http.written r = []) /\
   (Http.statusCode r = 200 \/ Http.statusCode r = 400 \/ Http.statusCode r = 500) /\
   (Http.errored r = true -> Http.ended r = true)) /\
  let r := Streamed.res (Streamed.run
             [Streamed.Stream (Http.Data [Byte.x01]); Streamed.ProcError;
              Streamed.Stream (Http.Data [Byte.x02])]
             Sample.streamed_streaming) in
  Http.written r = [Byte.x01] /\ Http.ended r = true /\ Http.errored r = true.
Proof.
  cbv zeta. split; [|vm_compute; auto].
  assert (Obs.consistent (Streamed.res
            (Streamed.run evs (Streamed.start w videoUrl itag filename))))
    as (_ & Hsent & Hcode & Herr).
  { assert (Obs.consistent
              (Streamed.res (Streamed.start w videoUrl itag filename))) as H.
    { destruct (streamed_start_cases w videoUrl itag filename)
        as [(n & b & Hn & -> & _)
           | (u & i & _ & _ & _ & _ & _ & _ & Hs & Hb & Hd & Hh & He)].
      - apply consistent_reply; [reflexivity | assumption].
      - unfold Obs.consistent. rewrite Hs, Hb, Hd, He.
        repeat split; auto; congruence. }
    revert H. generalize (Streamed.start w videoUrl itag filename).
    induction evs as [|ev evs IH]; intros s H; [assumption|].
    rewrite streamed_run_cons. now apply IH, streamed_step_consistent. }
  split; [exact Hsent|]. split; [|split; [exact Hcode | exact Herr]].
  intros Hb.
  destruct (Http.written _) eqn:E; [reflexivity|].
  destruct Hsent as (_ & Hnone & _); congruence.
Qed.

Lemma streamed_payload_only_with_200_witness :
  Http.statusCode (Streamed.res (Streamed.run
    [Streamed.Stream (Http.Data [Byte.x01]); Streamed.ProcClose (Some 1)]
    Sample.streamed_streaming)) = 200.
Proof.
  apply (proj1 (streamed_payload_only_with_200 Sample.streamed_world
           (Some Sample.watch) (Some "18") None
           [Streamed.Stream (Http.Data [Byte.x01]); Streamed.ProcClose (Some 1)])).
  vm_compute. discriminate.
Defined.

(** ** The metadata endpoint and the results page *)

(** X22. POST /api/video/info calls yt-dlp only for a URL that is present
    and passes [ytdl.validateURL], and at most once; it answers 200 exactly
    when the URL passes both tests and yt-dlp answers, 400 when a test
    fails and 500 when yt-dlp fails; a 200 reply is the result of
    [getVideoInfo], whose formats all have a usable source URL and are in
    descending order of resolution. *)
Theorem info_reply (w : Info.World) (videoUrl : Js.value) :
  let r := Info.info w videoUrl in
  (Info.resolved r = [videoUrl] <->
     Js.truthy videoUrl = true /\ Info.validateURL w videoUrl = true) /\
  (Info.resolved r = [] <->
     Js.truthy videoUrl = false \/ Info.validateURL w videoUrl = false) /\
  (Info.statusCode r = 400 <-> Info.resolved r = []) /\
  (Info.statusCode r = 500 <->
     Info.resolved r = [videoUrl] /\ Info.youtubedl w videoUrl = None) /\
  (Info.statusCode r = 200 <->
     Info.resolved r = [videoUrl] /\
     exists result,
       Info.youtubedl w videoUrl = Some result /\
       Info.json r = Info.VideoInfo (Direct.getVideoInfo result)) /\
  (forall v,
     Info.json r = Info.VideoInfo v ->
     Info.statusCode r = 200 /\
     Forall Spec.usable (Direct.formats v) /\
     Spec.descending Direct.numericQuality (Direct.formats v)).
Proof.
  cbv zeta. unfold Info.info.
  destruct (Js.truthy videoUrl) eqn:Et; cbn [negb].
  2: { simpl. repeat split; try discriminate; try tauto; try lia;
         try (intros [? ?]; discriminate); auto. }
  destruct (Info.validateURL w videoUrl) eqn:Ev; cbn [negb].
  2: { simpl. repeat split; try discriminate; try tauto; try lia;
         try (intros [? ?]; discriminate); auto. }
  destruct (Info.youtubedl w videoUrl) as [result|] eqn:Ey; simpl.
  - repeat split; try discriminate; try tauto; try lia;
      try (intros [? ?]; discriminate); eauto.
    all: match goal with H : Info.VideoInfo _ = Info.VideoInfo _ |- _ =>
           injection H as <- end.
    + apply List.Forall_forall. intros f Hf. now apply (member_usable result).
    + apply (sort_descending Direct.numericQuality).
  - repeat split; try discriminate; try tauto; try lia;
      try (intros [? ?]; discriminate); eauto.
    intros (_ & result & Hnone & _). discriminate.
Qed.

(** *** The duration on the results page *)

Lemma pad_two (k : nat) :
  (k < 60)%nat ->
  let seconds := Process.padStart 2 "0" (Js.to_string (Js.Num (Z.of_nat k))) in
  String.length seconds = 2%nat /\
  Js.parseInt_string seconds = Some (Z.of_nat k).
Proof.
  intros Hk.
  assert (forallb
            (fun k =>
               let seconds :=
                 Process.padStart 2 "0" (Js.to_string (Js.Num (Z.of_nat k))) in
               Nat.eqb (String.length seconds) 2 &&
               match Js.parseInt_string seconds with
               | Some n => n =? Z.of_nat k
               | None => false
               end) (seq 0 60) = true) as Hall by (vm_compute; reflexivity).
  rewrite forallb_forall in Hall. specialize (Hall k).
  cbv zeta in *. rewrite andb_true_iff in Hall.
  destruct Hall as [Hlen Hparse]; [apply in_seq; lia|].
  apply Nat.eqb_eq in Hlen. split; [exact Hlen|].
  destruct (Js.parseInt_string _) as [n|]; [|discriminate].
  apply Z.eqb_eq in Hparse. now subst n.
Qed.

(** X23. The duration shown on the results page reads back: for a duration
    of [d] seconds, [d] a safe integer that is not negative, the text is the
    decimal numeral of the whole minutes, a colon, and exactly two digits
    that spell the remaining seconds, below 60; minutes times 60 plus
    seconds is [d]. *)
Theorem durationFormatted_reads_back (duration : Z) :
  0 <= duration < 2 ^ 53 ->
  exists seconds,
    Process.durationFormatted duration =
      (Js.to_string (Js.Num (duration / 60)) ++ ":" ++ seconds)%string /\
    String.length seconds = 2%nat /\
    Js.parseInt_string (Process.durationFormatted duration) =
      Some (duration / 60) /\
    Js.parseInt_string seconds = Some (duration mod 60) /\
    60 * (duration / 60) + duration mod 60 = duration /\
    0 <= duration mod 60 < 60.
Proof.
  intros Hd. unfold Process.durationFormatted.
  rewrite Z.rem_mod_nonneg by lia.
  pose proof (Z.mod_pos_bound duration 60 ltac:(lia)) as Hm.
  pose proof (Z.div_mod duration 60 ltac:(lia)) as Hdm.
  destruct (pad_two (Z.to_nat (duration mod 60)) ltac:(lia)) as [Hlen Hparse].
  rewrite Z2Nat.id in Hlen, Hparse by lia.
  eexists. split; [reflexivity|]. split; [exact Hlen|].
  split; [|split; [exact Hparse|split; [|exact Hm]]].
  - apply parseInt_to_string; [|reflexivity | intros _; reflexivity].
    apply Z.ltb_lt. rewrite Z.abs_eq by (apply Z.div_pos; lia).
    apply Z.le_lt_trans with duration; [|lia].
    apply Z.div_le_upper_bound; lia.
  - lia.
Qed.

Lemma durationFormatted_reads_back_witness :
  exists seconds,
    Process.durationFormatted 185 = ("3" ++ ":" ++ seconds)%string /\
    String.length seconds = 2%nat /\
    Js.parseInt_string (Process.durationFormatted 185) = Some 3 /\
    Js.parseInt_string seconds = Some 5 /\
    60 * 3 + 5 = 185 /\ 0 <= 5 < 60.
Proof. apply (durationFormatted_reads_back 185). lia. Defined.

(** ** The table key *)

(** X30. The key of a download's entry is the clock reading at its
    arrival: a request that arrives while the table holds an entry under
    that reading (a download that began in the same millisecond) replaces
    that entry by its own, in state starting, and the table does not grow;
    the two downloads share one entry from then on. *)
Theorem same_clock_reading_replaces_entry (w : Tracked.World)
    (table : gmap string Tracked.Entry) (u i : string)
    (filename v : option string) (e : Tracked.Entry) :
  u <> EmptyString -> i <> EmptyString ->
  Tracked.searchParam_v w u = Some v ->
  table !! Js.to_string (Js.Num (Tracked.now w)) = Some e ->
  let id := Js.to_string (Js.Num (Tracked.now w)) in
  let s := Tracked.start w table (Some u) (Some i) filename in
  Tracked.downloadId s = Some id /\
  (exists e', Tracked.activeDownloads s = <[id := e']> table /\
              Tracked.status e' = Tracked.starting /\
              Tracked.startedAt e' = Tracked.now w /\
              Tracked.title e' = None) /\
  Health.activeDownloads (Tracked.activeDownloads s) =
    Health.activeDownloads table.
Proof.
  intros Hu Hi Hv He. cbv zeta. unfold Tracked.start.
  rewrite (param_truthy_Some _ Hu), (param_truthy_Some _ Hi), Hv.
  cbn [negb orb Tracked.downloadId Tracked.activeDownloads].
  split; [reflexivity|]. split.
  - eexists. split; [reflexivity|]. repeat split.
  - unfold Health.activeDownloads. apply map_size_insert_Some. eauto.
Qed.

Lemma same_clock_reading_replaces_entry_witness :
  Health.activeDownloads
    (Tracked.activeDownloads
       (Tracked.start Sample.tracked_world
          (Tracked.activeDownloads Sample.tracked_streaming)
          (Some Sample.watch) (Some "137") None)) =
  Health.activeDownloads (Tracked.activeDownloads Sample.tracked_streaming).
Proof.
  refine (proj2 (proj2 (same_clock_reading_replaces_entry Sample.tracked_world
    (Tracked.activeDownloads Sample.tracked_streaming) Sample.watch "137" None
    (Some "abc123")
    {| Tracked.videoId := "abc123"; Tracked.startedAt := 1700000000000;
       Tracked.status := Tracked.downloading;
       Tracked.title := Some (Js.Str "A clip");
       Tracked.totalSize := Some (Js.Num 1000);
       Tracked.format := Some (Js.Str "18");
       Tracked.entry_downloadedBytes := None |} _ _ eq_refl _)));
    [discriminate | discriminate | vm_compute; reflexivity].
Defined.

(** ** Sample runs *)

Lemma entry_deleted_at_end_witness :
  Spec.observed
    (Tracked.step Sample.tracked_world (Tracked.Stream Http.End)
       Sample.tracked_streaming) = None.
Proof.
  apply (entry_deleted_at_end Sample.tracked_world (Tracked.Stream Http.End)
           Sample.tracked_streaming); [reflexivity | left; reflexivity].
Defined.

Lemma entry_deleted_after_grace_witness :
  Spec.observed
    (Tracked.run Sample.tracked_world
       (Tracked.ReqClose ::
        [Tracked.Tick; Tracked.ProcClose None] ++ [Tracked.GraceElapsed])
       Sample.tracked_streaming) = None.
Proof.
  apply (entry_deleted_after_grace Sample.tracked_world
           [Tracked.Tick; Tracked.ProcClose None] Sample.tracked_streaming).
  reflexivity.
Defined.

Lemma disconnect_and_timeout_kill_witness :
  Tracked.childProcess
    (Tracked.step Sample.tracked_world Tracked.ReqTimeout
       Sample.tracked_streaming) = Some true /\
  Tracked.effects
    (Tracked.step Sample.tracked_world Tracked.ReqTimeout
       Sample.tracked_streaming) =
    Tracked.effects Sample.tracked_streaming ++ [Http.Kill].
Proof.
  apply (disconnect_and_timeout_kill Sample.tracked_world Tracked.ReqTimeout
           Sample.tracked_streaming);
    [reflexivity | reflexivity | right; reflexivity].
Defined.

Lemma piped_content_length_witness :
  Http.headers (snd (Direct.on_response 206 (Some "video/mp4") (Some "3")
                       Sample.clip (Spec.prepared None))) !! "Content-Length" =
  Some "3"%string.
Proof.
  apply (piped_content_length 206 (Some "video/mp4") (Some "3") Sample.clip None).
  lia.
Defined.

Lemma streamed_content_length_witness :
  exists u i info format,
    Some Sample.watch = Some u /\ Some "18"%string = Some i /\
    Streamed.youtubedl Sample.streamed_world u = Some info /\
    List.find (fun f => Js.strict_eq (YtDlp.format_id f) (Js.Str i))
              (YtDlp.formats info) = Some format /\
    Http.headers (Streamed.res Sample.streamed_streaming) !! "Content-Length" =
      if Js.truthy (YtDlp.filesize format)
      then Some (Js.to_string (YtDlp.filesize format)) else None.
Proof.
  apply (streamed_content_length Sample.streamed_world (Some Sample.watch)
           (Some "18") None).
  reflexivity.
Defined.
